(** * ViajeIA backend: a shallow embedding of [backend/app/main.py]

    The Python module is embedded function by function.  Python [str] values
    are sequences of Unicode code points, JSON payloads are Python values,
    exceptions are an explicit error result, and everything the process reads
    from outside (environment variables, HTTP providers, the language model,
    the clock, the interpreter's Unicode tables) is a field of a [World]
    record.  Every call of [requests.get] and of the language model is
    logged when it is made, so that statements of the form "no call is
    attempted" can be written.

    The file has three parts: the embedding of the program, the vocabulary
    the statements use together with sample worlds and inputs, and the
    lemmas and theorems, the latter grouped by component. *)

From Stdlib Require Import ZArith NArith List String Ascii Lia QArith SpecFloat.
From stdpp Require Import base list gmap.
Import ListNotations.

Local Open Scope Z_scope.

(** ** Python strings *)

(** A Python [str] is a sequence of code points; [len] is [length]. *)
Definition pystr : Type := list N.

(** String literals of this file are written in UTF-8 and decoded to code
    points, as the Python parser does with the source file. *)
Fixpoint utf8_go (need : nat) (acc : N) (bs : list N) : pystr :=
  match bs with
  | [] => []
  | b :: r =>
      match need with
      | O =>
          if (b <? 128)%N then b :: utf8_go 0 0%N r
          else if (b <? 224)%N then utf8_go 1 (b - 192)%N r
          else if (b <? 240)%N then utf8_go 2 (b - 224)%N r
          else utf8_go 3 (b - 240)%N r
      | S n =>
          let acc' := (acc * 64 + (b - 128))%N in
          match n with
          | O => acc' :: utf8_go 0 0%N r
          | S _ => utf8_go n acc' r
          end
      end
  end.

Definition u8 (s : string) : pystr :=
  utf8_go 0 0%N (map N_of_ascii (list_ascii_of_string s)).
Arguments u8 : simpl never.

(** [str.isspace] on one code point: the whitespace set that [str.strip()]
    and [str.split()] without arguments use. *)
Definition is_space (c : N) : bool :=
  ((9 <=? c) && (c <=? 13) || (28 <=? c) && (c <=? 32)
   || (c =? 133) || (c =? 160) || (c =? 5760)
   || (8192 <=? c) && (c <=? 8202)
   || (c =? 8232) || (c =? 8233) || (c =? 8239) || (c =? 8287)
   || (c =? 12288))%N.

Definition mem_char (chars : pystr) (c : N) : bool :=
  existsb (N.eqb c) chars.

Fixpoint lstrip_by (p : N -> bool) (s : pystr) : pystr :=
  match s with
  | [] => []
  | c :: r => if p c then lstrip_by p r else s
  end.

Definition rstrip_by (p : N -> bool) (s : pystr) : pystr :=
  rev (lstrip_by p (rev s)).

Definition strip_by (p : N -> bool) (s : pystr) : pystr :=
  rstrip_by p (lstrip_by p s).

(** [s.strip()] *)
Definition str_strip (s : pystr) : pystr := strip_by is_space s.

(** [s.strip(chars)] *)
Definition str_strip_chars (chars s : pystr) : pystr :=
  strip_by (mem_char chars) s.

(** [s.rstrip(chars)] *)
Definition str_rstrip_chars (chars s : pystr) : pystr :=
  rstrip_by (mem_char chars) s.

Fixpoint starts_with (p s : pystr) : bool :=
  match p, s with
  | [], _ => true
  | _ :: _, [] => false
  | a :: p', b :: s' => (a =? b)%N && starts_with p' s'
  end.

(** [sub in s] *)
Fixpoint str_contains (sub s : pystr) : bool :=
  starts_with sub s ||
  match s with
  | [] => false
  | _ :: r => str_contains sub r
  end.

(** The text before and after the leftmost occurrence of [sep]. *)
Fixpoint partition_first (sep s : pystr) : option (pystr * pystr) :=
  if starts_with sep s then Some ([], drop (length sep) s)
  else
    match s with
    | [] => None
    | c :: r =>
        match partition_first sep r with
        | Some (a, b) => Some (c :: a, b)
        | None => None
        end
    end.

(** [sep.join(parts)] *)
Fixpoint str_join (sep : pystr) (parts : list pystr) : pystr :=
  match parts with
  | [] => []
  | [p] => p
  | p :: rest => p ++ sep ++ str_join sep rest
  end.

(** [s.split()]: the maximal runs of non-whitespace characters. *)
Fixpoint split_ws_go (cur s : pystr) : list pystr :=
  match s with
  | [] => match cur with [] => [] | _ => [cur] end
  | c :: r =>
      if is_space c then
        match cur with
        | [] => split_ws_go [] r
        | _ => cur :: split_ws_go [] r
        end
      else split_ws_go (cur ++ [c]) r
  end.

Definition str_split_ws (s : pystr) : list pystr := split_ws_go [] s.

(** Truth value of a string: [bool(s)]. *)
Definition str_truthy (s : pystr) : bool :=
  match s with [] => false | _ => true end.

(** ** Exceptions *)

Inductive exn : Type :=
| AttributeError
| IndexError
| KeyError
| TypeError
| ValueError
| OverflowError
| StopIteration
| UnicodeEncodeError
| HTTPException (status : Z).

Inductive Res (A : Type) : Type :=
| Ok (a : A)
| Raise (e : exn).
Arguments Ok {A} a.
Arguments Raise {A} e.

Definition res_bind {A B} (m : Res A) (k : A -> Res B) : Res B :=
  match m with
  | Ok a => k a
  | Raise e => Raise e
  end.

Notation "'do?' x <- m ; k" := (res_bind m (fun x => k))
  (at level 10, x name, m at level 100, k at level 200).

(** [l[i]] on a list, for a non-negative literal index. *)
Definition list_index {A} (l : list A) (i : nat) : Res A :=
  match l !! i with
  | Some x => Ok x
  | None => Raise IndexError
  end.

(** [s.split(sep, 1)] *)
Definition str_split1 (sep s : pystr) : Res (list pystr) :=
  match sep with
  | [] => Raise ValueError
  | _ =>
      match partition_first sep s with
      | Some (a, b) => Ok [a; b]
      | None => Ok [s]
      end
  end.

(** ** Field extractor *)

Definition COLON : pystr := u8 ":".
Definition PIPE : pystr := u8 "|".
Definition DOT : pystr := u8 ".".

Definition extract_field (text label : pystr) : Res (option pystr) :=
  let marker := label ++ COLON in
  if negb (str_contains marker text) then Ok None
  else
    do? parts <- str_split1 marker text;
    do? segmento <- list_index parts 1;
    do? cells <- str_split1 PIPE segmento;
    do? cell <- list_index cells 0;
    let posible := str_strip_chars DOT (str_strip cell) in
    Ok (if str_truthy posible then Some posible else None).

Definition extract_destino (text : pystr) : Res (option pystr) :=
  extract_field text (u8 "Destino deseado").

(** ** Python values

    The values a decoded JSON payload is made of.  A [dict] keeps its keys in
    insertion order and holds each key once. *)

#[local] Set Warnings "-register-all".

Inductive pyval : Type :=
| PyNone
| PyBool (b : bool)
| PyInt (n : Z)
| PyFloat (f : spec_float)
| PyStr (s : pystr)
| PyList (l : list pyval)
| PyDict (d : list (pystr * pyval)).

(** [bool(v)] *)
Definition truthy (v : pyval) : bool :=
  match v with
  | PyNone => false
  | PyBool b => b
  | PyInt n => negb (n =? 0)
  | PyFloat (S754_zero _) => false
  | PyFloat _ => true
  | PyStr s => str_truthy s
  | PyList l => match l with [] => false | _ => true end
  | PyDict d => match d with [] => false | _ => true end
  end.

Definition is_none (v : pyval) : bool :=
  match v with PyNone => true | _ => false end.

Definition pystr_eqb (a b : pystr) : bool := bool_decide (a = b).

Fixpoint assoc (k : pystr) (d : list (pystr * pyval)) : option pyval :=
  match d with
  | [] => None
  | (k', v) :: r => if pystr_eqb k k' then Some v else assoc k r
  end.

(** [v.get(k, default)]: only a [dict] has the method. *)
Definition py_get (v : pyval) (k : pystr) (default : pyval) : Res pyval :=
  match v with
  | PyDict d => Ok (match assoc k d with Some x => x | None => default end)
  | _ => Raise AttributeError
  end.

(** [v[0]] *)
Definition py_item0 (v : pyval) : Res pyval :=
  match v with
  | PyList l => list_index l 0
  | PyStr s => match s with c :: _ => Ok (PyStr [c]) | [] => Raise IndexError end
  | PyDict _ => Raise KeyError
  | _ => Raise TypeError
  end.

(** [for item in v]: the items a loop over [v] visits. *)
Definition py_iter (v : pyval) : Res (list pyval) :=
  match v with
  | PyList l => Ok l
  | PyDict d => Ok (map (fun kv => PyStr (fst kv)) d)
  | PyStr s => Ok (map (fun c => PyStr [c]) s)
  | _ => Raise TypeError
  end.

(** ** Numbers as text *)

Fixpoint digits_go (fuel : nat) (n : N) (acc : pystr) : pystr :=
  let acc' := (48 + n mod 10)%N :: acc in
  match fuel with
  | O => acc'
  | S f => if (n <? 10)%N then acc' else digits_go f (n / 10)%N acc'
  end.

(** The decimal digits of a natural number, most significant first. *)
Definition digits (n : N) : pystr :=
  digits_go (N.to_nat (N.log2 n)) n [].

Definition MINUS : pystr := u8 "-".

(** [str(n)] for an [int]. *)
Definition int_str (n : Z) : pystr :=
  (if n <? 0 then MINUS else []) ++ digits (Z.abs_N n).

(** Groups of three digits from the right, separated by commas. *)
Fixpoint group3_rev (ds : pystr) : pystr :=
  match ds with
  | a :: b :: c :: ((_ :: _) as r) => a :: b :: c :: 44%N :: group3_rev r
  | _ => ds
  end.

Definition group3 (ds : pystr) : pystr := rev (group3_rev (rev ds)).

(** [ds] padded with zeros on the left to [p] digits. *)
Definition zero_pad (p : nat) (ds : pystr) : pystr :=
  repeat 48%N (p - length ds) ++ ds.

(** The integer nearest to [m * 2^e * 10^p], ties to even. *)
Definition scaled_round (m : positive) (e : Z) (p : nat) : N :=
  let num := (Npos m * 10 ^ N.of_nat p)%N in
  if 0 <=? e then (num * 2 ^ Z.to_N e)%N
  else
    let den := (2 ^ Z.to_N (- e))%N in
    let q := (num / den)%N in
    let r := (num mod den)%N in
    match (2 * r ?= den)%N with
    | Lt => q
    | Gt => (q + 1)%N
    | Eq => if N.even q then q else (q + 1)%N
    end.

(** [format(x, '.pf')] and, with [comma], [format(x, ',.pf')] for a float:
    the decimal expansion of the exact binary value, correctly rounded. *)
Definition format_float_f (comma : bool) (p : nat) (x : spec_float) : pystr :=
  let fixed (s : bool) (q : N) :=
    let ip := digits (q / 10 ^ N.of_nat p)%N in
    (if s then MINUS else [])
      ++ (if comma then group3 ip else ip)
      ++ match p with
         | O => []
         | _ => DOT ++ zero_pad p (digits (q mod 10 ^ N.of_nat p)%N)
         end in
  match x with
  | S754_nan => u8 "nan"
  | S754_infinity s => (if s then MINUS else []) ++ u8 "inf"
  | S754_zero s => fixed s 0%N
  | S754_finite s m e => fixed s (scaled_round m e p)
  end.

(** [float(n)] for an [int]: nearest binary64, [OverflowError] beyond range. *)
Definition int_to_float (n : Z) : Res spec_float :=
  match binary_normalize 53 1024 n 0 false with
  | S754_infinity _ => Raise OverflowError
  | f => Ok f
  end.

(** [format(v, '.pf')] / [format(v, ',.pf')] for an arbitrary value. *)
Definition py_format_f (comma : bool) (p : nat) (v : pyval) : Res pystr :=
  match v with
  | PyFloat f => Ok (format_float_f comma p f)
  | PyInt n => do? f <- int_to_float n; Ok (format_float_f comma p f)
  | PyBool b =>
      do? f <- int_to_float (if b then 1 else 0);
      Ok (format_float_f comma p f)
  | PyStr _ => Raise ValueError
  | PyNone | PyList _ | PyDict _ => Raise TypeError
  end.

(** ** The outside world *)

(** What one outbound HTTP GET yields: [HttpError] stands for any
    [requests.RequestException] (no connection, timeout, a status that
    [raise_for_status] rejects, a body that is not JSON); [HttpJson] is a
    2xx answer with its decoded body; [HttpEncodeError] is a
    [UnicodeEncodeError] raised while the request is encoded (a query that
    is not UTF-8, a header that is not Latin-1), which
    [except requests.RequestException] does not catch. *)
Inductive HttpOutcome : Type :=
| HttpError
| HttpJson (body : pyval)
| HttpEncodeError.

(** What the language model yields: [GenError] is any exception of
    [generate_content] or of reading [completion.text]. *)
Inductive GenOutcome : Type :=
| GenError
| GenText (text : option pystr).

(** The calls of [requests.get] and of the model, in the order they are
    made. *)
Inductive Call : Type :=
| HttpGet (url : pystr) (params headers : list (pystr * pystr))
| Generate (model_name : pystr) (contents : list pystr)
| FetchImage (url : pyval).

Record World : Type := {
  (** [os.getenv] *)
  getenv : pystr -> option pystr;
  (** the providers, by URL, query parameters and headers *)
  http : pystr -> list (pystr * pystr) -> list (pystr * pystr) -> HttpOutcome;
  (** the language model, by model name and contents *)
  gemini : pystr -> list pystr -> GenOutcome;
  (** [datetime.utcnow().isoformat()] *)
  utcnow_iso : pystr;
  (** the wall clock, the zone database and float arithmetic behind the
      time-difference text: value and description for a destination offset,
      or the exception [timedelta]/[timezone] raise on it *)
  clock_difference : pyval -> Res (pystr * pystr);
  (** whether an image URL downloads, decodes and draws *)
  image_ok : pyval -> bool;
  (** [str.upper], [str.capitalize] (Unicode case mapping) *)
  py_upper : pystr -> pystr;
  py_capitalize : pystr -> pystr;
  (** [str(x)] for a float, a list or a dict *)
  py_repr : pyval -> pystr;
}.

(** Computations that log their calls and may raise. *)
Definition M (A : Type) : Type := (list Call * Res A)%type.

Definition ret {A} (a : A) : M A := ([], Ok a).

Definition bind {A B} (m : M A) (k : A -> M B) : M B :=
  match m with
  | (l, Ok a) => let '(l', r) := k a in (l ++ l', r)
  | (l, Raise e) => (l, Raise e)
  end.

Definition lift {A} (r : Res A) : M A := ([], r).

Definition raise {A} (e : exn) : M A := ([], Raise e).

Notation "'do!' x <- m ; k" := (bind m (fun x => k))
  (at level 10, x name, m at level 100, k at level 200).

Definition calls {A} (m : M A) : list Call := fst m.
Definition result {A} (m : M A) : Res A := snd m.

(** A lone surrogate: a code point that has no UTF-8 encoding. *)
Definition is_surrogate (c : N) : bool :=
  ((55296 <=? c) && (c <=? 57343))%N.

(** [s.encode("utf-8")] succeeds. *)
Definition utf8_encodable (s : pystr) : bool :=
  forallb (fun c => negb (is_surrogate c)) s.

(** The query can be encoded as UTF-8. *)
Definition params_encodable (params : list (pystr * pystr)) : bool :=
  forallb (fun kv => utf8_encodable (fst kv) && utf8_encodable (snd kv)) params.

(** What [requests.get] with [raise_for_status()] and [json()] yields.  The
    query is encoded as UTF-8 before anything is sent: a name or value with
    a lone surrogate raises [UnicodeEncodeError], which is not a
    [requests.RequestException]; otherwise the outcome is the world's. *)
Definition request_outcome (w : World) (url : pystr)
    (params headers : list (pystr * pystr)) : HttpOutcome :=
  if params_encodable params then http w url params headers
  else HttpEncodeError.

(** [requests.get(url, params=..., headers=..., timeout=8)],
    [raise_for_status()] and [json()]; the [try ... except] around them is
    the [match] on the outcome in each adapter. *)
Definition http_get (w : World) (url : pystr)
    (params headers : list (pystr * pystr)) : M HttpOutcome :=
  ([HttpGet url params headers], Ok (request_outcome w url params headers)).

(** [os.getenv(name, default)] *)
Definition getenv_default (w : World) (name default : pystr) : pystr :=
  match getenv w name with
  | Some v => v
  | None => default
  end.

(** [os.getenv(name)] when it is set and not empty: what passes the test
    [if not api_key]. *)
Definition env_key (w : World) (name : pystr) : option pystr :=
  match getenv w name with
  | Some (c :: k) => Some (c :: k)
  | _ => None
  end.

(** [str(v)] *)
Definition py_str (w : World) (v : pyval) : pystr :=
  match v with
  | PyNone => u8 "None"
  | PyBool true => u8 "True"
  | PyBool false => u8 "False"
  | PyInt n => int_str n
  | PyStr s => s
  | _ => py_repr w v
  end.

(** [v.capitalize()]: only a [str] has the method. *)
Definition capitalize (w : World) (v : pyval) : Res pystr :=
  match v with
  | PyStr s => Ok (py_capitalize w s)
  | _ => Raise AttributeError
  end.

(** [a or b] *)
Definition py_or (a : pyval) (b : pyval) : pyval :=
  if truthy a then a else b.

(** ** Provider adapters *)

Record WeatherData : Type := {
  summary : pystr;
  temperature : pyval;
  feels_like : pyval;
  humidity : pyval;
  wind : pyval;
  country : pyval;
  timezone_offset : pyval;
  city : pyval;
}.

Definition weather_of_json (w : World) (destino : pystr) (data : pyval)
  : Res WeatherData :=
  do? wl <- py_get data (u8 "weather") (PyList [PyDict []]);
  do? weather <- py_item0 wl;
  do? main <- py_get data (u8 "main") (PyDict []);
  do? descr <- py_get weather (u8 "description") (PyStr []);
  do? summ <- capitalize w descr;
  do? temp <- py_get main (u8 "temp") PyNone;
  do? feels <- py_get main (u8 "feels_like") PyNone;
  do? hum <- py_get main (u8 "humidity") PyNone;
  do? wnd <- py_get data (u8 "wind") (PyDict []);
  do? speed <- py_get wnd (u8 "speed") PyNone;
  do? sys <- py_get data (u8 "sys") (PyDict []);
  do? ctry <- py_get sys (u8 "country") PyNone;
  do? tz <- py_get data (u8 "timezone") PyNone;
  do? name <- py_get data (u8 "name") PyNone;
  Ok {| summary := summ; temperature := temp; feels_like := feels;
        humidity := hum; wind := speed; country := ctry;
        timezone_offset := tz; city := py_or name (PyStr destino) |}.

Definition WEATHER_URL : pystr :=
  u8 "https://api.openweathermap.org/data/2.5/weather".

Definition get_weather_data (w : World) (destino : option pystr)
  : M (option WeatherData) :=
  match env_key w (u8 "OPENWEATHER_API_KEY"), destino with
  | Some api_key, Some (c :: d) =>
      let params := [(u8 "q", c :: d); (u8 "appid", api_key);
                     (u8 "units", u8 "metric"); (u8 "lang", u8 "es")] in
      do! r <- http_get w WEATHER_URL params [];
      match r with
      | HttpError => ret None
      | HttpJson data =>
          do! wd <- lift (weather_of_json w (c :: d) data);
          ret (Some wd)
      | HttpEncodeError => raise UnicodeEncodeError
      end
  | _, _ => ret None
  end.

Fixpoint collect_urls (items : list pyval) : Res (list pyval) :=
  match items with
  | [] => Ok []
  | item :: rest =>
      do? us <- py_get item (u8 "urls") (PyDict []);
      do? url <- py_get us (u8 "regular") PyNone;
      do? urls <- collect_urls rest;
      Ok (if truthy url then url :: urls else urls)
  end.

Definition photos_of_json (data : pyval) : Res (list pyval) :=
  do? results <- py_get data (u8 "results") (PyList []);
  do? items <- py_iter results;
  collect_urls items.

Definition PHOTOS_URL : pystr := u8 "https://api.unsplash.com/search/photos".

Definition get_destination_photos (w : World) (destino : option pystr)
  : M (list pyval) :=
  match env_key w (u8 "UNSPLASH_ACCESS_KEY"), destino with
  | Some api_key, Some (c :: d) =>
      let params := [(u8 "query", c :: d); (u8 "per_page", u8 "3");
                     (u8 "orientation", u8 "landscape")] in
      let headers := [(u8 "Accept-Version", u8 "v1");
                      (u8 "Authorization", u8 "Client-ID " ++ api_key)] in
      do! r <- http_get w PHOTOS_URL params headers;
      match r with
      | HttpError => ret []
      | HttpJson data => lift (photos_of_json data)
      | HttpEncodeError => raise UnicodeEncodeError
      end
  | _, _ => ret []
  end.

(** [next(iter(v.keys()))] for a non-empty [v]. *)
Definition first_key (v : pyval) : Res pystr :=
  match v with
  | PyDict ((k, _) :: _) => Ok k
  | PyDict [] => Raise StopIteration
  | _ => Raise AttributeError
  end.

Definition currency_of_json (data : pyval) : Res (option pystr) :=
  if negb (truthy data) then Ok None
  else
    do? first <- py_item0 data;
    do? currencies <- py_get first (u8 "currencies") PyNone;
    if negb (truthy currencies) then Ok None
    else do? k <- first_key currencies; Ok (Some k).

Definition COUNTRIES_URL : pystr := u8 "https://restcountries.com/v3.1/alpha/".

Definition get_currency_code (w : World) (country_code : pyval)
  : M (option pystr) :=
  if negb (truthy country_code) then ret None
  else
    do! r <- http_get w (COUNTRIES_URL ++ py_str w country_code)
                      [(u8 "fields", u8 "currencies")] [];
    match r with
    | HttpError => ret None
    | HttpJson data => lift (currency_of_json data)
    | HttpEncodeError => raise UnicodeEncodeError
    end.

Module PanelSection.
Record t : Type := {
  label : pystr;
  value : pystr;
  description : option pystr;
}.
End PanelSection.

Definition RATES_URL : pystr := u8 "https://open.er-api.com/v6/latest/".

Definition home_section (base_currency : pystr) : PanelSection.t :=
  {| PanelSection.label := u8 "Tipo de cambio";
     PanelSection.value := u8 "Usas " ++ base_currency;
     PanelSection.description := Some (u8 "La moneda local coincide con tu moneda base.") |}.

Definition rate_section (base_currency rate_text target_currency : pystr)
  : PanelSection.t :=
  {| PanelSection.label := u8 "Tipo de cambio";
     PanelSection.value := u8 "1 " ++ base_currency ++ u8 " ≈ " ++ rate_text
                ++ u8 " " ++ target_currency;
     PanelSection.description :=
       Some (u8 "Tasa en tiempo real cortesía de open.er-api.com") |}.

Definition rate_of_json (base_currency target_currency : pystr) (data : pyval)
  : Res (option PanelSection.t) :=
  do? rates <- py_get data (u8 "rates") (PyDict []);
  do? rate <- py_get rates target_currency PyNone;
  if is_none rate then Ok None
  else
    do? txt <- py_format_f true 2 rate;
    Ok (Some (rate_section base_currency txt target_currency)).

Definition get_exchange_rate (w : World) (target_currency : option pystr)
  : M (option PanelSection.t) :=
  match target_currency with
  | Some (c :: t) =>
      let base_currency :=
        py_upper w (getenv_default w (u8 "HOME_CURRENCY") (u8 "USD")) in
      let target_currency := py_upper w (c :: t) in
      if pystr_eqb base_currency target_currency
      then ret (Some (home_section base_currency))
      else
        do! r <- http_get w (RATES_URL ++ base_currency) [] [];
        match r with
        | HttpError => ret None
        | HttpJson data =>
            lift (rate_of_json base_currency target_currency data)
        | HttpEncodeError => raise UnicodeEncodeError
        end
  | _ => ret None
  end.

(** ** Panel composer *)

Definition get_time_difference_info (w : World) (offset_seconds : pyval)
  : Res (option PanelSection.t) :=
  if is_none offset_seconds then Ok None
  else
    do? vd <- clock_difference w offset_seconds;
    Ok (Some {| PanelSection.label := u8 "Diferencia horaria";
                PanelSection.value := fst vd;
                PanelSection.description := Some (snd vd) |}).

Definition format_weather_section (w : World) (weather_data : option WeatherData)
  : Res (option PanelSection.t) :=
  match weather_data with
  | None => Ok None
  | Some wd =>
      let temp := temperature wd in
      let summ := summary wd in
      let feels := feels_like wd in
      do? val <-
        (if negb (is_none temp)
         then do? t <- py_format_f false 0 temp; Ok (t ++ u8 " °C")
         else Ok (if str_truthy summ then summ else u8 "N/D"));
      let parts1 := if str_truthy summ then [summ] else [] in
      do? parts2 <-
        (if negb (is_none feels)
         then do? t <- py_format_f false 0 feels;
              Ok (parts1 ++ [u8 "Sensación " ++ t ++ u8 " °C"])
         else Ok parts1);
      let parts3 :=
        if negb (is_none (humidity wd))
        then parts2 ++ [u8 "Humedad " ++ py_str w (humidity wd) ++ u8 "%"]
        else parts2 in
      Ok (Some {| PanelSection.label := u8 "Temperatura actual";
                  PanelSection.value := val;
                  PanelSection.description :=
                    match parts3 with
                    | [] => None
                    | _ => Some (str_join (u8 ". ") parts3)
                    end |})
  end.

(** ** Line wrapping *)

Definition wrap_step (width : Z) (st : list pystr * list pystr * Z)
    (word : pystr) : list pystr * list pystr * Z :=
  let '(lines, current, current_len) := st in
  if width <? current_len + Z.of_nat (length word)
                + (match current with [] => 0 | _ => 1 end)
  then (lines ++ [str_join (u8 " ") current], [word], Z.of_nat (length word))
  else (lines, current ++ [word],
        current_len + (Z.of_nat (length word)
                       + (if current_len =? 0 then 0 else 1))).

Definition wrap_text (text : pystr) (width : Z) : list pystr :=
  let words := str_split_ws text in
  let '(lines, current, _) := fold_left (wrap_step width) words ([], [], 0) in
  let lines :=
    match current with
    | [] => lines
    | _ => lines ++ [str_join (u8 " ") current]
    end in
  match lines with
  | [] => [text]
  | _ => lines
  end.


(** ** Request and response models, conversation store *)

Module HistoryEntry.
Record t : Type := {
  pregunta : pystr;
  respuesta : option pystr;
  destino : option pystr;
  timestamp : pystr;
}.
End HistoryEntry.

Module PlanRequest.
Record t : Type := {
  pregunta : pystr;
  session_id : option pystr;
}.
End PlanRequest.

Module PanelInfo.
Record t : Type := {
  currency : option PanelSection.t;
  time : option PanelSection.t;
  weather : option PanelSection.t;
}.
End PanelInfo.

Module PlanResponse.
Record t : Type := {
  respuesta : pystr;
  fotos : list pyval;
  panel : option PanelInfo.t;
  history : list HistoryEntry.t;
  favorites : list pystr;
}.
End PlanResponse.

(** The two module-level dictionaries. *)
Record Store : Type := {
  conversation_store : gmap pystr (list HistoryEntry.t);
  favorites_store : gmap pystr (list pystr);
}.

Definition empty_store : Store :=
  {| conversation_store := ∅; favorites_store := ∅ |}.

(** [d.get(k, [])] *)
Definition store_get {A} (d : gmap pystr (list A)) (k : pystr) : list A :=
  match d !! k with
  | Some l => l
  | None => []
  end.

(** [l[-n:]] *)
Definition last_n {A} (n : nat) (l : list A) : list A :=
  drop (length l - n) l.

(** [payload.session_id or "anon"] *)
Definition session_key (session_id : option pystr) : pystr :=
  match session_id with
  | Some (c :: s) => c :: s
  | _ => u8 "anon"
  end.

(** ** The chat endpoint *)

Definition NL : pystr := [10%N].

(** [_get_gemini_model]: the configured model name, or the 500 error. *)
Definition _get_gemini_model (w : World) : Res pystr :=
  match env_key w (u8 "GEMINI_API_KEY"), env_key w (u8 "GOOGLE_API_KEY") with
  | None, None => Raise (HTTPException 500)
  | _, _ => Ok (getenv_default w (u8 "GEMINI_MODEL") (u8 "gemini-1.5-flash"))
  end.

(** [bool(x)] for an optional string. *)
Definition opt_truthy (o : option pystr) : bool :=
  match o with
  | Some s => str_truthy s
  | None => false
  end.

(** [str(x)] for an optional string. *)
Definition opt_str (o : option pystr) : pystr :=
  match o with
  | Some s => s
  | None => u8 "None"
  end.

Definition history_line (entry : HistoryEntry.t) : pystr :=
  u8 "- Pregunta: " ++ HistoryEntry.pregunta entry ++ NL
    ++ u8 "  Respuesta previa: " ++ opt_str (HistoryEntry.respuesta entry).

Definition history_text (history_entries : list HistoryEntry.t) : pystr :=
  match history_entries with
  | [] => []
  | _ =>
      NL ++ u8 "Historial reciente:" ++ NL
        ++ str_join NL (map history_line (last_n 5 history_entries)) ++ NL
  end.

Definition PROMPT_HEAD : pystr :=
  u8 "Preséntate siempre como 'Alex, tu consultor personal de viajes'. "
  ++ u8 "Mantén un tono entusiasta y amigable, utiliza emojis relacionados con viajes "
  ++ u8 "✈️ 🌍 🧳. Antes de recomendar, incluye 1-2 preguntas para conocer mejor las "
  ++ u8 "preferencias (presupuesto, intereses, ritmo del viaje). "
  ++ u8 "La respuesta siempre debe seguir exactamente este formato (usa bullets donde aplique):" ++ NL
  ++ u8 "» ALOJAMIENTO: ..." ++ NL
  ++ u8 "Þ COMIDA LOCAL: ..." ++ NL
  ++ [22%N] ++ u8 " LUGARES IMPERDIBLES: ..." ++ NL
  ++ u8 "ä CONSEJOS LOCALES: ..." ++ NL
  ++ u8 "ø ESTIMACIÓN DE COSTOS: ..." ++ NL
  ++ u8 "Si falta información, solicita más detalles dentro de la sección correspondiente. "
  ++ u8 "Contexto del viajero: ".

(** The weather sentence appended to the prompt. *)
Definition weather_prompt (w : World) (weather_data : option WeatherData)
    (dest : option pystr) : Res pystr :=
  match weather_data, dest with
  | Some wd, Some (c :: d) =>
      let bits1 := if str_truthy (summary wd) then [summary wd] else [] in
      do? bits2 <-
        (if negb (is_none (temperature wd))
         then do? t <- py_format_f false 0 (temperature wd);
              Ok (bits1 ++ [t ++ u8 " °C"])
         else Ok bits1);
      let bits3 :=
        if negb (is_none (humidity wd))
        then bits2 ++ [u8 "Humedad " ++ py_str w (humidity wd) ++ u8 "%"]
        else bits2 in
      Ok match bits3 with
         | [] => []
         | _ => NL ++ u8 "Información de clima actual para " ++ (c :: d)
                  ++ u8 ": " ++ str_join (u8 ", ") bits3
         end
  | _, _ => Ok []
  end.

Definition FALLBACK : pystr :=
  u8 "No recibimos una respuesta clara, intenta describir un poco más tu viaje.".

Definition plan_trip (w : World) (st : Store) (payload : PlanRequest.t)
  : M (PlanResponse.t * Store) :=
  let session_id := session_key (PlanRequest.session_id payload) in
  let history_entries := store_get (conversation_store st) session_id in
  do! model <- lift (_get_gemini_model w);
  do! extracted <- lift (extract_destino (PlanRequest.pregunta payload));
  let dest :=
    match last history_entries with
    | Some latest =>
        if opt_truthy extracted then extracted else HistoryEntry.destino latest
    | None => extracted
    end in
  do! weather_data <- get_weather_data w dest;
  do! fotos <- get_destination_photos w dest;
  let country_code :=
    match weather_data with Some wd => country wd | None => PyNone end in
  do! currency_code <- get_currency_code w country_code;
  do! currency_section <- get_exchange_rate w currency_code;
  let timezone_offset :=
    match weather_data with Some wd => timezone_offset wd | None => PyNone end in
  do! time_section <- lift (get_time_difference_info w timezone_offset);
  do! weather_section <- lift (format_weather_section w weather_data);
  do! weather_text <- lift (weather_prompt w weather_data dest);
  let prompt :=
    PROMPT_HEAD ++ PlanRequest.pregunta payload ++ history_text history_entries
      ++ weather_text in
  let contents := [u8 "Actúa como planificador experto en viajes."; prompt] in
  do! completion <-
    ([Generate model contents],
     match gemini w model contents with
     | GenText text => Ok text
     | GenError => Raise (HTTPException 502)
     end);
  let stripped :=
    str_strip (match completion with Some t => t | None => [] end) in
  let respuesta := if str_truthy stripped then stripped else FALLBACK in
  let panel :=
    {| PanelInfo.currency := currency_section;
       PanelInfo.time := time_section;
       PanelInfo.weather := weather_section |} in
  let entry :=
    {| HistoryEntry.pregunta := PlanRequest.pregunta payload;
       HistoryEntry.respuesta := Some respuesta;
       HistoryEntry.destino := dest;
       HistoryEntry.timestamp := utcnow_iso w ++ u8 "Z" |} in
  let updated_history := history_entries ++ [entry] in
  let st' :=
    {| conversation_store :=
         <[session_id := last_n 10 updated_history]> (conversation_store st);
       favorites_store := favorites_store st |} in
  let favorites := store_get (favorites_store st') session_id in
  ret ({| PlanResponse.respuesta := respuesta;
          PlanResponse.fotos := fotos;
          PlanResponse.panel := Some panel;
          PlanResponse.history :=
            store_get (conversation_store st') session_id;
          PlanResponse.favorites := favorites |}, st').

(** ** Itinerary PDF

    The canvas is modelled by the drawing operations it receives, page by
    page.  Coordinates are in points, as exact rationals (the source computes
    them in binary floating point). *)

Local Open Scope Q_scope.

Inductive DrawOp : Type :=
| SetFont (name : pystr) (size : Q)
| DrawString (x y : Q) (s : pystr)
| DrawLine (x1 y1 x2 y2 : Q)
| DrawText (lines : list (Q * Q * pystr))
| DrawImage (url : pyval) (x y box_width box_height : Q).

Record Canvas : Type := {
  pages : list (list DrawOp);
  page : list DrawOp;
}.

Definition new_canvas : Canvas := {| pages := []; page := [] |}.

Definition draw (op : DrawOp) (pdf : Canvas) : Canvas :=
  {| pages := pages pdf; page := page pdf ++ [op] |}.

(** [pdf.showPage()] *)
Definition showPage (pdf : Canvas) : Canvas :=
  {| pages := pages pdf ++ [page pdf]; page := [] |}.

(** A text object: origin of the next line, line spacing, lines so far. *)
Record TextObject : Type := {
  text_x : Q;
  text_y : Q;
  leading : Q;
  text_lines : list (Q * Q * pystr);
}.

(** [pdf.beginText(x, y)] followed by [text.setFont(name, size)]: the line
    spacing becomes 1.2 times the font size. *)
Definition beginText (x y size : Q) : TextObject :=
  {| text_x := x; text_y := y; leading := Qred (size * (6 # 5));
     text_lines := [] |}.

(** [text.textLine(s)] *)
Definition textLine (s : pystr) (t : TextObject) : TextObject :=
  {| text_x := text_x t;
     text_y := Qred (text_y t - leading t);
     leading := leading t;
     text_lines := text_lines t ++ [(text_x t, text_y t, s)] |}.

(** [text.getY()] *)
Definition getY (t : TextObject) : Q := text_y t.

(** [pdf.drawText(text)] *)
Definition drawText (t : TextObject) (pdf : Canvas) : Canvas :=
  draw (DrawText (text_lines t)) pdf.

Definition page_width : Q := 612.
Definition page_height : Q := 792.

Definition header_ops : list DrawOp :=
  [ SetFont (u8 "Helvetica-Bold") 22;
    DrawString 40 (page_height - 60) (u8 "ViajeIA");
    SetFont (u8 "Helvetica") 12;
    DrawString 40 (page_height - 80) (u8 "Alex, tu consultor personal de viajes");
    DrawLine 40 (page_height - 90) (page_width - 40) (page_height - 90) ].

Definition draw_header (pdf : Canvas) : Canvas :=
  fold_left (fun c op => draw op c) header_ops pdf.

Definition Qltb (a b : Q) : bool := negb (Qle_bool b a).

(** The page break taken when the cursor has passed the bottom margin. *)
Definition continue_page (pdf : Canvas) (t : TextObject)
  : Canvas * TextObject :=
  let pdf := showPage (drawText t pdf) in
  let pdf := draw_header pdf in
  let y := page_height - 120 in
  let pdf := draw (SetFont (u8 "Helvetica-Bold") 13) pdf in
  let pdf :=
    draw (DrawString 40 y (u8 "Resumen de la conversación (cont.)")) pdf in
  let y := y - 16 in
  (pdf, beginText 40 y 11).

(** One pass of the loop over the history. *)
Definition flow_entry (st : Canvas * TextObject) (entry : HistoryEntry.t)
  : Canvas * TextObject :=
  let '(pdf, t) := st in
  let t := textLine (u8 "• Pregunta: " ++ HistoryEntry.pregunta entry) t in
  let t :=
    if opt_truthy (HistoryEntry.respuesta entry)
    then fold_left (fun t line => textLine (u8 "  " ++ line) t)
           (wrap_text (opt_str (HistoryEntry.respuesta entry)) 90) t
    else t in
  let t := textLine [] t in
  if Qltb (getY t) 80 then continue_page pdf t else (pdf, t).

(** The gallery loop: each of the first three photos is fetched and drawn,
    and skipped when anything fails. *)
Fixpoint draw_photos (w : World) (urls : list pyval) (xs : list Q)
    (y_photo : Q) (pdf : Canvas) : M Canvas :=
  match urls, xs with
  | url :: urls', x :: xs' =>
      do! pdf' <-
        ([FetchImage url],
         Ok (if image_ok w url
             then draw (DrawImage url x y_photo 180 160) pdf
             else pdf));
      draw_photos w urls' xs' y_photo pdf'
  | _, _ => ret pdf
  end.

Record Document : Type := {
  doc_pages : list (list DrawOp);
  filename : pystr;
}.

Definition or_default (o : option pystr) (d : pystr) : pystr :=
  if opt_truthy o then opt_str o else d.

(** [s.encode("latin-1")] succeeds. *)
Definition latin1_encodable (s : pystr) : bool :=
  forallb (fun c => (c <=? 255)%N) s.

(** [StreamingResponse(..., headers=...)]: the response object encodes its
    header names and values as Latin-1 when it is built. *)
Definition init_headers (headers : list (pystr * pystr)) : Res unit :=
  if forallb (fun kv => latin1_encodable (fst kv) && latin1_encodable (snd kv))
       headers
  then Ok tt
  else Raise UnicodeEncodeError.

Definition download_itinerary (w : World) (st : Store) (session_id : pystr)
  : M Document :=
  match conversation_store st !! session_id with
  | None | Some [] => raise (HTTPException 404)
  | Some ((e :: es) as history) =>
      let latest := List.last es e in
      do! dest <-
        (if opt_truthy (HistoryEntry.destino latest)
         then ret (opt_str (HistoryEntry.destino latest))
         else
           do! d <- lift (extract_destino (HistoryEntry.pregunta latest));
           ret (or_default d (u8 "Destino no especificado")));
      do! f <- lift (extract_field (HistoryEntry.pregunta latest)
                       (u8 "Fechas aproximadas"));
      let fechas := or_default f (u8 "Fechas no definidas") in
      do! photos <- get_destination_photos w (Some dest);
      let pdf := draw_header new_canvas in
      let y := page_height - 120 in
      let pdf := draw (SetFont (u8 "Helvetica-Bold") 14) pdf in
      let pdf := draw (DrawString 40 y (u8 "Destino: " ++ dest)) pdf in
      let y := y - 20 in
      let pdf := draw (DrawString 40 y (u8 "Fechas: " ++ fechas)) pdf in
      let y := y - 30 in
      let pdf := draw (SetFont (u8 "Helvetica-Bold") 13) pdf in
      let pdf :=
        draw (DrawString 40 y (u8 "Resumen de la conversación")) pdf in
      let y := y - 16 in
      let '(pdf, t) := fold_left flow_entry history (pdf, beginText 40 y 11) in
      let pdf := drawText t pdf in
      do! pdf <-
        match photos with
        | [] => ret pdf
        | _ =>
            let pdf := draw_header (showPage pdf) in
            let pdf := draw (SetFont (u8 "Helvetica-Bold") 13) pdf in
            let pdf :=
              draw (DrawString 40 (page_height - 120)
                      (u8 "Inspiración visual")) pdf in
            draw_photos w (take 3 photos)
              [40; page_width / 2 - 90; page_width - 220]
              (page_height - 320) pdf
        end;
      let pdf := showPage pdf in
      let filename :=
        u8 "viajeia-itinerario-" ++ take 8 session_id ++ u8 ".pdf" in
      do! _ <-
        lift (init_headers
                [(u8 "Content-Disposition",
                  u8 "attachment; filename=" ++ [34%N] ++ filename ++ [34%N])]);
      ret {| doc_pages := pages pdf; filename := filename |}
  end.

Local Close Scope Q_scope.

(** ** The favorites endpoints *)

Module FavoriteRequest.
Record t : Type := {
  session_id : pystr;
  destino : pystr;
}.
End FavoriteRequest.

Module FavoritesResponse.
Record t : Type := {
  favorites : list pystr;
}.
End FavoritesResponse.

(** [x in l] for a list of strings. *)
Definition str_in (x : pystr) (l : list pystr) : bool :=
  existsb (pystr_eqb x) l.

(** [GET /favorites] *)
Definition list_favorites (st : Store) (session_id : pystr)
  : FavoritesResponse.t :=
  {| FavoritesResponse.favorites := store_get (favorites_store st) session_id |}.

(** [POST /favorites]: [setdefault] creates the session's list when it is
    missing, and the destination is appended to that list unless it is
    already in it. *)
Definition save_favorite (st : Store) (payload : FavoriteRequest.t)
  : Res (FavoritesResponse.t * Store) :=
  let session_id := str_strip (FavoriteRequest.session_id payload) in
  let destino := str_strip (FavoriteRequest.destino payload) in
  if negb (str_truthy session_id) || negb (str_truthy destino)
  then Raise (HTTPException 400)
  else
    let favorites := store_get (favorites_store st) session_id in
    let favorites :=
      if negb (str_in destino favorites) then favorites ++ [destino]
      else favorites in
    Ok ({| FavoritesResponse.favorites := favorites |},
        {| conversation_store := conversation_store st;
           favorites_store :=
             <[session_id := favorites]> (favorites_store st) |}).

(** * Specification vocabulary

    The predicates and functions below are what the theorems are stated
    with; none of them is part of the program. *)

(** ** Texts *)

(** [occurs sub s]: [sub] is a contiguous part of [s]. *)
Definition occurs (sub s : pystr) : Prop :=
  exists a b, s = a ++ sub ++ b.

(** [s] neither starts nor ends with a character satisfying [p]. *)
Definition clean_ends (p : N -> bool) (s : pystr) : bool :=
  match s, rev s with
  | c :: _, d :: _ => negb (p c) && negb (p d)
  | _, _ => true
  end.

(** [trimmed p s m]: [m] is [s] without its longest prefix and its longest
    suffix of characters satisfying [p]. *)
Definition trimmed (p : N -> bool) (s m : pystr) : Prop :=
  exists l r, s = l ++ m ++ r /\ forallb p l = true /\ forallb p r = true /\
              clean_ends p m = true.

Definition is_dot (c : N) : bool := (c =? 46)%N.

(** The field extractor in the words of the specification: the text between
    the first ["<label>:"] and the next ["|"] (or the end), trimmed of
    whitespace and of trailing periods; absent without the marker or when
    nothing is left. *)
Definition spec_extract_field (text label : pystr) : option pystr :=
  match partition_first (label ++ COLON) text with
  | None => None
  | Some (_, after) =>
      let segment :=
        match partition_first PIPE after with
        | Some (cell, _) => cell
        | None => after
        end in
      let field := str_rstrip_chars DOT (str_strip segment) in
      if str_truthy field then Some field else None
  end.

(** A word: non-empty and free of whitespace. *)
Definition is_word (w : pystr) : bool :=
  str_truthy w && forallb (fun c => negb (is_space c)) w.

(** The state of the wrapping loop after the words [done]: the finished
    lines and the line under construction hold exactly these words, and
    [current_len] is the length of that line once joined. *)
Record wrap_inv (done : list pystr) (st : list pystr * list pystr * Z) : Prop := {
  inv_words :
    concat (map str_split_ws (fst (fst st))) ++ snd (fst st) = done;
  inv_current : forallb is_word (snd (fst st)) = true;
  inv_len : snd st = Z.of_nat (length (str_join [32%N] (snd (fst st))));
}.

(** The line under construction and the finished lines fit the width. *)
Definition fits (width : Z) (st : list pystr * list pystr * Z) : Prop :=
  snd st <= width /\
  forall line, In line (fst (fst st)) -> Z.of_nat (length line) <= width.

(** A number with sign, comma-grouped integer digits and exactly two
    decimals, for the value [q / 100]. *)
Definition two_decimals (negative : bool) (q : N) : pystr :=
  (if negative then MINUS else [])
    ++ group3 (digits (q / 100)%N)
    ++ DOT ++ [(48 + (q / 10) mod 10)%N; (48 + q mod 10)%N].

(** [q] is an integer nearest to [m * 2^e * 10^p]. *)
Definition nearest_scaled (m : positive) (e : Z) (p : nat) (q : N) : Prop :=
  let num := (Z.pos m * 10 ^ Z.of_nat p)%Z in
  if 0 <=? e then Z.of_N q = num * 2 ^ e
  else 2 * Z.abs (Z.of_N q * 2 ^ (- e) - num) <= 2 ^ (- e).

(** At a tie the even neighbour is taken. *)
Definition ties_even (m : positive) (e : Z) (p : nat) (q : N) : Prop :=
  e < 0 ->
  2 * Z.abs (Z.of_N q * 2 ^ (- e) - Z.pos m * 10 ^ Z.of_nat p) = 2 ^ (- e) ->
  N.even q = true.

(** ** Exchange rates *)

(** A rate as a float: a float itself, an [int] or a [bool] converted; a
    string is no number for [format], nor is any other value, and an [int]
    beyond the float range overflows. *)
Definition rate_value (x : pyval) : Res spec_float :=
  match x with
  | PyFloat f => Ok f
  | PyInt n => int_to_float n
  | PyBool b => int_to_float (if b then 1 else 0)
  | PyStr _ => Raise ValueError
  | PyNone | PyList _ | PyDict _ => Raise TypeError
  end.

(** A rate with two decimals and thousands separators: a finite rate is
    rounded to hundredths; zero, the infinities and NaN have their own
    texts. *)
Definition rate_text (f : spec_float) : pystr :=
  match f with
  | S754_finite s m e => two_decimals s (scaled_round m e 2)
  | S754_zero s => (if s then u8 "-" else []) ++ u8 "0.00"
  | S754_infinity s => (if s then u8 "-" else []) ++ u8 "inf"
  | S754_nan => u8 "nan"
  end.




(** ** Photo search results *)





(** ** Chat turns *)

(** The destination a chat turn works with: the one extracted from the
    question, else the one of the latest history entry. *)
Definition chosen_destino (extracted : option pystr)
    (history_entries : list HistoryEntry.t) : option pystr :=
  match last history_entries with
  | Some latest =>
      if opt_truthy extracted then extracted else HistoryEntry.destino latest
  | None => extracted
  end.

(** The destination of the most recent history entry. *)
Definition latest_destino (history_entries : list HistoryEntry.t)
  : option pystr :=
  match last history_entries with
  | Some latest => HistoryEntry.destino latest
  | None => None
  end.

(** The answer a chat turn returns for what the model produced. *)
Definition answer_of (completion : option pystr) : pystr :=
  let stripped :=
    str_strip (match completion with Some t => t | None => [] end) in
  if str_truthy stripped then stripped else FALLBACK.

(** The history entry a chat turn records. *)
Definition new_entry (w : World) (payload : PlanRequest.t)
    (dest : option pystr) (completion : option pystr) : HistoryEntry.t :=
  {| HistoryEntry.pregunta := PlanRequest.pregunta payload;
     HistoryEntry.respuesta := Some (answer_of completion);
     HistoryEntry.destino := dest;
     HistoryEntry.timestamp := utcnow_iso w ++ u8 "Z" |}.

(** The contents sent to the language model. *)
Definition contents_of (payload : PlanRequest.t)
    (history_entries : list HistoryEntry.t) (weather_text : pystr)
  : list pystr :=
  [u8 "Actúa como planificador experto en viajes.";
   PROMPT_HEAD ++ PlanRequest.pregunta payload ++ history_text history_entries
     ++ weather_text].

(** An answer text: the [respuesta] of some successful chat turn, which is
    what the history entries hold. *)
Definition answer_text (t : pystr) : Prop :=
  exists w st payload log resp st',
    plan_trip w st payload = (log, Ok (resp, st')) /\
    PlanResponse.respuesta resp = t.

(** One [/plan] request, with the world it runs in. *)
Definition turn : Type := (World * PlanRequest.t)%type.

(** The store after a turn: a failed request leaves it as it was. *)
Definition plan_step (st : Store) (t : turn) : Store :=
  match plan_trip (fst t) st (snd t) with
  | (_, Ok (_, st')) => st'
  | (_, Raise _) => st
  end.

(** The entry a turn appends: the most recent one of the history it
    returns; none when the request fails. *)
Definition appended (st : Store) (t : turn) : list HistoryEntry.t :=
  match plan_trip (fst t) st (snd t) with
  | (_, Ok (resp, _)) =>
      match last (PlanResponse.history resp) with
      | Some e => [e]
      | None => []
      end
  | (_, Raise _) => []
  end.

(** The entries a sequence of turns appends to one session, in order. *)
Fixpoint appended_to (sid : pystr) (st : Store) (turns : list turn)
  : list HistoryEntry.t :=
  match turns with
  | [] => []
  | t :: rest =>
      (if pystr_eqb (session_key (PlanRequest.session_id (snd t))) sid
       then appended st t else [])
        ++ appended_to sid (plan_step st t) rest
  end.

(** The successful turns of one session, in order, each with the response
    it got. *)
Fixpoint answered (sid : pystr) (st : Store) (turns : list turn)
  : list (turn * PlanResponse.t) :=
  match turns with
  | [] => []
  | t :: rest =>
      match plan_trip (fst t) st (snd t) with
      | (_, Ok (resp, _)) =>
          if pystr_eqb (session_key (PlanRequest.session_id (snd t))) sid
          then [(t, resp)] else []
      | (_, Raise _) => []
      end ++ answered sid (plan_step st t) rest
  end.

(** The history entry of a successful turn: the question as asked, the
    answer as returned, the time of the turn. *)
Definition records (tr : turn * PlanResponse.t) (e : HistoryEntry.t) : Prop :=
  HistoryEntry.pregunta e = PlanRequest.pregunta (snd (fst tr)) /\
  HistoryEntry.respuesta e = Some (PlanResponse.respuesta (snd tr)) /\
  HistoryEntry.timestamp e = utcnow_iso (fst (fst tr)) ++ u8 "Z".

(** The same process with another reply of the language model. *)
Definition with_reply (w : World) (reply : option pystr) : World :=
  {| getenv := getenv w;
     http := http w;
     gemini := fun _ _ => GenText reply;
     utcnow_iso := utcnow_iso w;
     clock_difference := clock_difference w;
     image_ok := image_ok w;
     py_upper := py_upper w;
     py_capitalize := py_capitalize w;
     py_repr := py_repr w |}.

(** The answer for a reply of the language model: the reply without its
    surrounding whitespace, and the fallback message when nothing is left or
    there is no reply. *)
Definition fallback_rule (reply : option pystr) (respuesta : pystr) : Prop :=
  respuesta <> [] /\
  (reply = None -> respuesta = FALLBACK) /\
  (forall t, reply = Some t -> forallb is_space t = true ->
             respuesta = FALLBACK) /\
  (forall t, reply = Some t -> str_strip t <> [] -> respuesta = str_strip t).

(** ** Provider requests *)

(** The value a query parameter carries. *)
Definition carries (params : list (pystr * pystr)) (name : pystr)
    (v : option pystr) : Prop :=
  exists d, v = Some d /\ In (name, d) params.

(** The photo search request for a place. *)
Definition photo_params (d : pystr) : list (pystr * pystr) :=
  [(u8 "query", d); (u8 "per_page", u8 "3");
   (u8 "orientation", u8 "landscape")].

Definition photo_headers (key : pystr) : list (pystr * pystr) :=
  [(u8 "Accept-Version", u8 "v1");
   (u8 "Authorization", u8 "Client-ID " ++ key)].

(** ** Documents *)

(** The pages of a rendered document; none when rendering failed. *)
Definition pages_of (r : Res Document) : list (list DrawOp) :=
  match r with
  | Ok doc => doc_pages doc
  | Raise _ => []
  end.

(** The text lines of a page, with their positions. *)
Definition text_of_page (p : list DrawOp) : list (Q * Q * pystr) :=
  flat_map (fun op => match op with DrawText ls => ls | _ => [] end) p.

(** A non-empty text line drawn below the height [y]. *)
Definition drawn_below (y : Q) (l : Q * Q * pystr) : bool :=
  Qltb (snd (fst l)) y && str_truthy (snd l).

(** A page that starts with the header block. *)
Definition headed (p : list DrawOp) : Prop :=
  exists rest, p = header_ops ++ rest.

(** Every finished page and the page in progress start with the header. *)
Definition canvas_headed (pdf : Canvas) : Prop :=
  Forall headed (pages pdf) /\ headed (page pdf).

(** * Sample worlds and inputs *)

Fixpoint env_of (vars : list (pystr * pystr)) (name : pystr) : option pystr :=
  match vars with
  | [] => None
  | (k, v) :: rest => if pystr_eqb name k then Some v else env_of rest name
  end.

Definition ascii_upper_char (c : N) : N :=
  if ((97 <=? c) && (c <=? 122))%N then (c - 32)%N else c.

Definition ascii_lower_char (c : N) : N :=
  if ((65 <=? c) && (c <=? 90))%N then (c + 32)%N else c.

(** Case mapping on the ASCII letters, as Python has it there. *)
Definition ascii_upper (s : pystr) : pystr := map ascii_upper_char s.

Definition ascii_capitalize (s : pystr) : pystr :=
  match s with
  | [] => []
  | c :: r => ascii_upper_char c :: map ascii_lower_char r
  end.

(** A process with the given environment, providers and model reply, at a
    fixed instant. *)
Definition world_with (vars : list (pystr * pystr))
    (providers : pystr -> HttpOutcome) (reply : GenOutcome) : World :=
  {| getenv := env_of vars;
     http := fun url _ _ => providers url;
     gemini := fun _ _ => reply;
     utcnow_iso := u8 "2024-06-01T10:00:00";
     clock_difference :=
       fun _ => Ok (u8 "+2.0 h", u8 "Destino 12:00 · tu zona 10:00 (UTC)");
     image_ok := fun _ => true;
     py_upper := ascii_upper;
     py_capitalize := ascii_capitalize;
     py_repr := fun _ => u8 "..." |}.

(** Only the model credential is configured; every provider is down. *)
Definition offline_world (reply : GenOutcome) : World :=
  world_with [(u8 "GEMINI_API_KEY", u8 "key")] (fun _ => HttpError) reply.

(** A provider that answers one URL with a payload. *)
Definition provider_at (url : pystr) (body : pyval) (u : pystr) : HttpOutcome :=
  if pystr_eqb u url then HttpJson body else HttpError.

(** Providers that answer the listed URLs with the listed payloads. *)
Fixpoint providers_of (answers : list (pystr * pyval)) (u : pystr)
  : HttpOutcome :=
  match answers with
  | [] => HttpError
  | (url, body) :: rest =>
      if pystr_eqb u url then HttpJson body else providers_of rest u
  end.



(** A search result whose regular-size image is at [url]. *)
Definition photo_item (url : string) : pyval :=
  PyDict [(u8 "urls", PyDict [(u8 "regular", PyStr (u8 url))])].

(** A provider that answers the photo search with four results. *)
Definition four_photos_world : World :=
  world_with [(u8 "UNSPLASH_ACCESS_KEY", u8 "key")]
    (provider_at PHOTOS_URL
       (PyDict [(u8 "results",
                 PyList [photo_item "https://img/1"; photo_item "https://img/2";
                         photo_item "https://img/3"; photo_item "https://img/4"])]))
    (GenText None).


(** Every provider answers 200 with JSON of an unexpected shape:
    [{"weather": []}], [{"results": null}], [{"currencies": {"EUR": {}}}]
    (an object where a list is expected) and [{"rates": {"EUR": "0.92"}}]. *)
Definition malformed_world : World :=
  world_with
    [(u8 "OPENWEATHER_API_KEY", u8 "key"); (u8 "UNSPLASH_ACCESS_KEY", u8 "key")]
    (providers_of
       [(WEATHER_URL, PyDict [(u8 "weather", PyList [])]);
        (PHOTOS_URL, PyDict [(u8 "results", PyNone)]);
        (COUNTRIES_URL ++ u8 "FR",
         PyDict [(u8 "currencies", PyDict [(u8 "EUR", PyDict [])])]);
        (RATES_URL ++ u8 "USD",
         PyDict [(u8 "rates", PyDict [(u8 "EUR", PyStr (u8 "0.92"))])])])
    (GenText None).

(** The questions ["1"], ["2"], ... of one session, each answered. *)
Definition numbered_turns (n : nat) : list turn :=
  map (fun i =>
         (offline_world (GenText (Some (u8 "Hola"))),
          {| PlanRequest.pregunta := digits (N.of_nat i);
             PlanRequest.session_id := Some (u8 "s1") |}))
    (seq 1 n).

(** The request of the specification's scenario. *)
Definition paris_request : PlanRequest.t :=
  {| PlanRequest.pregunta :=
       u8 "Quiero viajar a Destino deseado: Paris | Fechas aproximadas: en junio";
     PlanRequest.session_id := Some (u8 "s1") |}.

(** A follow-up question without the destination marker. *)
Definition followup_request : PlanRequest.t :=
  {| PlanRequest.pregunta := u8 "Y que puedo comer alli?";
     PlanRequest.session_id := Some (u8 "s1") |}.

(** An answer of fifty words of sixty letters. *)
Definition long_answer : pystr :=
  str_join (u8 " ") (repeat (repeat 97%N 60) 50).

(** The store after one chat turn answered with [long_answer]. *)
Definition long_answer_store : Store :=
  plan_step empty_store (offline_world (GenText (Some long_answer)), paris_request).

(** The pages of the itinerary of that session. *)
Definition long_answer_pages : list (list DrawOp) :=
  pages_of (result (download_itinerary (offline_world (GenText None))
                      long_answer_store (u8 "s1"))).

(** * Vocabulary for the further properties *)

(** ** Requests to the service *)

(** A request that can change the stores: a chat turn in its world, or a
    favorite to save. *)
Inductive Request : Type :=
| PlanReq (w : World) (payload : PlanRequest.t)
| FavReq (payload : FavoriteRequest.t).

(** The stores after a request; a request that fails leaves them as they
    were. *)
Definition api_step (st : Store) (r : Request) : Store :=
  match r with
  | PlanReq w payload => plan_step st (w, payload)
  | FavReq payload =>
      match save_favorite st payload with
      | Ok (_, st') => st'
      | Raise _ => st
      end
  end.

(** The stores after a sequence of requests to a fresh process. *)
Definition run_requests (rs : list Request) : Store :=
  fold_left api_step rs empty_store.

(** ** Provider requests *)

(** The query of the weather request for a place. *)
Definition weather_params (d key : pystr) : list (pystr * pystr) :=
  [(u8 "q", d); (u8 "appid", key); (u8 "units", u8 "metric");
   (u8 "lang", u8 "es")].

(** ** The weather section *)

(** A float as a whole number: a finite one rounded to the nearest integer;
    zero, the infinities and NaN have their own texts. *)
Definition whole_text (f : spec_float) : pystr :=
  match f with
  | S754_finite s m e => (if s then u8 "-" else []) ++ digits (scaled_round m e 0)
  | S754_zero s => (if s then u8 "-" else []) ++ u8 "0"
  | S754_infinity s => (if s then u8 "-" else []) ++ u8 "inf"
  | S754_nan => u8 "nan"
  end.

(** A number of the weather data as a whole number: none when it is absent,
    an error when it is no number. *)
Definition whole_reading (v : pyval) : Res (option pystr) :=
  if is_none v then Ok None
  else
    match rate_value v with
    | Ok f => Ok (Some (whole_text f))
    | Raise e => Raise e
    end.

(** The parts of the description: the summary, the felt temperature and the
    humidity, each when there is one. *)
Definition weather_parts (w : World) (wd : WeatherData) (feels : option pystr)
  : list pystr :=
  (if str_truthy (summary wd) then [summary wd] else [])
    ++ match feels with
       | Some t => [u8 "Sensación " ++ t ++ u8 " °C"]
       | None => []
       end
    ++ (if is_none (humidity wd) then []
        else [u8 "Humedad " ++ py_str w (humidity wd) ++ u8 "%"]).

(** The weather section for the readings of the temperature and of the felt
    temperature: the value is the temperature, else the summary, else a
    placeholder; the description joins the parts there are. *)
Definition weather_panel (w : World) (wd : WeatherData)
    (temp feels : option pystr) : PanelSection.t :=
  {| PanelSection.label := u8 "Temperatura actual";
     PanelSection.value :=
       match temp with
       | Some t => t ++ u8 " °C"
       | None => if str_truthy (summary wd) then summary wd else u8 "N/D"
       end;
     PanelSection.description :=
       match weather_parts w wd feels with
       | [] => None
       | _ => Some (str_join (u8 ". ") (weather_parts w wd feels))
       end |}.

(** An outbound call that is an HTTP request. *)
Definition is_get (c : Call) : bool :=
  match c with HttpGet _ _ _ => true | _ => false end.

(** The fixed first part of what the language model receives. *)
Definition INTRO : pystr := u8 "Actúa como planificador experto en viajes.".

(** ** Lines *)

(** What [wrap_text] returns for a final state of its loop. *)
Definition wrap_finish (text : pystr) (st : list pystr * list pystr * Z)
  : list pystr :=
  let '(lines, current, _) := st in
  let lines :=
    match current with
    | [] => lines
    | _ => lines ++ [str_join (u8 " ") current]
    end in
  match lines with
  | [] => [text]
  | _ => lines
  end.

(** The separator counted before a word that joins a line. *)
Definition gap (line : pystr) : Z :=
  match line with [] => 0 | _ => 1 end.

(** Consecutive lines are filled greedily: the first word of the next line
    did not fit at the end of the line before it. *)
Fixpoint greedy (width : Z) (lines : list pystr) : Prop :=
  match lines with
  | line :: ((next :: _) as rest) =>
      (exists word others,
          str_split_ws next = word :: others /\
          width < Z.of_nat (length line) + Z.of_nat (length word) + gap line)
      /\ greedy width rest
  | _ => True
  end.

(** ** Documents *)

(** The text lines one history entry contributes, in order. *)
Definition entry_lines (entry : HistoryEntry.t) : list pystr :=
  (u8 "• Pregunta: " ++ HistoryEntry.pregunta entry)
    :: (if opt_truthy (HistoryEntry.respuesta entry)
        then map (fun line => u8 "  " ++ line)
               (wrap_text (opt_str (HistoryEntry.respuesta entry)) 90)
        else [])
    ++ [[]].

(** The text of all pages, in reading order. *)
Definition text_of_doc (ps : list (list DrawOp)) : list pystr :=
  map snd (flat_map text_of_page ps).

(** The images of a page. *)
Definition images_of_page (p : list DrawOp) : list pyval :=
  flat_map (fun op => match op with DrawImage u _ _ _ _ => [u] | _ => [] end) p.

(** The image downloads of a call log. *)
Definition fetches (log : list Call) : list pyval :=
  flat_map (fun c => match c with FetchImage u => [u] | _ => [] end) log.

(** The HTTP requests of a call log, by URL. *)
Definition gets (log : list Call) : list pystr :=
  flat_map (fun c => match c with HttpGet u _ _ => [u] | _ => [] end) log.

(** The destination an itinerary is made for: the one of the latest entry,
    else the one written in its question, else a placeholder. *)
Definition itinerary_destino (latest : HistoryEntry.t) : pystr :=
  if opt_truthy (HistoryEntry.destino latest)
  then opt_str (HistoryEntry.destino latest)
  else
    match extract_destino (HistoryEntry.pregunta latest) with
    | Ok d => or_default d (u8 "Destino no especificado")
    | Raise _ => u8 "Destino no especificado"
    end.

(** The dates an itinerary shows. *)
Definition itinerary_fechas (latest : HistoryEntry.t) : pystr :=
  match extract_field (HistoryEntry.pregunta latest)
          (u8 "Fechas aproximadas") with
  | Ok f => or_default f (u8 "Fechas no definidas")
  | Raise _ => u8 "Fechas no definidas"
  end.

(** What follows the header on the first page, before the conversation. *)
Definition title_ops (dest fechas : pystr) : list DrawOp :=
  [ SetFont (u8 "Helvetica-Bold") 14%Q;
    DrawString 40%Q (page_height - 120)%Q (u8 "Destino: " ++ dest);
    DrawString 40%Q (page_height - 120 - 20)%Q (u8 "Fechas: " ++ fechas);
    SetFont (u8 "Helvetica-Bold") 13%Q;
    DrawString 40%Q (page_height - 120 - 20 - 30)%Q
      (u8 "Resumen de la conversación") ].

(** What follows the header on a page the conversation continues on. *)
Definition continued_ops : list DrawOp :=
  [ SetFont (u8 "Helvetica-Bold") 13%Q;
    DrawString 40%Q (page_height - 120)%Q
      (u8 "Resumen de la conversación (cont.)") ].

(** What follows the header on the gallery page, before the images. *)
Definition gallery_ops : list DrawOp :=
  [ SetFont (u8 "Helvetica-Bold") 13%Q;
    DrawString 40%Q (page_height - 120)%Q (u8 "Inspiración visual") ].

(** The images the gallery loop draws. *)
Fixpoint photo_ops (w : World) (urls : list pyval) (xs : list Q) (y : Q)
  : list DrawOp :=
  match urls, xs with
  | url :: urls', x :: xs' =>
      (if image_ok w url then [DrawImage url x y 180%Q 160%Q] else [])
        ++ photo_ops w urls' xs' y
  | _, _ => []
  end.

(** The horizontal positions of the three images. *)
Definition x_positions : list Q :=
  [40%Q; (page_width / 2 - 90)%Q; (page_width - 220)%Q].

(** The gallery page for the photos of a search; none without photos. *)
Definition gallery (w : World) (photos : list pyval) : list (list DrawOp) :=
  match photos with
  | [] => []
  | _ => [header_ops ++ gallery_ops
            ++ photo_ops w (take 3 photos) x_positions (page_height - 320)%Q]
  end.

(** The image downloads for the photos of a search. *)
Definition gallery_calls (photos : list pyval) : list Call :=
  map FetchImage (take 3 photos).

(** The canvas and the text object the loop over the history starts with. *)
Definition flow_start (dest fechas : pystr) : Canvas * TextObject :=
  ({| pages := []; page := header_ops ++ title_ops dest fechas |},
   beginText 40%Q (page_height - 120 - 20 - 30 - 16)%Q 11%Q).

(** All pages of a canvas, the one in progress included. *)
Definition all_pages (pdf : Canvas) : list (list DrawOp) :=
  pages pdf ++ [page pdf].

(** The text lines a loop state holds: drawn ones, then pending ones. *)
Definition flow_text (st : Canvas * TextObject) : list pystr :=
  text_of_doc (all_pages (fst st)) ++ map snd (text_lines (snd st)).

(** ** Stores *)

(** Every stored history is non-empty and bounded, and every entry in it has
    an answer with at least one word. *)
Definition histories_ok (st : Store) : Prop :=
  forall sid h,
    conversation_store st !! sid = Some h ->
    h <> [] /\ (length h <= 10)%nat /\
    Forall (fun e => exists a, HistoryEntry.respuesta e = Some a /\
                               str_split_ws a <> []) h.

(** Every stored favorites list is free of duplicates, of empty names and of
    names with surrounding whitespace, and is stored under a trimmed,
    non-empty session id. *)
Definition favorites_ok (st : Store) : Prop :=
  forall sid l,
    favorites_store st !! sid = Some l ->
    NoDup l /\ str_strip sid = sid /\ sid <> [] /\
    Forall (fun d => d <> [] /\ str_strip d = d) l.

(** * Properties of the string primitives *)

Lemma starts_with_spec (p s : pystr) :
  starts_with p s = true <-> exists r, s = p ++ r.
Proof.
  revert s. induction p as [|a p IH]; intros s; simpl.
  - split; [intros _; exists s; reflexivity | reflexivity].
  - destruct s as [|b s].
    + split; [discriminate | intros [r Hr]; discriminate].
    + rewrite andb_true_iff, N.eqb_eq, IH. split.
      * intros [-> [r ->]]. exists r. reflexivity.
      * intros [r Hr]. injection Hr as -> ->. split; [reflexivity | eauto].
Qed.

Lemma str_contains_spec (sub s : pystr) :
  str_contains sub s = true <-> occurs sub s.
Proof.
  induction s as [|c s IH].
  - simpl. rewrite orb_false_r, starts_with_spec. split.
    + intros [r Hr]. exists [], r. exact Hr.
    + intros [a [b Hab]]. destruct a; [exists b; exact Hab | discriminate].
  - cbn [str_contains]. rewrite orb_true_iff, IH, starts_with_spec. split.
    + intros [[r Hr] | [a [b Hab]]].
      * exists [], r. exact Hr.
      * exists (c :: a), b. rewrite Hab. reflexivity.
    + intros [a [b Hab]]. destruct a as [|x a].
      * left. exists b. exact Hab.
      * right. injection Hab as -> Hs. exists a, b. exact Hs.
Qed.

Lemma partition_first_sound (sep s a b : pystr) :
  partition_first sep s = Some (a, b) ->
  s = a ++ sep ++ b /\
  forall a' b', s = a' ++ sep ++ b' -> (length a <= length a')%nat.
Proof.
  revert a b. induction s as [|c s IH]; intros a b.
  - cbn [partition_first]. destruct (starts_with sep []) eqn:E.
    + intros [= <- <-]. apply starts_with_spec in E as [r Hr].
      destruct sep; [|discriminate]. split; [reflexivity | simpl; lia].
    + discriminate.
  - cbn [partition_first]. destruct (starts_with sep (c :: s)) eqn:E.
    + intros [= <- <-]. apply starts_with_spec in E as [r Hr].
      split; [|simpl; lia].
      rewrite Hr at 1. simpl. f_equal. rewrite Hr.
      rewrite drop_app_length. reflexivity.
    + destruct (partition_first sep s) as [[a0 b0]|] eqn:P; [|discriminate].
      intros [= <- <-]. destruct (IH a0 b0 eq_refl) as [Hs Hmin].
      split; [rewrite Hs at 1; reflexivity|].
      intros a' b' H'. destruct a' as [|x a'].
      * exfalso. assert (starts_with sep (c :: s) = true) as E'
          by (apply starts_with_spec; exists b'; exact H').
        congruence.
      * injection H' as _ H'. simpl. specialize (Hmin a' b' H'). lia.
Qed.

Lemma partition_first_complete (sep s : pystr) :
  occurs sep s -> exists a b, partition_first sep s = Some (a, b).
Proof.
  induction s as [|c s IH]; intros [a [b Hab]].
  - cbn [partition_first].
    assert (starts_with sep [] = true) as ->; [|eauto].
    apply starts_with_spec. destruct a; [exists b; exact Hab | discriminate].
  - cbn [partition_first]. destruct (starts_with sep (c :: s)) eqn:E; [eauto|].
    destruct a as [|x a].
    + assert (starts_with sep (c :: s) = true)
        by (apply starts_with_spec; exists b; exact Hab).
      congruence.
    + injection Hab as _ Hs. destruct IH as [a0 [b0 ->]]; [exists a, b; exact Hs|].
      eauto.
Qed.

(** The leftmost occurrence is unique. *)
Lemma leftmost_unique (sep s a b a' b' : pystr) :
  s = a ++ sep ++ b -> s = a' ++ sep ++ b' ->
  length a = length a' -> a = a' /\ b = b'.
Proof.
  intros H1 H2 Hl. rewrite H1 in H2.
  apply app_inj_1 in H2 as [Ha Hb]; [|exact Hl].
  apply app_inv_head in Hb. auto.
Qed.

Lemma lstrip_by_spec (p : N -> bool) (s : pystr) :
  exists l, s = l ++ lstrip_by p s /\ forallb p l = true /\
            forall c m, lstrip_by p s = c :: m -> p c = false.
Proof.
  induction s as [|c s [l [Hs [Hl Hh]]]].
  - exists []. simpl. repeat split. discriminate.
  - simpl. destruct (p c) eqn:Pc.
    + exists (c :: l). simpl. rewrite Pc, Hl. repeat split; [congruence | exact Hh].
    + exists []. simpl. repeat split. intros c' m [= <- _]. exact Pc.
Qed.

Lemma lstrip_by_all (p : N -> bool) (x y : pystr) :
  forallb p x = true -> lstrip_by p (x ++ y) = lstrip_by p y.
Proof.
  induction x as [|c x IH]; simpl; [reflexivity|].
  intros H. apply andb_true_iff in H as [-> H]. auto.
Qed.

Lemma forallb_rev (p : N -> bool) (x : pystr) :
  forallb p x = true -> forallb p (rev x) = true.
Proof.
  rewrite !forallb_forall. intros H c Hc. apply H, in_rev. exact Hc.
Qed.

Lemma rev_cons_inv (c : N) (m : pystr) :
  exists d t, rev (c :: m) = d :: t.
Proof.
  destruct (rev (c :: m)) as [|d t] eqn:E; [|eauto].
  apply (f_equal (@rev _)) in E. rewrite rev_involutive in E. discriminate.
Qed.

Lemma strip_by_trimmed (p : N -> bool) (s : pystr) :
  trimmed p s (strip_by p s).
Proof.
  unfold strip_by, rstrip_by.
  destruct (lstrip_by_spec p s) as [l [Hs [Hl Hh]]].
  destruct (lstrip_by_spec p (rev (lstrip_by p s))) as [r [Hr [Hpr Ht]]].
  set (m := rev (lstrip_by p (rev (lstrip_by p s)))) in *.
  assert (lstrip_by p s = m ++ rev r) as Hm.
  { rewrite <- (rev_involutive (lstrip_by p s)), Hr, rev_app_distr. reflexivity. }
  exists l, (rev r). repeat split.
  - rewrite <- Hm. exact Hs.
  - exact Hl.
  - apply forallb_rev, Hpr.
  - unfold clean_ends. destruct m as [|c m'] eqn:Em; [reflexivity|].
    destruct (rev_cons_inv c m') as [d [t Ed]]. rewrite Ed.
    rewrite (Hh c (m' ++ rev r)) by (rewrite Hm; reflexivity).
    rewrite (Ht d t); [reflexivity|].
    rewrite <- Ed, <- Em. unfold m. rewrite rev_involutive. reflexivity.
Qed.

(** What is left after trimming is determined by the text. *)
Lemma trimmed_unique (p : N -> bool) (s m : pystr) :
  trimmed p s m -> m = strip_by p s.
Proof.
  intros (l & r & -> & Hl & Hr & Hc).
  unfold strip_by, rstrip_by. rewrite lstrip_by_all by exact Hl.
  destruct m as [|c m]; simpl.
  - rewrite <- (app_nil_r r), lstrip_by_all by exact Hr. reflexivity.
  - unfold clean_ends in Hc. destruct (rev_cons_inv c m) as [d [t Ed]].
    rewrite Ed in Hc. apply andb_true_iff in Hc as [Hc Hd].
    apply negb_true_iff in Hc, Hd. rewrite Hc.
    change (c :: m ++ r) with ((c :: m) ++ r).
    rewrite rev_app_distr, lstrip_by_all by (apply forallb_rev, Hr).
    rewrite Ed. simpl. rewrite Hd, <- Ed, rev_involutive. reflexivity.
Qed.

Lemma partition_first_none (sep s : pystr) :
  partition_first sep s = None -> ~ occurs sep s.
Proof.
  intros H Hocc. destruct (partition_first_complete sep s Hocc) as [a [b E]].
  congruence.
Qed.

(** Before the first ["|"] there is no ["|"]: the cell is what precedes it. *)
Lemma partition_first_cell (c : N) (cell rest : pystr) :
  ~ In c cell ->
  partition_first [c] (cell ++ [c] ++ rest) = Some (cell, rest).
Proof.
  intros Hn. induction cell as [|x cell IH].
  - simpl. rewrite N.eqb_refl. reflexivity.
  - cbn [partition_first app starts_with].
    destruct (N.eqb_spec c x) as [->|Hne]; [exfalso; apply Hn; left; reflexivity|].
    simpl. cbn [app] in IH. rewrite IH; [reflexivity|].
    intros Hin. apply Hn. right. exact Hin.
Qed.

Lemma partition_first_absent (c : N) (s : pystr) :
  ~ In c s -> partition_first [c] s = None.
Proof.
  intros Hn. destruct (partition_first [c] s) as [[a b]|] eqn:E; [|reflexivity].
  apply partition_first_sound in E as [-> _]. exfalso. apply Hn.
  apply in_or_app. right. left. reflexivity.
Qed.

Lemma DOT_eq : DOT = [46%N].
Proof. reflexivity. Qed.

Lemma PIPE_eq : PIPE = [124%N].
Proof. reflexivity. Qed.

Lemma mem_char_dot (c : N) : mem_char DOT c = is_dot c.
Proof. unfold mem_char, is_dot. rewrite DOT_eq. simpl. apply orb_false_r. Qed.

Lemma lstrip_by_ext (p q : N -> bool) (s : pystr) :
  (forall c, p c = q c) -> lstrip_by p s = lstrip_by q s.
Proof.
  intros H. induction s as [|c s IH]; simpl; [reflexivity|].
  rewrite H, IH. reflexivity.
Qed.

Lemma strip_by_ext (p q : N -> bool) (s : pystr) :
  (forall c, p c = q c) -> strip_by p s = strip_by q s.
Proof.
  intros H. unfold strip_by, rstrip_by.
  rewrite (lstrip_by_ext p q s H), (lstrip_by_ext p q _ H). reflexivity.
Qed.

Lemma lstrip_by_only (p : N -> bool) (s : pystr) :
  forallb p s = true -> lstrip_by p s = [].
Proof.
  intros H. rewrite <- (app_nil_r s). rewrite lstrip_by_all by exact H.
  reflexivity.
Qed.

Lemma strip_by_only (p : N -> bool) (s : pystr) :
  forallb p s = true -> strip_by p s = [].
Proof.
  intros H. unfold strip_by, rstrip_by. rewrite (lstrip_by_only p s H).
  reflexivity.
Qed.

(** What [strip()] leaves starts with a character that is not whitespace. *)
Lemma str_strip_head (s : pystr) (c : N) (r : pystr) :
  str_strip s = c :: r -> is_space c = false.
Proof.
  intros H. destruct (strip_by_trimmed is_space s) as (l & t & _ & _ & _ & Hc).
  fold (str_strip s) in Hc. rewrite H in Hc. unfold clean_ends in Hc.
  destruct (rev_cons_inv c r) as [d [t' E]]. rewrite E in Hc.
  apply andb_true_iff in Hc as [Hc _]. apply negb_true_iff in Hc. exact Hc.
Qed.

Lemma extract_field_no_marker (text label : pystr) :
  ~ occurs (label ++ COLON) text -> extract_field text label = Ok None.
Proof.
  intros H. unfold extract_field.
  destruct (str_contains (label ++ COLON) text) eqn:C; [|reflexivity].
  apply str_contains_spec in C. contradiction.
Qed.

(** * Words and lines *)

Lemma split_ws_go_word (w cur s : pystr) :
  forallb (fun c => negb (is_space c)) w = true ->
  split_ws_go cur (w ++ s) = split_ws_go (cur ++ w) s.
Proof.
  revert cur. induction w as [|c w IH]; intros cur H; simpl.
  - rewrite app_nil_r. reflexivity.
  - simpl in H. apply andb_true_iff in H as [Hc H].
    apply negb_true_iff in Hc. rewrite Hc, IH by exact H.
    rewrite <- app_assoc. reflexivity.
Qed.

Lemma split_ws_go_space (c : N) (cur s : pystr) :
  is_space c = true -> cur <> [] ->
  split_ws_go cur (c :: s) = cur :: split_ws_go [] s.
Proof.
  intros Hc Hn. simpl. rewrite Hc. destruct cur; [contradiction | reflexivity].
Qed.

Lemma is_word_inv (w : pystr) :
  is_word w = true ->
  w <> [] /\ forallb (fun c => negb (is_space c)) w = true.
Proof.
  unfold is_word. intros H. apply andb_true_iff in H as [Hn H].
  split; [destruct w; [discriminate | discriminate] | exact H].
Qed.

Lemma split_ws_join (ws : list pystr) :
  forallb is_word ws = true ->
  str_split_ws (str_join [32%N] ws) = ws.
Proof.
  unfold str_split_ws. induction ws as [|w ws IH]; intros H; [reflexivity|].
  simpl in H. apply andb_true_iff in H as [Hw H].
  apply is_word_inv in Hw as [Hne Hw].
  destruct ws as [|w' ws].
  - simpl. rewrite <- (app_nil_r w) at 1. rewrite split_ws_go_word by exact Hw.
    simpl. destruct w; [contradiction | reflexivity].
  - change (str_join [32%N] (w :: w' :: ws))
      with (w ++ [32%N] ++ str_join [32%N] (w' :: ws)).
    rewrite split_ws_go_word by exact Hw. simpl app.
    rewrite split_ws_go_space; [|reflexivity|exact Hne].
    f_equal. apply IH. exact H.
Qed.

Lemma split_ws_go_words (s cur : pystr) :
  forallb (fun c => negb (is_space c)) cur = true ->
  forallb is_word (split_ws_go cur s) = true.
Proof.
  revert cur. induction s as [|c s IH]; intros cur H; simpl.
  - destruct cur as [|x cur]; [reflexivity|]. simpl.
    unfold is_word. simpl str_truthy. rewrite H. reflexivity.
  - destruct (is_space c) eqn:Hc.
    + destruct cur as [|x cur]; [apply IH; reflexivity|].
      simpl. rewrite IH by reflexivity. unfold is_word.
      simpl str_truthy. rewrite H. reflexivity.
    + apply IH. rewrite forallb_app, H. simpl. rewrite Hc. reflexivity.
Qed.

Lemma split_ws_words (s : pystr) :
  forallb is_word (str_split_ws s) = true.
Proof. apply split_ws_go_words. reflexivity. Qed.

Lemma str_join_snoc (sep : pystr) (cur : list pystr) (w : pystr) :
  cur <> [] -> str_join sep (cur ++ [w]) = str_join sep cur ++ sep ++ w.
Proof.
  induction cur as [|a cur IH]; intros Hn; [contradiction|].
  destruct cur as [|b cur]; [reflexivity|].
  change (str_join sep ((a :: b :: cur) ++ [w]))
    with (a ++ sep ++ str_join sep ((b :: cur) ++ [w])).
  rewrite IH by discriminate.
  change (str_join sep (a :: b :: cur)) with (a ++ sep ++ str_join sep (b :: cur)).
  rewrite <- !app_assoc. reflexivity.
Qed.

Lemma SPACE_eq : u8 " " = [32%N].
Proof. reflexivity. Qed.

Lemma wrap_step_inv (width : Z) (done : list pystr) st (word : pystr) :
  is_word word = true ->
  wrap_inv done st -> wrap_inv (done ++ [word]) (wrap_step width st word).
Proof.
  intros Hw [Hws Hcur Hlen]. destruct st as [[lines current] current_len].
  simpl in *. unfold wrap_step. rewrite SPACE_eq.
  destruct (width <? _).
  - constructor; simpl.
    + rewrite map_app, concat_app. simpl. rewrite split_ws_join by exact Hcur.
      rewrite app_nil_r, <- Hws, <- app_assoc. reflexivity.
    + rewrite Hw. reflexivity.
    + reflexivity.
  - constructor; simpl.
    + rewrite <- Hws, <- app_assoc. reflexivity.
    + rewrite forallb_app, Hcur. simpl. rewrite Hw. reflexivity.
    + destruct current as [|a current].
      * subst current_len. simpl. lia.
      * rewrite str_join_snoc by discriminate.
        assert ((current_len =? 0) = false) as ->.
        { apply Z.eqb_neq. subst current_len. simpl in Hcur.
          apply andb_true_iff in Hcur as [Ha _].
          apply is_word_inv in Ha as [Ha _].
          destruct a; [contradiction|].
          destruct current; simpl; lia. }
        subst current_len. rewrite !length_app. simpl. lia.
Qed.

Lemma wrap_fold_inv (width : Z) (words done : list pystr) st :
  forallb is_word words = true ->
  wrap_inv done st ->
  wrap_inv (done ++ words) (fold_left (wrap_step width) words st).
Proof.
  revert done st. induction words as [|w words IH]; intros done st H Hinv.
  - rewrite app_nil_r. exact Hinv.
  - simpl in H. apply andb_true_iff in H as [Hw H]. simpl.
    replace (done ++ w :: words) with ((done ++ [w]) ++ words)
      by (rewrite <- app_assoc; reflexivity).
    apply IH; [exact H|]. apply wrap_step_inv; assumption.
Qed.

(** The words of the output lines, read in order, are the words of the
    text. *)
Lemma wrap_text_keeps_words (text : pystr) (width : Z) :
  concat (map str_split_ws (wrap_text text width)) = str_split_ws text.
Proof.
  unfold wrap_text.
  pose proof (wrap_fold_inv width (str_split_ws text) [] ([], [], 0)
                (split_ws_words text)) as H.
  destruct (fold_left _ _ _) as [[lines current] n].
  destruct H as [Hws Hcur _]; [constructor; reflexivity|]. simpl in *.
  rewrite SPACE_eq.
  destruct current as [|c current].
  - rewrite app_nil_r in Hws. destruct lines as [|l lines].
    + simpl. rewrite app_nil_r. reflexivity.
    + exact Hws.
  - destruct (lines ++ [str_join [32%N] (c :: current)]) as [|l0 ls] eqn:E.
    + destruct lines; discriminate.
    + rewrite <- E, map_app, concat_app. cbn [map concat].
      rewrite split_ws_join by exact Hcur. rewrite app_nil_r. exact Hws.
Qed.

Lemma wrap_step_fits (width : Z) (done : list pystr) st (word : pystr) :
  Z.of_nat (length word) <= width ->
  wrap_inv done st -> fits width st -> fits width (wrap_step width st word).
Proof.
  intros Hw [_ _ Hlen] [Hc Hl]. destruct st as [[lines current] current_len].
  simpl in *. unfold wrap_step. rewrite SPACE_eq.
  destruct (Z.ltb_spec width
              (current_len + Z.of_nat (length word)
               + match current with [] => 0 | _ => 1 end)) as [Hlt|Hge].
  - split; simpl; [exact Hw|].
    intros line Hin. apply in_app_or in Hin as [Hin | [<- | []]]; [auto|].
    rewrite <- Hlen. exact Hc.
  - split; simpl; [|exact Hl].
    destruct current as [|a current].
    + subst current_len. simpl. lia.
    + destruct (current_len =? 0); lia.
Qed.

Lemma wrap_fold_fits (width : Z) (words done : list pystr) st :
  forallb is_word words = true ->
  (forall word, In word words -> Z.of_nat (length word) <= width) ->
  wrap_inv done st -> fits width st ->
  fits width (fold_left (wrap_step width) words st).
Proof.
  revert done st. induction words as [|w words IH]; intros done st H Hw Hinv Hf.
  - exact Hf.
  - simpl in H. apply andb_true_iff in H as [Hw1 H]. simpl.
    apply (IH (done ++ [w])).
    + exact H.
    + intros word Hin. apply Hw. right. exact Hin.
    + apply wrap_step_inv; assumption.
    + apply (wrap_step_fits width done); [apply Hw; left; reflexivity | |]; assumption.
Qed.

(** A text with at least one word, all words at most [width] long, is
    wrapped into lines at most [width] long. *)
Lemma wrap_text_width (text : pystr) (width : Z) :
  0 <= width ->
  str_split_ws text <> [] ->
  (forall word, In word (str_split_ws text) -> Z.of_nat (length word) <= width) ->
  forall line, In line (wrap_text text width) -> Z.of_nat (length line) <= width.
Proof.
  intros H0 Hne Hw. unfold wrap_text.
  pose proof (wrap_fold_inv width (str_split_ws text) [] ([], [], 0)
                (split_ws_words text)) as Hinv.
  pose proof (wrap_fold_fits width (str_split_ws text) [] ([], [], 0)
                (split_ws_words text) Hw) as Hfit.
  destruct (fold_left _ _ _) as [[lines current] n].
  destruct Hinv as [Hws Hcur Hlen]; [constructor; reflexivity|].
  destruct Hfit as [Hn Hl];
    [constructor; reflexivity | split; [exact H0 | intros ? []] |].
  simpl in *. rewrite SPACE_eq.
  destruct current as [|c current].
  - destruct lines as [|l lines].
    + exfalso. apply Hne. rewrite <- Hws. reflexivity.
    + exact Hl.
  - destruct (lines ++ [str_join [32%N] (c :: current)]) as [|l0 ls] eqn:E.
    + destruct lines; discriminate.
    + rewrite <- E. intros line Hin.
      apply in_app_or in Hin as [Hin | [<- | []]]; [auto|].
      rewrite <- Hlen. exact Hn.
Qed.

Lemma split_ws_go_nonempty (s cur : pystr) :
  cur <> [] -> split_ws_go cur s <> [].
Proof.
  revert cur. induction s as [|x s IH]; intros cur Hn; simpl.
  - destruct cur; [contradiction | discriminate].
  - destruct (is_space x).
    + destruct cur; [contradiction | discriminate].
    + apply IH. destruct cur; discriminate.
Qed.

(** A text that starts with a character that is not whitespace has a
    word. *)
Lemma split_ws_nonblank (c : N) (r : pystr) :
  is_space c = false -> str_split_ws (c :: r) <> [].
Proof.
  intros Hc. unfold str_split_ws. simpl. rewrite Hc.
  apply split_ws_go_nonempty. discriminate.
Qed.

(** * The call-logging monad *)

Lemma bind_ok {A B} (m : M A) (k : A -> M B) (l : list Call) (b : B) :
  bind m k = (l, Ok b) ->
  exists l1 a l2, m = (l1, Ok a) /\ k a = (l2, Ok b) /\ l = l1 ++ l2.
Proof.
  unfold bind. destruct m as [l1 [a|e]]; [|discriminate].
  destruct (k a) as [l2 r] eqn:E. intros [= <- ->].
  exists l1, a, l2. auto.
Qed.

Lemma lift_ok {A} (r : Res A) (l : list Call) (a : A) :
  lift r = (l, Ok a) -> r = Ok a /\ l = [].
Proof. unfold lift. intros [= <- ->]. auto. Qed.

Lemma ret_ok {A} (x a : A) (l : list Call) :
  ret x = (l, Ok a) -> x = a /\ l = [].
Proof. unfold ret. intros [= <- ->]. auto. Qed.

(** * The chat endpoint, step by step *)

Lemma plan_trip_inv (w : World) (st : Store) (payload : PlanRequest.t)
    (log : list Call) (resp : PlanResponse.t) (st' : Store) :
  plan_trip w st payload = (log, Ok (resp, st')) ->
  let session_id := session_key (PlanRequest.session_id payload) in
  let history_entries := store_get (conversation_store st) session_id in
  exists model extracted weather_data fotos currency_code currency_section
         time_section weather_section weather_text completion lw lp lc lx,
    let dest := chosen_destino extracted history_entries in
    let contents := contents_of payload history_entries weather_text in
    let updated :=
      last_n 10 (history_entries ++ [new_entry w payload dest completion]) in
    _get_gemini_model w = Ok model /\
    extract_destino (PlanRequest.pregunta payload) = Ok extracted /\
    get_weather_data w dest = (lw, Ok weather_data) /\
    get_destination_photos w dest = (lp, Ok fotos) /\
    get_currency_code w
      (match weather_data with Some wd => country wd | None => PyNone end)
      = (lc, Ok currency_code) /\
    get_exchange_rate w currency_code = (lx, Ok currency_section) /\
    get_time_difference_info w
      (match weather_data with Some wd => timezone_offset wd | None => PyNone end)
      = Ok time_section /\
    format_weather_section w weather_data = Ok weather_section /\
    weather_prompt w weather_data dest = Ok weather_text /\
    gemini w model contents = GenText completion /\
    log = lw ++ lp ++ lc ++ lx ++ [Generate model contents] /\
    resp = {| PlanResponse.respuesta := answer_of completion;
              PlanResponse.fotos := fotos;
              PlanResponse.panel :=
                Some {| PanelInfo.currency := currency_section;
                        PanelInfo.time := time_section;
                        PanelInfo.weather := weather_section |};
              PlanResponse.history := updated;
              PlanResponse.favorites :=
                store_get (favorites_store st) session_id |} /\
    st' = {| conversation_store :=
               <[session_id := updated]> (conversation_store st);
             favorites_store := favorites_store st |}.
Proof.
  intros H session_id history_entries. unfold plan_trip in H.
  fold session_id in H. fold history_entries in H.
  apply bind_ok in H as (l0 & model & l0' & Hm & H & ->).
  apply lift_ok in Hm as [Hm ->].
  apply bind_ok in H as (l1 & extracted & l1' & He & H & ->).
  apply lift_ok in He as [He ->].
  fold (chosen_destino extracted history_entries) in H.
  apply bind_ok in H as (lw & weather_data & l2' & Hw & H & ->).
  apply bind_ok in H as (lp & fotos & l3' & Hp & H & ->).
  apply bind_ok in H as (lc & currency_code & l4' & Hc & H & ->).
  apply bind_ok in H as (lx & currency_section & l5' & Hx & H & ->).
  apply bind_ok in H as (l6 & time_section & l6' & Ht & H & ->).
  apply lift_ok in Ht as [Ht ->].
  apply bind_ok in H as (l7 & weather_section & l7' & Hs & H & ->).
  apply lift_ok in Hs as [Hs ->].
  apply bind_ok in H as (l8 & weather_text & l8' & Hwt & H & ->).
  apply lift_ok in Hwt as [Hwt ->].
  apply bind_ok in H as (l9 & completion & l9' & Hg & H & ->).
  apply ret_ok in H as [H ->].
  fold (contents_of payload history_entries weather_text) in Hg.
  exists model, extracted, weather_data, fotos, currency_code, currency_section,
    time_section, weather_section, weather_text, completion, lw, lp, lc, lx.
  cbv zeta.
  destruct (gemini w model (contents_of payload history_entries weather_text))
    as [|text] eqn:G; [discriminate|].
  injection Hg as <- <-.
  injection H as <- <-.
  repeat (split; [assumption|]).
  split; [reflexivity|].
  split; [simpl; rewrite ?app_nil_r; reflexivity|].
  split; [|reflexivity].
  f_equal. unfold store_get, conversation_store at 1.
  rewrite lookup_insert_eq. reflexivity.
Qed.

(** Opens a successful chat turn into the steps of [plan_trip_inv]. *)
Ltac open_plan_trip H :=
  apply plan_trip_inv in H
    as (model & extracted & wd & fotos & cc & cs & ts & ws & wt & completion
        & lw & lp & lc & lx & H);
  cbv zeta in H.

Lemma FALLBACK_words : str_split_ws FALLBACK <> [].
Proof. vm_compute. discriminate. Qed.

(** The answer of a chat turn is never empty, and has a word. *)
Lemma answer_of_words (completion : option pystr) :
  answer_of completion <> [] /\ str_split_ws (answer_of completion) <> [].
Proof.
  unfold answer_of.
  destruct (str_strip match completion with Some t => t | None => [] end)
    as [|c r] eqn:E; simpl.
  - split; [vm_compute; discriminate | exact FALLBACK_words].
  - split; [discriminate|]. apply split_ws_nonblank.
    exact (str_strip_head _ _ _ E).
Qed.

Lemma plan_trip_answer (w : World) (st : Store) (payload : PlanRequest.t)
    (log : list Call) (resp : PlanResponse.t) (st' : Store) :
  plan_trip w st payload = (log, Ok (resp, st')) ->
  exists completion, PlanResponse.respuesta resp = answer_of completion.
Proof.
  intros H. open_plan_trip H.
  destruct H as (_ & _ & _ & _ & _ & _ & _ & _ & _ & _ & _ & -> & _).
  exists completion. reflexivity.
Qed.

(** * Running a chat turn forward *)

Lemma extract_field_total (text label : pystr) :
  exists r, extract_field text label = Ok r.
Proof.
  unfold extract_field. set (marker := label ++ COLON).
  destruct (str_contains marker text) eqn:C; cbn [negb]; [|eauto].
  apply str_contains_spec in C.
  destruct (partition_first_complete _ _ C) as [a [b P]].
  assert (str_split1 marker text = Ok [a; b]) as ->.
  { unfold str_split1. rewrite P. unfold marker. destruct label; reflexivity. }
  cbn [res_bind list_index lookup list_lookup].
  unfold str_split1. rewrite PIPE_eq.
  destruct (partition_first [124%N] b) as [[a2 b2]|];
    cbn [res_bind list_index lookup list_lookup]; eauto.
Qed.

Lemma bind_lift_ok {A B} (a : A) (k : A -> M B) : bind (lift (Ok a)) k = k a.
Proof. unfold bind, lift. destruct (k a). reflexivity. Qed.

Lemma bind_lift_raise {A B} (e : exn) (k : A -> M B) :
  bind (lift (Raise e)) k = ([], Raise e).
Proof. reflexivity. Qed.

Lemma bind_step {A B} (m : M A) (k : A -> M B) (l1 l2 : list Call) (a : A)
    (r : Res B) :
  m = (l1, Ok a) -> k a = (l2, r) -> bind m k = (l1 ++ l2, r).
Proof. intros -> H. unfold bind. rewrite H. reflexivity. Qed.

Lemma run_of {A} (m : M A) (a : A) :
  result m = Ok a -> m = (calls m, Ok a).
Proof. destruct m. simpl. intros ->. reflexivity. Qed.

Lemma bind_raise_eq {A B} (m : M A) (k : A -> M B) (l : list Call) (e : exn) :
  m = (l, Raise e) -> bind m k = (l, Raise e).
Proof. intros ->. reflexivity. Qed.

Lemma run_eta {A} (m : M A) : m = (calls m, result m).
Proof. destruct m. reflexivity. Qed.

(** * The bounded history *)

Lemma last_n_length {A} (n : nat) (l : list A) :
  (length (last_n n l) <= n)%nat.
Proof. unfold last_n. rewrite length_drop. lia. Qed.

Lemma last_n_short {A} (n : nat) (l : list A) :
  (length l <= n)%nat -> last_n n l = l.
Proof.
  intros H. unfold last_n. replace (length l - n)%nat with 0%nat by lia.
  reflexivity.
Qed.

(** Truncating before appending more does not change what survives. *)
Lemma last_n_app {A} (n : nat) (a b : list A) :
  last_n n (last_n n a ++ b) = last_n n (a ++ b).
Proof.
  destruct (Nat.le_gt_cases (length a) n) as [Hle|Hgt].
  - rewrite (last_n_short n a Hle). reflexivity.
  - unfold last_n. rewrite <- (drop_app_le a b) by lia.
    rewrite drop_drop. f_equal.
    rewrite length_drop, !length_app. lia.
Qed.

Lemma last_n_snoc_last {A} (n : nat) (l : list A) (x : A) :
  last (last_n (S n) (l ++ [x])) = Some x.
Proof.
  unfold last_n. rewrite length_app. simpl.
  rewrite drop_app_le by lia. apply last_snoc.
Qed.

Lemma appended_ok (w : World) (st : Store) (payload : PlanRequest.t)
    (log : list Call) (resp : PlanResponse.t) (st' : Store) :
  plan_trip w st payload = (log, Ok (resp, st')) ->
  let sid := session_key (PlanRequest.session_id payload) in
  exists entry,
    appended st (w, payload) = [entry] /\
    conversation_store st'
    = <[sid := last_n 10 (store_get (conversation_store st) sid ++ [entry])]>
        (conversation_store st).
Proof.
  intros H sid. unfold appended. simpl. rewrite H.
  open_plan_trip H.
  destruct H as (_ & _ & _ & _ & _ & _ & _ & _ & _ & _ & _ & -> & ->).
  cbn [PlanResponse.history conversation_store].
  rewrite (last_n_snoc_last 9). eauto.
Qed.

(** One turn, seen from one session. *)
Lemma plan_step_history (st : Store) (t : turn) (sid : pystr) :
  (length (store_get (conversation_store st) sid) <= 10)%nat ->
  store_get (conversation_store (plan_step st t)) sid
  = last_n 10
      (store_get (conversation_store st) sid
       ++ (if pystr_eqb (session_key (PlanRequest.session_id (snd t))) sid
           then appended st t else [])).
Proof.
  intros Hlen. destruct t as [w payload]. unfold plan_step. simpl.
  destruct (plan_trip w st payload) as [log [[resp st']|e]] eqn:E.
  - destruct (appended_ok _ _ _ _ _ _ E) as [entry [-> ->]].
    unfold pystr_eqb. case_bool_decide as Hs.
    + rewrite Hs. unfold store_get at 1. rewrite lookup_insert_eq.
      reflexivity.
    + unfold store_get at 1. rewrite lookup_insert_ne by exact Hs.
      rewrite app_nil_r. symmetry. apply last_n_short. exact Hlen.
  - assert (appended st (w, payload) = []) as ->
      by (unfold appended; simpl; rewrite E; reflexivity).
    destruct (pystr_eqb _ _); rewrite app_nil_r; symmetry;
      apply last_n_short; exact Hlen.
Qed.

Lemma run_history (turns : list turn) (st : Store) (sid : pystr) :
  (length (store_get (conversation_store st) sid) <= 10)%nat ->
  store_get (conversation_store (fold_left plan_step turns st)) sid
  = last_n 10 (store_get (conversation_store st) sid
               ++ appended_to sid st turns).
Proof.
  revert st. induction turns as [|t turns IH]; intros st Hlen; simpl.
  - rewrite app_nil_r. symmetry. apply last_n_short. exact Hlen.
  - rewrite IH.
    + rewrite plan_step_history by exact Hlen.
      rewrite last_n_app, <- app_assoc. reflexivity.
    + rewrite plan_step_history by exact Hlen. apply last_n_length.
Qed.

(** * The calls the adapters make *)

Lemma get_weather_data_calls (w : World) (destino : option pystr) :
  calls (get_weather_data w destino) = [] \/
  exists key d,
    destino = Some d /\ d <> [] /\
    calls (get_weather_data w destino)
    = [HttpGet WEATHER_URL
         [(u8 "q", d); (u8 "appid", key); (u8 "units", u8 "metric");
          (u8 "lang", u8 "es")] []].
Proof.
  unfold get_weather_data.
  destruct (env_key w (u8 "OPENWEATHER_API_KEY")) as [key|]; [|left; reflexivity].
  destruct destino as [[|c d]|]; [left; reflexivity | | left; reflexivity].
  right. exists key, (c :: d). split; [reflexivity|]. split; [discriminate|].
  unfold http_get, bind, calls.
  destruct (request_outcome w _ _ _); [reflexivity | | reflexivity].
  destruct (weather_of_json w (c :: d) body); reflexivity.
Qed.

Lemma get_destination_photos_calls (w : World) (destino : option pystr) :
  calls (get_destination_photos w destino) = [] \/
  exists key d,
    destino = Some d /\ d <> [] /\
    calls (get_destination_photos w destino)
    = [HttpGet PHOTOS_URL
         [(u8 "query", d); (u8 "per_page", u8 "3");
          (u8 "orientation", u8 "landscape")]
         [(u8 "Accept-Version", u8 "v1");
          (u8 "Authorization", u8 "Client-ID " ++ key)]].
Proof.
  unfold get_destination_photos.
  destruct (env_key w (u8 "UNSPLASH_ACCESS_KEY")) as [key|]; [|left; reflexivity].
  destruct destino as [[|c d]|]; [left; reflexivity | | left; reflexivity].
  right. exists key, (c :: d). split; [reflexivity|]. split; [discriminate|].
  unfold http_get, bind, calls.
  destruct (request_outcome w _ _ _); [reflexivity | | reflexivity].
  destruct (photos_of_json body); reflexivity.
Qed.

Lemma get_currency_code_calls (w : World) (country_code : pyval) :
  calls (get_currency_code w country_code) = [] \/
  calls (get_currency_code w country_code)
  = [HttpGet (COUNTRIES_URL ++ py_str w country_code)
       [(u8 "fields", u8 "currencies")] []].
Proof.
  unfold get_currency_code.
  destruct (truthy country_code); [|left; reflexivity].
  right. unfold http_get, bind, calls. cbn [negb].
  destruct (request_outcome w _ _ _); [reflexivity | | reflexivity].
  destruct (currency_of_json body); reflexivity.
Qed.

Lemma get_exchange_rate_calls (w : World) (target_currency : option pystr) :
  calls (get_exchange_rate w target_currency) = [] \/
  calls (get_exchange_rate w target_currency)
  = [HttpGet
       (RATES_URL
        ++ py_upper w (getenv_default w (u8 "HOME_CURRENCY") (u8 "USD")))
       [] []].
Proof.
  unfold get_exchange_rate.
  destruct target_currency as [[|c t]|]; [left; reflexivity | | left; reflexivity].
  destruct (pystr_eqb _ _); [left; reflexivity|].
  right. unfold http_get, bind, calls.
  destruct (request_outcome w _ _ _); [reflexivity | | reflexivity].
  destruct (rate_of_json _ _ body); reflexivity.
Qed.

(** The four providers live at different addresses. *)
Lemma url_prefix_differs (a b x : pystr) :
  take 10 a <> take 10 b -> (10 <= length a)%nat -> a ++ x <> b.
Proof.
  intros Hne Hlen E. apply Hne. rewrite <- E.
  rewrite take_app_le by exact Hlen. reflexivity.
Qed.

Lemma countries_not_weather (x : pystr) : COUNTRIES_URL ++ x <> WEATHER_URL.
Proof. apply url_prefix_differs; vm_compute; [discriminate | lia]. Qed.

Lemma countries_not_photos (x : pystr) : COUNTRIES_URL ++ x <> PHOTOS_URL.
Proof. apply url_prefix_differs; vm_compute; [discriminate | lia]. Qed.

Lemma rates_not_weather (x : pystr) : RATES_URL ++ x <> WEATHER_URL.
Proof. apply url_prefix_differs; vm_compute; [discriminate | lia]. Qed.

Lemma rates_not_photos (x : pystr) : RATES_URL ++ x <> PHOTOS_URL.
Proof. apply url_prefix_differs; vm_compute; [discriminate | lia]. Qed.

Lemma weather_not_photos : WEATHER_URL <> PHOTOS_URL.
Proof. vm_compute. discriminate. Qed.

Lemma collect_urls_spec (items urls : list pyval) :
  collect_urls items = Ok urls ->
  (length urls <= length items)%nat /\
  forall url, In url urls ->
    truthy url = true /\
    exists item us,
      In item items /\ py_get item (u8 "urls") (PyDict []) = Ok us /\
      py_get us (u8 "regular") PyNone = Ok url.
Proof.
  revert urls. induction items as [|item items IH]; intros urls H.
  - injection H as <-. split; [reflexivity | intros ? []].
  - cbn [collect_urls] in H.
    destruct (py_get item (u8 "urls") (PyDict [])) as [us|] eqn:E1;
      [|discriminate]. cbn [res_bind] in H.
    destruct (py_get us (u8 "regular") PyNone) as [url|] eqn:E2;
      [|discriminate]. cbn [res_bind] in H.
    destruct (collect_urls items) as [rest|] eqn:E3; [|discriminate].
    cbn [res_bind] in H. injection H as <-.
    destruct (IH rest eq_refl) as [Hlen Hall].
    assert (forall u, In u rest ->
              truthy u = true /\
              exists it us0, In it (item :: items) /\
                py_get it (u8 "urls") (PyDict []) = Ok us0 /\
                py_get us0 (u8 "regular") PyNone = Ok u) as Hrest.
    { intros u Hu. destruct (Hall u Hu) as [Ht (it & us0 & Hin & G1 & G2)].
      split; [exact Ht|]. exists it, us0. split; [right; exact Hin | auto]. }
    destruct (truthy url) eqn:T.
    + split; [simpl; lia|]. intros u [<- | Hu]; [|auto].
      split; [exact T|]. exists item, us. split; [left; reflexivity | auto].
    + split; [simpl; lia | exact Hrest].
Qed.

(** With every provider unreachable (or answering with an error status) a
    request that can be encoded fails with a request error. *)
Lemma request_outcome_down (w : World) (url : pystr)
    (params headers : list (pystr * pystr)) :
  (forall url params headers, http w url params headers = HttpError) ->
  request_outcome w url params headers
  = if params_encodable params then HttpError else HttpEncodeError.
Proof. intros Hdown. unfold request_outcome. rewrite Hdown. reflexivity. Qed.

(** With every provider unreachable (or answering with an error status) the
    adapters return their absent results, unless the place or the credential
    of a request cannot be encoded, which raises; the exchange-rate adapter
    still answers for the home currency, which needs no call. *)
Lemma adapters_degrade_on_http_error (w : World) :
  (forall url params headers, http w url params headers = HttpError) ->
  (forall destino,
      result (get_weather_data w destino) = Ok None \/
      (result (get_weather_data w destino) = Raise UnicodeEncodeError /\
       exists url params headers,
         calls (get_weather_data w destino) = [HttpGet url params headers] /\
         params_encodable params = false)) /\
  (forall destino,
      result (get_destination_photos w destino) = Ok [] \/
      (result (get_destination_photos w destino) = Raise UnicodeEncodeError /\
       exists url params headers,
         calls (get_destination_photos w destino)
         = [HttpGet url params headers] /\
         params_encodable params = false)) /\
  (forall country_code, result (get_currency_code w country_code) = Ok None) /\
  (forall target,
      result (get_exchange_rate w target) = Ok None \/
      exists base, get_exchange_rate w target = ([], Ok (Some (home_section base)))).
Proof.
  intros Hdown. repeat split.
  - intros destino. unfold get_weather_data.
    destruct (env_key w _); [|left; reflexivity].
    destruct destino as [[|c d]|]; try (left; reflexivity).
    unfold http_get, bind, result, calls.
    rewrite request_outcome_down by exact Hdown.
    destruct (params_encodable _) eqn:Enc; [left; reflexivity|].
    right. split; [reflexivity|]. eexists. eexists. eexists.
    split; [reflexivity | exact Enc].
  - intros destino. unfold get_destination_photos.
    destruct (env_key w _); [|left; reflexivity].
    destruct destino as [[|c d]|]; try (left; reflexivity).
    unfold http_get, bind, result, calls.
    rewrite request_outcome_down by exact Hdown.
    destruct (params_encodable _) eqn:Enc; [left; reflexivity|].
    right. split; [reflexivity|]. eexists. eexists. eexists.
    split; [reflexivity | exact Enc].
  - intros country_code. unfold get_currency_code.
    destruct (truthy country_code); [|reflexivity].
    unfold http_get, bind, result. cbn [negb].
    rewrite request_outcome_down by exact Hdown.
    replace (params_encodable [(u8 "fields", u8 "currencies")]) with true
      by (vm_compute; reflexivity).
    reflexivity.
  - intros target. unfold get_exchange_rate.
    destruct target as [[|c t]|]; try (left; reflexivity).
    destruct (pystr_eqb _ _); [right; eauto|].
    left. unfold http_get, bind, result.
    rewrite request_outcome_down by exact Hdown. reflexivity.
Qed.





(** * Fixed-point formatting *)





(** The rounding is to nearest. *)
Lemma scaled_round_nearest (m : positive) (e : Z) (p : nat) :
  nearest_scaled m e p (scaled_round m e p).
Proof.
  unfold nearest_scaled, scaled_round.
  destruct (Z.leb_spec 0 e) as [He|He].
  - rewrite N2Z.inj_mul, N2Z.inj_mul, !N2Z.inj_pow, Z2N.id by exact He.
    rewrite nat_N_Z. reflexivity.
  - set (num := (N.pos m * 10 ^ N.of_nat p)%N).
    set (den := (2 ^ Z.to_N (- e))%N).
    assert (Z.of_N num = Z.pos m * 10 ^ Z.of_nat p) as Hnum.
    { unfold num. rewrite N2Z.inj_mul, N2Z.inj_pow, nat_N_Z. reflexivity. }
    assert (Z.of_N den = 2 ^ (- e)) as Hden.
    { unfold den. rewrite N2Z.inj_pow, Z2N.id by lia. reflexivity. }
    rewrite <- Hnum, <- Hden.
    assert (den <> 0)%N as Hd0 by (unfold den; apply N.pow_nonzero; lia).
    pose proof (N.div_mod num den Hd0) as Hdm.
    pose proof (N.mod_upper_bound num den Hd0) as Hr.
    set (q := (num / den)%N) in *. set (r := (num mod den)%N) in *.
    destruct (N.compare_spec (2 * r) den) as [Heq|Hlt|Hgt].
    + destruct (N.even q); nia.
    + nia.
    + nia.
Qed.

(** [format(1234567.891, ',.2f')] and [format(0.125, ',.2f')] (a tie, to
    even). *)
Example format_float_thousands :
  format_float_f true 2 (S754_finite false 5302428716536693 (-32))
  = u8 "1,234,567.89" /\
  format_float_f true 2 (S754_finite false 1 (-3)) = u8 "0.12".
Proof. split; vm_compute; reflexivity. Qed.

(** At a tie the rounding takes the even neighbour. *)
Lemma scaled_round_ties_even (m : positive) (e : Z) (p : nat) :
  ties_even m e p (scaled_round m e p).
Proof.
  unfold ties_even, scaled_round. intros He.
  destruct (Z.leb_spec 0 e) as [|_]; [lia|].
  set (num := (N.pos m * 10 ^ N.of_nat p)%N).
  set (den := (2 ^ Z.to_N (- e))%N).
  assert (Z.of_N num = Z.pos m * 10 ^ Z.of_nat p) as Hnum.
  { unfold num. rewrite N2Z.inj_mul, N2Z.inj_pow, nat_N_Z. reflexivity. }
  assert (Z.of_N den = 2 ^ (- e)) as Hden.
  { unfold den. rewrite N2Z.inj_pow, Z2N.id by lia. reflexivity. }
  rewrite <- Hnum, <- Hden.
  assert (den <> 0)%N as Hd0 by (unfold den; apply N.pow_nonzero; lia).
  pose proof (N.div_mod num den Hd0) as Hdm.
  pose proof (N.mod_upper_bound num den Hd0) as Hr.
  set (q := (num / den)%N) in *. set (r := (num mod den)%N) in *.
  destruct (N.compare_spec (2 * r) den) as [Heq|Hlt|Hgt].
  - destruct (N.even q) eqn:Ev; [intros _; exact Ev|].
    intros _. rewrite N.add_1_r, N.even_succ, <- N.negb_even, Ev. reflexivity.
  - intros Ht. exfalso. nia.
  - intros Ht. exfalso. nia.
Qed.


(** * The header block *)

Lemma draw_headed (op : DrawOp) (pdf : Canvas) :
  canvas_headed pdf -> canvas_headed (draw op pdf).
Proof.
  intros [Hp [rest Hr]]. split; [exact Hp|].
  exists (rest ++ [op]). simpl. rewrite Hr, <- app_assoc. reflexivity.
Qed.

Lemma draw_header_fresh (pdf : Canvas) :
  page pdf = [] -> Forall headed (pages pdf) -> canvas_headed (draw_header pdf).
Proof.
  intros Hpage Hpages. destruct pdf as [ps p]. simpl in *. subst p.
  split; [exact Hpages|]. exists []. reflexivity.
Qed.

Lemma new_page_headed (pdf : Canvas) :
  canvas_headed pdf -> canvas_headed (draw_header (showPage pdf)).
Proof.
  intros [Hp Hc]. apply draw_header_fresh; [reflexivity|].
  simpl. apply Forall_app. split; [exact Hp|]. constructor; [exact Hc | constructor].
Qed.

Lemma continue_page_headed (pdf : Canvas) (t : TextObject) :
  canvas_headed pdf -> canvas_headed (fst (continue_page pdf t)).
Proof.
  intros H. unfold continue_page. cbn [fst].
  do 2 apply draw_headed. apply new_page_headed. apply draw_headed. exact H.
Qed.

Lemma flow_entry_headed (st : Canvas * TextObject) (entry : HistoryEntry.t) :
  canvas_headed (fst st) -> canvas_headed (fst (flow_entry st entry)).
Proof.
  destruct st as [pdf t]. intros H. unfold flow_entry.
  destruct (Qltb _ _); [apply continue_page_headed|]; exact H.
Qed.

Lemma flow_headed (history : list HistoryEntry.t) (st : Canvas * TextObject) :
  canvas_headed (fst st) ->
  canvas_headed (fst (fold_left flow_entry history st)).
Proof.
  revert st. induction history as [|e history IH]; intros st H; [exact H|].
  simpl. apply IH. apply flow_entry_headed. exact H.
Qed.

Lemma draw_photos_headed (w : World) (urls : list pyval) (xs : list Q)
    (y : Q) (pdf pdf' : Canvas) (l : list Call) :
  canvas_headed pdf -> draw_photos w urls xs y pdf = (l, Ok pdf') ->
  canvas_headed pdf'.
Proof.
  revert xs pdf l. induction urls as [|url urls IH]; intros xs pdf l H E.
  - apply ret_ok in E as [<- _]. exact H.
  - destruct xs as [|x xs]; [apply ret_ok in E as [<- _]; exact H|].
    cbn [draw_photos] in E.
    apply bind_ok in E as (l1 & p1 & l2 & E1 & E2 & _).
    injection E1 as _ <-. eapply IH; [|exact E2].
    destruct (image_ok w url); [apply draw_headed|]; exact H.
Qed.

(** Every page of an itinerary starts with the same header block. *)
Lemma header_on_every_page (w : World) (st : Store) (session_id : pystr)
    (log : list Call) (doc : Document) :
  download_itinerary w st session_id = (log, Ok doc) ->
  doc_pages doc <> [] /\ Forall headed (doc_pages doc).
Proof.
  unfold download_itinerary.
  destruct (conversation_store st !! session_id) as [[|e es]|];
    [discriminate | | discriminate].
  intros H.
  apply bind_ok in H as (l1 & dest & l1' & _ & H & _).
  apply bind_ok in H as (l2 & f & l2' & _ & H & _).
  apply bind_ok in H as (l3 & photos & l3' & _ & H & _).
  match type of H with
  | context [fold_left flow_entry ?h ?s] =>
      pose proof (flow_headed h s) as Hflow;
      destruct (fold_left flow_entry h s) as [pdf t]
  end.
  cbn [fst] in Hflow.
  assert (canvas_headed pdf) as Hpdf.
  { apply Hflow. do 5 apply draw_headed.
    apply draw_header_fresh; [reflexivity | constructor]. }
  apply bind_ok in H as (l4 & pdf' & l4' & Hph & H & _).
  apply bind_ok in H as (l5 & hdr & l5' & _ & H & _).
  apply ret_ok in H as [<- _]. cbn [doc_pages].
  assert (canvas_headed pdf') as [Hps Hp].
  { destruct photos as [|u photos].
    - apply ret_ok in Hph as [<- _]. apply draw_headed. exact Hpdf.
    - eapply draw_photos_headed; [|exact Hph].
      do 2 apply draw_headed. apply new_page_headed. apply draw_headed.
      exact Hpdf. }
  split.
  - simpl. destruct (pages pdf'); discriminate.
  - simpl. apply Forall_app. split; [exact Hps|].
    constructor; [exact Hp | constructor].
Qed.

(** * Field extractor *)

(** C1, as amended: [extract_field] never raises; it is absent when
    ["<label>:"] does not occur in the text; otherwise, for the first
    occurrence of the marker and the cell that runs from it to the next ["|"]
    (or to the end of the text), it returns the cell trimmed of surrounding
    whitespace and then of leading and trailing periods, or absent when
    nothing is left. *)
Theorem extract_field_spec (text label : pystr) :
  let marker := label ++ COLON in
  (exists r, extract_field text label = Ok r) /\
  (~ occurs marker text -> extract_field text label = Ok None) /\
  (forall pre post cell inner field,
      text = pre ++ marker ++ post ->
      (forall pre' post', text = pre' ++ marker ++ post' ->
                          (length pre <= length pre')%nat) ->
      (post = cell \/ exists rest, post = cell ++ PIPE ++ rest) ->
      ~ In 124%N cell ->
      trimmed is_space cell inner ->
      trimmed is_dot inner field ->
      extract_field text label
      = Ok (if str_truthy field then Some field else None)).
Proof.
  intros marker. unfold extract_field. fold marker.
  destruct (str_contains marker text) eqn:C; cbn [negb].
  - apply str_contains_spec in C.
    destruct (partition_first_complete _ _ C) as [a [b P]].
    assert (str_split1 marker text = Ok [a; b]) as S1.
    { unfold str_split1. rewrite P. unfold marker.
      destruct label; reflexivity. }
    rewrite S1. cbn [res_bind list_index lookup list_lookup].
    assert (exists cell0 others,
               str_split1 PIPE b = Ok (cell0 :: others) /\
               forall cell, (b = cell \/ exists rest, b = cell ++ PIPE ++ rest) ->
                            ~ In 124%N cell -> cell = cell0)
      as (cell0 & others & E & Hcell).
    { unfold str_split1. change PIPE with [124%N].
      destruct (partition_first [124%N] b) as [[a2 b2]|] eqn:P2.
      - exists a2, [b2]. split; [reflexivity|].
        intros cell [-> | [rest ->]] Hn.
        + rewrite partition_first_absent in P2 by exact Hn. discriminate.
        + rewrite partition_first_cell in P2 by exact Hn. congruence.
      - exists b, []. split; [reflexivity|].
        intros cell [-> | [rest ->]] Hn; [reflexivity|].
        rewrite partition_first_cell in P2 by exact Hn. discriminate. }
    rewrite E. cbn [res_bind list_index lookup list_lookup].
    split; [|split].
    + eauto.
    + intros Hno. contradiction.
    + intros pre post cell inner field Ht Hfirst Hpost Hn Hin Hf.
      destruct (partition_first_sound _ _ _ _ P) as [Hab Hmin].
      assert (a = pre /\ b = post) as [-> ->].
      { apply (leftmost_unique marker text); auto.
        specialize (Hmin _ _ Ht). specialize (Hfirst _ _ Hab). lia. }
      rewrite <- (Hcell cell Hpost Hn).
      apply trimmed_unique in Hin. apply trimmed_unique in Hf.
      unfold str_strip_chars, str_strip. rewrite <- Hin.
      replace (strip_by (mem_char DOT) inner) with field; [reflexivity|].
      rewrite Hf.
      apply strip_by_ext. intros c. symmetry. apply mem_char_dot.
  - split; [eauto|]. split; [reflexivity|].
    intros pre post cell inner field Ht. exfalso.
    assert (str_contains marker text = true); [|congruence].
    apply str_contains_spec. exists pre, post. exact Ht.
Qed.

(** The request of the specification's scenario. *)
Lemma extract_field_spec_witness :
  extract_field
    (u8 "Quiero viajar a Destino deseado: Paris | Fechas aproximadas: en junio")
    (u8 "Destino deseado")
  = Ok (Some (u8 "Paris")).
Proof.
  assert (u8 "Quiero viajar a Destino deseado: Paris | Fechas aproximadas: en junio"
          = u8 "Quiero viajar a " ++ (u8 "Destino deseado" ++ COLON)
              ++ u8 " Paris | Fechas aproximadas: en junio") as Htext
    by (vm_compute; reflexivity).
  assert (partition_first (u8 "Destino deseado" ++ COLON)
            (u8 "Quiero viajar a Destino deseado: Paris | Fechas aproximadas: en junio")
          = Some (u8 "Quiero viajar a ",
                  u8 " Paris | Fechas aproximadas: en junio")) as Hfirst
    by (vm_compute; reflexivity).
  assert (~ In 124%N (u8 " Paris ")) as Hpipe
    by (vm_compute; intuition discriminate).
  assert (trimmed is_space (u8 " Paris ") (u8 "Paris")) as Hws
    by (exists (u8 " "), (u8 " "); repeat split; vm_compute; reflexivity).
  assert (trimmed is_dot (u8 "Paris") (u8 "Paris")) as Hdot
    by (exists [], []; repeat split; vm_compute; reflexivity).
  assert (u8 " Paris | Fechas aproximadas: en junio"
          = u8 " Paris " ++ PIPE ++ u8 " Fechas aproximadas: en junio") as Hpost
    by (vm_compute; reflexivity).
  pose proof (proj2 (proj2 (extract_field_spec
      (u8 "Quiero viajar a Destino deseado: Paris | Fechas aproximadas: en junio")
      (u8 "Destino deseado")))
    (u8 "Quiero viajar a ") (u8 " Paris | Fechas aproximadas: en junio")
    (u8 " Paris ") (u8 "Paris") (u8 "Paris") Htext
    (proj2 (partition_first_sound _ _ _ _ Hfirst))
    (or_intror (ex_intro _ _ Hpost)) Hpipe Hws Hdot) as H.
  exact H.
Defined.

(** C1, as stated, fails: a period in front of the field is removed too,
    while the specification's wording trims trailing periods only. *)
Lemma extract_field_leading_period :
  extract_field (u8 "Destino deseado: .Paris") (u8 "Destino deseado")
  = Ok (Some (u8 "Paris")) /\
  spec_extract_field (u8 "Destino deseado: .Paris") (u8 "Destino deseado")
  = Some (u8 ".Paris") /\
  extract_field (u8 "Destino deseado: .Paris") (u8 "Destino deseado")
  <> Ok (spec_extract_field (u8 "Destino deseado: .Paris") (u8 "Destino deseado")).
Proof.
  split; [vm_compute; reflexivity|]. split; [vm_compute; reflexivity|].
  vm_compute. discriminate.
Qed.

(** * Conversation store *)

(** What a turn appends is the entry of that turn. *)
Lemma answered_appended (sid : pystr) (turns : list turn) (st : Store) :
  Forall2 records (answered sid st turns) (appended_to sid st turns).
Proof.
  revert st. induction turns as [|t turns IH]; intros st; [constructor|].
  cbn [answered appended_to]. apply Forall2_app; [|apply IH].
  destruct t as [w payload]. unfold appended. cbn [fst snd].
  destruct (plan_trip w st payload) as [log [[resp st']|e]] eqn:E;
    [|destruct (pystr_eqb _ _); constructor].
  destruct (pystr_eqb _ _); [|constructor].
  open_plan_trip E.
  destruct E as (_ & _ & _ & _ & _ & _ & _ & _ & _ & _ & _ & -> & _).
  cbn [PlanResponse.history]. rewrite (last_n_snoc_last 9).
  constructor; [|constructor]. repeat split.
Qed.

(** C2: whatever chat turns are run from the empty store, and however many,
    a session's history has at most 10 entries.  Each successful turn of the
    session appends one entry, with the question asked and the answer
    returned, and the history is what is left of these entries, in the
    order of the turns, when all but the last 10 are dropped from the
    front; after 15 appends the first 5 are gone and the entries 6 to 15
    remain. *)
Theorem history_bounded_fifo (turns : list turn) (sid : pystr) :
  let st := fold_left plan_step turns empty_store in
  let history := store_get (conversation_store st) sid in
  (length history <= 10)%nat /\
  exists entries,
    Forall2 records (answered sid empty_store turns) entries /\
    history = drop (length entries - 10) entries /\
    (length entries = 15%nat ->
     history = drop 5 entries /\ length history = 10%nat).
Proof.
  intros st history.
  assert (history = drop (length (appended_to sid empty_store turns) - 10)
                      (appended_to sid empty_store turns)) as H.
  { unfold history, st. rewrite run_history; [reflexivity|].
    unfold store_get, empty_store. simpl. rewrite lookup_empty. simpl. lia. }
  split; [rewrite H, length_drop; lia|].
  exists (appended_to sid empty_store turns).
  split; [apply answered_appended|]. split; [exact H|].
  intros H15. rewrite H, H15. split; [reflexivity|].
  rewrite length_drop, H15. reflexivity.
Qed.

(** Fifteen questions of one session, numbered 1 to 15: the questions 6 to
    15 remain. *)
Lemma history_bounded_fifo_witness :
  let st := fold_left plan_step (numbered_turns 15) empty_store in
  let history := store_get (conversation_store st) (u8 "s1") in
  (exists entries,
      Forall2 records (answered (u8 "s1") empty_store (numbered_turns 15))
        entries /\
      length entries = 15%nat /\ history = drop 5 entries) /\
  map HistoryEntry.pregunta history
  = [u8 "6"; u8 "7"; u8 "8"; u8 "9"; u8 "10"; u8 "11"; u8 "12"; u8 "13";
     u8 "14"; u8 "15"].
Proof.
  intros st history. split.
  - destruct (history_bounded_fifo (numbered_turns 15) (u8 "s1"))
      as (_ & entries & Hrec & _ & H15).
    assert (length entries = 15%nat) as Hlen.
    { rewrite <- (Forall2_length _ _ _ Hrec). vm_compute. reflexivity. }
    exists entries. split; [exact Hrec|]. split; [exact Hlen|].
    exact (proj1 (H15 Hlen)).
  - vm_compute. reflexivity.
Defined.

(** * Provider adapters *)

(** C3 does not hold of the code: each adapter catches the failures of the
    HTTP call only, and raises on a 2xx answer whose JSON has an unexpected
    shape. *)
Theorem adapters_raise_on_malformed_payload :
  result (get_weather_data malformed_world (Some (u8 "Paris")))
  = Raise IndexError /\
  result (get_destination_photos malformed_world (Some (u8 "Paris")))
  = Raise TypeError /\
  result (get_currency_code malformed_world (PyStr (u8 "FR")))
  = Raise KeyError /\
  result (get_exchange_rate malformed_world (Some (u8 "EUR")))
  = Raise ValueError.
Proof. repeat split; vm_compute; reflexivity. Qed.

(** * Panel composer *)

(** C4: a section is composed only from its datum.  Without weather data
    there is no weather section, without a UTC offset no time section,
    without a target currency code no currency section; and in every
    successful [/plan] request the panel's sections are absent wherever the
    weather data, its UTC offset, or the currency code found for its country
    is absent. *)
Theorem panel_sections_need_data (w : World) :
  format_weather_section w None = Ok None /\
  get_time_difference_info w PyNone = Ok None /\
  get_exchange_rate w None = ([], Ok None) /\
  forall st payload log resp st',
    plan_trip w st payload = (log, Ok (resp, st')) ->
    exists dest lw weather_data lc currency_code panel,
      get_weather_data w dest = (lw, Ok weather_data) /\
      get_currency_code w
        (match weather_data with Some wd => country wd | None => PyNone end)
      = (lc, Ok currency_code) /\
      PlanResponse.panel resp = Some panel /\
      (weather_data = None ->
       PanelInfo.weather panel = None /\ PanelInfo.time panel = None /\
       PanelInfo.currency panel = None) /\
      (forall wd, weather_data = Some wd -> timezone_offset wd = PyNone ->
                  PanelInfo.time panel = None) /\
      (currency_code = None -> PanelInfo.currency panel = None) /\
      (PanelInfo.weather panel <> None -> weather_data <> None) /\
      (PanelInfo.time panel <> None ->
       exists wd, weather_data = Some wd /\ timezone_offset wd <> PyNone) /\
      (PanelInfo.currency panel <> None -> currency_code <> None).
Proof.
  split; [reflexivity|]. split; [reflexivity|]. split; [reflexivity|].
  intros st payload log resp st' H. open_plan_trip H.
  destruct H as (_ & _ & Hw & _ & Hc & Hx & Ht & Hs & _ & _ & _ & -> & _).
  eexists _, lw, wd, lc, cc, _.
  split; [exact Hw|]. split; [exact Hc|]. split; [reflexivity|].
  cbn [PanelInfo.weather PanelInfo.time PanelInfo.currency].
  assert (wd = None -> ws = None /\ ts = None /\ cs = None) as A.
  { intros ->. cbn in Hs, Ht, Hc. injection Hs as <-. injection Ht as <-.
    injection Hc as _ <-. cbn in Hx. injection Hx as _ <-. auto. }
  assert (forall x, wd = Some x -> timezone_offset x = PyNone -> ts = None) as B.
  { intros x -> E. rewrite E in Ht. cbn in Ht. injection Ht as <-. reflexivity. }
  assert (cc = None -> cs = None) as C.
  { intros ->. cbn in Hx. injection Hx as _ <-. reflexivity. }
  split; [exact A|]. split; [exact B|]. split; [exact C|].
  split; [|split].
  - intros Hn ->. apply Hn. apply A. reflexivity.
  - intros Hn. destruct wd as [x|]; [|exfalso; apply Hn; apply A; reflexivity].
    exists x. split; [reflexivity|]. intros E. apply Hn. exact (B x eq_refl E).
  - intros Hn E. apply Hn. exact (C E).
Qed.

(** The scenario of the specification: no provider credentials. *)
Lemma panel_sections_need_data_witness :
  let w := offline_world (GenText (Some (u8 "Hola"))) in
  exists log resp st' panel,
    plan_trip w empty_store paris_request = (log, Ok (resp, st')) /\
    PlanResponse.panel resp = Some panel /\
    PanelInfo.weather panel = None /\ PanelInfo.time panel = None /\
    PanelInfo.currency panel = None.
Proof.
  intros w.
  destruct (plan_trip w empty_store paris_request) as [log [[resp st']|e]] eqn:E;
    [|vm_compute in E; discriminate].
  destruct (proj2 (proj2 (proj2 (panel_sections_need_data w)))
              empty_store paris_request log resp st' E)
    as (dest & lw & wd & lc & cc & panel & Hw & _ & Hp & Hnone & _).
  exists log, resp, st', panel. split; [reflexivity|]. split; [exact Hp|].
  apply Hnone.
  assert (get_weather_data w dest = ([], Ok None)) as Hoff
    by (vm_compute; reflexivity).
  rewrite Hoff in Hw. injection Hw as _ <-. reflexivity.
Defined.

(** * Exchange-rate adapter *)




(** * Itinerary PDF *)

(** C6 does not hold of the code: the cursor is compared with the bottom
    margin once per history entry, after all lines of the entry are
    emitted.  An answer of fifty lines is drawn on the first page in full:
    eleven of its lines lie below the margin of 80 points, five of them below
    the bottom edge of the page, and the second page holds no text. *)
Theorem text_drawn_below_margin :
  length long_answer_pages = 2%nat /\
  (exists first,
      long_answer_pages !! 0%nat = Some first /\
      length (text_of_page first) = 52%nat /\
      length (filter (fun l => drawn_below 80 l = true) (text_of_page first))
      = 11%nat /\
      length (filter (fun l => drawn_below 0 l = true) (text_of_page first))
      = 5%nat) /\
  (exists second,
      long_answer_pages !! 1%nat = Some second /\ text_of_page second = []).
Proof.
  split; [vm_compute; reflexivity|]. split.
  - eexists. split; [vm_compute; reflexivity|].
    repeat split; vm_compute; reflexivity.
  - eexists. split; [vm_compute; reflexivity|]. vm_compute. reflexivity.
Qed.

(** * Line wrapping *)

(** C7: [wrap_text] breaks only between words: read in order, the words of
    the output lines are the words of the text, each one intact.  An answer
    text has at least one word, and for a text with at least one word whose
    words are at most 90 characters long, every output line is at most 90
    characters long. *)
Theorem wrap_text_words_and_width (text : pystr) :
  concat (map str_split_ws (wrap_text text 90)) = str_split_ws text /\
  (answer_text text -> str_split_ws text <> []) /\
  (str_split_ws text <> [] ->
   (forall word, In word (str_split_ws text) -> (length word <= 90)%nat) ->
   forall line, In line (wrap_text text 90) -> (length line <= 90)%nat).
Proof.
  split; [apply wrap_text_keeps_words|]. split.
  - intros (w & st & payload & log & resp & st' & Hplan & <-).
    destruct (plan_trip_answer _ _ _ _ _ _ Hplan) as [completion ->].
    apply answer_of_words.
  - intros Hne Hwords line Hin.
    assert (Z.of_nat (length line) <= 90); [|lia].
    apply (wrap_text_width text 90); [lia | exact Hne | | exact Hin].
    intros word Hw. specialize (Hwords word Hw). lia.
Qed.

(** The answer of the scenario's chat turn. *)
Lemma wrap_text_words_and_width_witness :
  Forall (fun line => (length line <= 90)%nat)
    (wrap_text (u8 "Hola viajero, Paris te espera") 90).
Proof.
  apply Stdlib.Lists.List.Forall_forall.
  pose proof (wrap_text_words_and_width (u8 "Hola viajero, Paris te espera"))
    as (_ & Hanswer & Hwidth).
  apply Hwidth.
  - apply Hanswer.
    exists (offline_world (GenText (Some (u8 " Hola viajero, Paris te espera ")))),
      empty_store, paris_request.
    eexists _, _, _. split; vm_compute; reflexivity.
  - intros word Hin. vm_compute in Hin.
    repeat (destruct Hin as [<- | Hin]; [vm_compute; lia|]). destruct Hin.
Defined.

(** * Photos adapter *)




(** C9: for a successful [/plan] request whose question has no
    ["Destino deseado:"] marker, the destination is the one of the most
    recent history entry of the session (absent when that entry has none, or
    when the history is empty): the weather and photo adapters are called
    with it, every weather or photo request in the call log carries it, and
    the new history entry records it. *)
Theorem plan_trip_destino_from_history (w : World) (st : Store)
    (payload : PlanRequest.t) (log : list Call) (resp : PlanResponse.t)
    (st' : Store) :
  plan_trip w st payload = (log, Ok (resp, st')) ->
  ~ occurs (u8 "Destino deseado" ++ COLON) (PlanRequest.pregunta payload) ->
  let history_entries :=
    store_get (conversation_store st)
      (session_key (PlanRequest.session_id payload)) in
  let dest := latest_destino history_entries in
  (exists lw lp weather_data rest,
      get_weather_data w dest = (lw, Ok weather_data) /\
      get_destination_photos w dest = (lp, Ok (PlanResponse.fotos resp)) /\
      log = lw ++ lp ++ rest) /\
  (forall url params headers,
      In (HttpGet url params headers) log ->
      (url = WEATHER_URL -> carries params (u8 "q") dest) /\
      (url = PHOTOS_URL -> carries params (u8 "query") dest)) /\
  (exists entry,
      last (PlanResponse.history resp) = Some entry /\
      HistoryEntry.destino entry = dest) /\
  (history_entries = [] -> dest = None).
Proof.
  intros H Hno history_entries dest. open_plan_trip H.
  destruct H as (_ & He & Hw & Hp & Hc & Hx & _ & _ & _ & _ & -> & -> & ->).
  unfold extract_destino in He.
  rewrite extract_field_no_marker in He by exact Hno. injection He as <-.
  fold history_entries in Hw, Hp |- *.
  assert (chosen_destino None history_entries = dest) as Hd.
  { unfold chosen_destino, dest, latest_destino.
    destruct (last history_entries); reflexivity. }
  rewrite Hd in *. cbn [PlanResponse.fotos PlanResponse.history].
  split; [|split; [|split]].
  - exists lw, lp, wd. eexists. split; [exact Hw|]. split; [exact Hp|]. reflexivity.
  - intros url params headers Hin.
    pose proof (get_weather_data_calls w dest) as Cw.
    pose proof (get_destination_photos_calls w dest) as Cp.
    pose proof (get_currency_code_calls w
                  match wd with Some x => country x | None => PyNone end) as Cc.
    pose proof (get_exchange_rate_calls w cc) as Cx.
    rewrite Hw in Cw. rewrite Hp in Cp. rewrite Hc in Cc. rewrite Hx in Cx.
    unfold calls in *. cbn [fst] in *.
    rewrite !in_app_iff in Hin.
    destruct Hin as [Hin | [Hin | [Hin | [Hin | Hin]]]].
    + destruct Cw as [-> | (key & d & Hdest & _ & ->)]; [destruct Hin|].
      destruct Hin as [[= <- <- <-] | []]. split.
      * intros _. exists d. split; [exact Hdest | left; reflexivity].
      * intros E. exfalso. exact (weather_not_photos E).
    + destruct Cp as [-> | (key & d & Hdest & _ & ->)]; [destruct Hin|].
      destruct Hin as [[= <- <- <-] | []]. split.
      * intros E. exfalso. symmetry in E. exact (weather_not_photos E).
      * intros _. exists d. split; [exact Hdest | left; reflexivity].
    + destruct Cc as [-> | ->]; [destruct Hin|].
      destruct Hin as [[= <- <- <-] | []]. split; intros E; exfalso.
      * exact (countries_not_weather _ E).
      * exact (countries_not_photos _ E).
    + destruct Cx as [-> | ->]; [destruct Hin|].
      destruct Hin as [[= <- <- <-] | []]. split; intros E; exfalso.
      * exact (rates_not_weather _ E).
      * exact (rates_not_photos _ E).
    + destruct Hin as [[=] | []].
  - eexists. split; [apply (last_n_snoc_last 9) | reflexivity].
  - intros E. unfold dest, latest_destino. rewrite E. reflexivity.
Qed.

(** A follow-up question in a session that already asked about Paris. *)
Lemma plan_trip_destino_from_history_witness :
  let w := offline_world (GenText (Some (u8 "Hola"))) in
  let st := plan_step empty_store (w, paris_request) in
  exists log resp st',
    plan_trip w st followup_request = (log, Ok (resp, st')) /\
    exists entry,
      last (PlanResponse.history resp) = Some entry /\
      HistoryEntry.destino entry = Some (u8 "Paris").
Proof.
  intros w st.
  destruct (plan_trip w st followup_request) as [log [[resp st']|e]] eqn:E;
    [|vm_compute in E; discriminate].
  exists log, resp, st'. split; [reflexivity|].
  assert (~ occurs (u8 "Destino deseado" ++ COLON)
            (PlanRequest.pregunta followup_request)) as Hno.
  { intros Hc. apply str_contains_spec in Hc. vm_compute in Hc. discriminate. }
  destruct (plan_trip_destino_from_history w st followup_request log resp st'
              E Hno) as (_ & _ & (entry & Hlast & Hdest) & _).
  exists entry. split; [exact Hlast|]. rewrite Hdest. vm_compute. reflexivity.
Defined.

(** * The chat endpoint *)

(** The steps of a chat turn do not read the reply of the model before the
    model is called. *)
Lemma plan_trip_with_reply (w : World) (st : Store) (payload : PlanRequest.t)
    (log : list Call) (resp : PlanResponse.t) (st' : Store)
    (reply : option pystr) :
  plan_trip w st payload = (log, Ok (resp, st')) ->
  exists resp1 st1,
    plan_trip (with_reply w reply) st payload = (log, Ok (resp1, st1)) /\
    PlanResponse.respuesta resp1 = answer_of reply.
Proof.
  intros H. open_plan_trip H.
  destruct H as (Hm & He & Hw & Hp & Hc & Hx & Ht & Hs & Hwt & Hg & -> & _ & _).
  unfold plan_trip.
  change (_get_gemini_model (with_reply w reply)) with (_get_gemini_model w).
  rewrite Hm, bind_lift_ok, He, bind_lift_ok.
  fold (chosen_destino extracted
          (store_get (conversation_store st)
             (session_key (PlanRequest.session_id payload)))).
  set (dest := chosen_destino _ _) in *.
  change (get_weather_data (with_reply w reply) dest)
    with (get_weather_data w dest).
  eexists. eexists.
  split.
  - eapply bind_step; [exact Hw|]. cbv beta.
    change (get_destination_photos (with_reply w reply) dest)
      with (get_destination_photos w dest).
    eapply bind_step; [exact Hp|]. cbv beta.
    change (get_currency_code (with_reply w reply))
      with (get_currency_code w).
    eapply bind_step; [exact Hc|]. cbv beta.
    change (get_exchange_rate (with_reply w reply))
      with (get_exchange_rate w).
    eapply bind_step; [exact Hx|]. cbv beta.
    change (get_time_difference_info (with_reply w reply))
      with (get_time_difference_info w).
    rewrite Ht, bind_lift_ok.
    change (format_weather_section (with_reply w reply))
      with (format_weather_section w).
    rewrite Hs, bind_lift_ok.
    change (weather_prompt (with_reply w reply)) with (weather_prompt w).
    rewrite Hwt, bind_lift_ok.
    unfold bind, ret. cbn [gemini with_reply]. rewrite !app_nil_r.
    reflexivity.
  - reflexivity.
Qed.

(** Without provider credentials a chat turn succeeds whenever the model
    replies. *)
Lemma plan_trip_without_providers (w : World) (st : Store)
    (payload : PlanRequest.t) (model : pystr) (reply : option pystr) :
  _get_gemini_model w = Ok model ->
  env_key w (u8 "OPENWEATHER_API_KEY") = None ->
  env_key w (u8 "UNSPLASH_ACCESS_KEY") = None ->
  (forall m c, gemini w m c = GenText reply) ->
  exists contents resp st',
    plan_trip w st payload = ([Generate model contents], Ok (resp, st')) /\
    PlanResponse.respuesta resp = answer_of reply.
Proof.
  intros Hm Hkw Hkp Hg.
  destruct (extract_field_total (PlanRequest.pregunta payload)
              (u8 "Destino deseado")) as [extracted He].
  eassert (plan_trip w st payload = (_, Ok (_, _))) as E.
  { unfold plan_trip.
    eapply bind_step; [unfold lift; rewrite Hm; reflexivity|]. cbv beta.
    eapply bind_step;
      [unfold lift, extract_destino; rewrite He; reflexivity|]. cbv beta.
    eapply bind_step;
      [unfold get_weather_data; rewrite Hkw; reflexivity|]. cbv beta.
    eapply bind_step;
      [unfold get_destination_photos; rewrite Hkp; reflexivity|]. cbv beta.
    eapply bind_step; [reflexivity|]. cbv beta.
    eapply bind_step; [reflexivity|]. cbv beta.
    eapply bind_step; [reflexivity|]. cbv beta.
    eapply bind_step; [reflexivity|]. cbv beta.
    eapply bind_step; [reflexivity|]. cbv beta.
    eapply bind_step; [rewrite Hg; reflexivity|]. cbv beta.
    reflexivity. }
  cbn [app] in E. eexists. eexists. eexists. split; [exact E|].
  reflexivity.
Qed.

Lemma answer_of_rule (reply : option pystr) :
  fallback_rule reply (answer_of reply).
Proof.
  split; [apply answer_of_words|]. unfold answer_of. split; [|split].
  - intros ->. reflexivity.
  - intros t -> Hall. unfold str_strip.
    rewrite strip_by_only by exact Hall. reflexivity.
  - intros t -> Hne. destruct (str_strip t); [contradiction | reflexivity].
Qed.

(** C10: the [respuesta] of a successful [/plan] request is a non-empty
    string, and the new history entry stores it; when the language model
    yields no text, or only whitespace, it is the fixed fallback message.
    The text of the reply never decides whether the request succeeds: a
    request that succeeds with one reply succeeds, with the same calls, with
    any other, an empty or blank one included, and without provider
    credentials every request the model replies to succeeds. *)
Theorem plan_trip_respuesta_nonempty (w : World) (st : Store)
    (payload : PlanRequest.t) :
  (forall log resp st',
      plan_trip w st payload = (log, Ok (resp, st')) ->
      PlanResponse.respuesta resp <> [] /\
      (exists entry,
          last (PlanResponse.history resp) = Some entry /\
          HistoryEntry.respuesta entry = Some (PlanResponse.respuesta resp) /\
          last (store_get (conversation_store st')
                  (session_key (PlanRequest.session_id payload))) = Some entry) /\
      (exists model contents completion,
          In (Generate model contents) log /\
          gemini w model contents = GenText completion /\
          fallback_rule completion (PlanResponse.respuesta resp)) /\
      (forall reply,
          exists resp1 st1,
            plan_trip (with_reply w reply) st payload = (log, Ok (resp1, st1)) /\
            fallback_rule reply (PlanResponse.respuesta resp1))) /\
  (forall model reply,
      _get_gemini_model w = Ok model ->
      env_key w (u8 "OPENWEATHER_API_KEY") = None ->
      env_key w (u8 "UNSPLASH_ACCESS_KEY") = None ->
      (forall m c, gemini w m c = GenText reply) ->
      exists contents resp st',
        plan_trip w st payload = ([Generate model contents], Ok (resp, st')) /\
        fallback_rule reply (PlanResponse.respuesta resp)).
Proof.
  split.
  - intros log resp st' H.
    assert (forall reply,
               exists resp1 st1,
                 plan_trip (with_reply w reply) st payload
                 = (log, Ok (resp1, st1)) /\
                 fallback_rule reply (PlanResponse.respuesta resp1)) as Hany.
    { intros reply.
      destruct (plan_trip_with_reply w st payload log resp st' reply H)
        as (resp1 & st1 & H1 & H2).
      exists resp1, st1. split; [exact H1|]. rewrite H2.
      apply answer_of_rule. }
    open_plan_trip H.
    destruct H as (_ & _ & _ & _ & _ & _ & _ & _ & _ & Hg & -> & -> & ->).
    cbn [PlanResponse.respuesta PlanResponse.history conversation_store].
    split; [apply answer_of_words|]. split; [|split; [|exact Hany]].
    + eexists. split; [apply (last_n_snoc_last 9)|]. split; [reflexivity|].
      unfold store_get. rewrite lookup_insert_eq. apply (last_n_snoc_last 9).
    + exists model; eexists; exists completion. split; [|split; [exact Hg|]].
      * rewrite !in_app_iff. do 4 right. left. reflexivity.
      * apply answer_of_rule.
  - intros model reply Hm Hkw Hkp Hg.
    destruct (plan_trip_without_providers w st payload model reply
                Hm Hkw Hkp Hg) as (contents & resp & st' & H1 & H2).
    exists contents, resp, st'. split; [exact H1|]. rewrite H2.
    apply answer_of_rule.
Qed.

(** The model answers with blanks only. *)
Lemma plan_trip_respuesta_nonempty_witness :
  let w := offline_world (GenText (Some (u8 "   "))) in
  exists contents resp st',
    plan_trip w empty_store paris_request
    = ([Generate (u8 "gemini-1.5-flash") contents], Ok (resp, st')) /\
    PlanResponse.respuesta resp = FALLBACK.
Proof.
  intros w.
  destruct (proj2 (plan_trip_respuesta_nonempty w empty_store paris_request)
              (u8 "gemini-1.5-flash") (Some (u8 "   ")))
    as (contents & resp & st' & H & _ & _ & Hblank & _).
  - vm_compute. reflexivity.
  - vm_compute. reflexivity.
  - vm_compute. reflexivity.
  - intros m c. reflexivity.
  - exists contents, resp, st'. split; [exact H|].
    apply (Hblank (u8 "   ")); [reflexivity | vm_compute; reflexivity].
Defined.

(** * Further properties: field extractor *)

Lemma partition_first_char_free (c : N) (s a b : pystr) :
  partition_first [c] s = Some (a, b) -> ~ In c a.
Proof.
  intros P Hin. destruct (partition_first_sound _ _ _ _ P) as [Hs Hmin].
  apply in_split in Hin as (a1 & a2 & Ha).
  assert (s = a1 ++ [c] ++ (a2 ++ [c] ++ b)) as Hs'
    by (rewrite Hs, Ha, <- app_assoc; reflexivity).
  specialize (Hmin _ _ Hs'). rewrite Ha, length_app in Hmin.
  simpl in Hmin. lia.
Qed.

Lemma not_occurs_char (c : N) (s : pystr) : ~ occurs [c] s -> ~ In c s.
Proof.
  intros Hn Hin. apply Hn. apply in_split in Hin as (a & b & ->).
  exists a, b. reflexivity.
Qed.

Lemma strip_by_clean (p : N -> bool) (s : pystr) :
  clean_ends p (strip_by p s) = true.
Proof. destruct (strip_by_trimmed p s) as (l & r & _ & _ & _ & H). exact H. Qed.

Lemma strip_by_part (p : N -> bool) (s : pystr) :
  exists l r, s = l ++ strip_by p s ++ r.
Proof. destruct (strip_by_trimmed p s) as (l & r & H & _). eauto. Qed.

Lemma clean_ends_ext (p q : N -> bool) (s : pystr) :
  (forall c, p c = q c) -> clean_ends p s = clean_ends q s.
Proof.
  intros H. unfold clean_ends. destruct s as [|c s]; [reflexivity|].
  destruct (rev (c :: s)); [reflexivity|]. rewrite !H. reflexivity.
Qed.

(** What [extract_field] does in the found case, step by step. *)
Lemma extract_field_found (text label : pystr) (field : pystr) :
  extract_field text label = Ok (Some field) ->
  exists pre post cell,
    text = pre ++ (label ++ COLON) ++ post /\
    (post = cell \/ exists rest, post = cell ++ PIPE ++ rest) /\
    ~ In 124%N cell /\
    field = strip_by is_dot (str_strip cell) /\ field <> [].
Proof.
  unfold extract_field. set (marker := label ++ COLON).
  destruct (str_contains marker text) eqn:C; cbn [negb]; [|discriminate].
  apply str_contains_spec in C.
  destruct (partition_first_complete _ _ C) as [a [b P]].
  assert (str_split1 marker text = Ok [a; b]) as ->.
  { unfold str_split1. rewrite P. unfold marker. destruct label; reflexivity. }
  cbn [res_bind list_index lookup list_lookup].
  destruct (partition_first_sound _ _ _ _ P) as [Ht _].
  unfold str_split1. rewrite PIPE_eq.
  destruct (partition_first [124%N] b) as [[a2 b2]|] eqn:P2;
    cbn [res_bind list_index lookup list_lookup]; intros H.
  - exists a, b, a2. split; [exact Ht|].
    destruct (partition_first_sound _ _ _ _ P2) as [Hb _].
    split; [right; exists b2; exact Hb|].
    split; [exact (partition_first_char_free _ _ _ _ P2)|].
    unfold str_strip_chars in H. rewrite DOT_eq in H.
    rewrite (strip_by_ext (mem_char [46%N]) is_dot) in H
      by (intros c; rewrite <- DOT_eq; apply mem_char_dot).
    destruct (strip_by is_dot (str_strip a2)) eqn:E; [discriminate|].
    injection H as <-. split; [reflexivity | discriminate].
  - exists a, b, b. split; [exact Ht|]. split; [left; reflexivity|].
    split; [apply not_occurs_char, partition_first_none, P2|].
    unfold str_strip_chars in H. rewrite DOT_eq in H.
    rewrite (strip_by_ext (mem_char [46%N]) is_dot) in H
      by (intros c; rewrite <- DOT_eq; apply mem_char_dot).
    destruct (strip_by is_dot (str_strip b)) eqn:E; [discriminate|].
    injection H as <-. split; [reflexivity | discriminate].
Qed.

(** X1: a field that [extract_field] returns is a non-empty part of the text
    that follows the marker; it holds no ["|"] and neither starts nor ends
    with a period. *)
Theorem extract_field_result (text label field : pystr) :
  extract_field text label = Ok (Some field) ->
  field <> [] /\
  (exists before after, text = before ++ (label ++ COLON) ++ after /\
                        occurs field after) /\
  ~ In 124%N field /\
  clean_ends is_dot field = true.
Proof.
  intros H. apply extract_field_found in H
    as (pre & post & cell & Ht & Hpost & Hpipe & Hf & Hne).
  destruct (strip_by_part is_space cell) as (l1 & r1 & H1).
  destruct (strip_by_part is_dot (str_strip cell)) as (l2 & r2 & H2).
  fold (str_strip cell) in H1. rewrite <- Hf in H2.
  assert (cell = (l1 ++ l2) ++ field ++ (r2 ++ r1)) as Hcell.
  { rewrite H1 at 1. rewrite H2 at 1. rewrite <- !app_assoc. reflexivity. }
  split; [exact Hne|]. split; [|split].
  - exists pre, post. split; [exact Ht|].
    destruct Hpost as [-> | [rest ->]].
    + exists (l1 ++ l2), (r2 ++ r1). exact Hcell.
    + exists (l1 ++ l2), ((r2 ++ r1) ++ PIPE ++ rest).
      rewrite Hcell at 1. rewrite <- !app_assoc. reflexivity.
  - intros Hin. apply Hpipe. rewrite Hcell.
    apply in_or_app. right. apply in_or_app. left. exact Hin.
  - rewrite Hf. apply strip_by_clean.
Qed.

(** A request that names its destination and dates. *)
Lemma extract_field_result_witness :
  u8 "en junio" <> [] /\
  ~ In 124%N (u8 "en junio") /\
  clean_ends is_dot (u8 "en junio") = true.
Proof.
  assert (extract_field
            (u8 "Destino deseado: Paris | Fechas aproximadas: en junio.")
            (u8 "Fechas aproximadas") = Ok (Some (u8 "en junio"))) as H
    by (vm_compute; reflexivity).
  destruct (extract_field_result _ _ _ H) as (Hne & _ & Hpipe & Hdot).
  auto.
Defined.

Lemma COLON_eq : COLON = [58%N].
Proof. reflexivity. Qed.

Lemma partition_first_at (sep pre post : pystr) :
  (forall a b, pre ++ sep ++ post = a ++ sep ++ b ->
               (length pre <= length a)%nat) ->
  partition_first sep (pre ++ sep ++ post) = Some (pre, post).
Proof.
  intros Hfirst.
  destruct (partition_first_complete sep (pre ++ sep ++ post)) as [a [b P]];
    [exists pre, post; reflexivity|].
  destruct (partition_first_sound _ _ _ _ P) as [Hab Hmin].
  destruct (leftmost_unique sep _ pre post a b eq_refl Hab) as [-> ->];
    [|exact P].
  specialize (Hmin pre post eq_refl). specialize (Hfirst a b Hab). lia.
Qed.

(** A marker that ends in a character absent from what precedes it is found
    where it stands. *)
Lemma first_occurrence_by_last (c : N) (pre body post : pystr) :
  ~ In c (pre ++ body) ->
  forall a b, pre ++ (body ++ [c]) ++ post = a ++ (body ++ [c]) ++ b ->
              (length pre <= length a)%nat.
Proof.
  intros Hn a b E.
  destruct (Nat.le_gt_cases (length pre) (length a)) as [|Hlt]; [assumption|].
  exfalso. apply Hn.
  assert ((pre ++ body) !! (length a + length body)%nat = Some c) as Hc.
  { assert ((a ++ (body ++ [c]) ++ b) !! (length a + length body)%nat = Some c)
      as Hr.
    { rewrite lookup_app_r by lia.
      replace (length a + length body - length a)%nat with (length body) by lia.
      rewrite <- app_assoc. apply list_lookup_middle. reflexivity. }
    rewrite <- E in Hr.
    replace (pre ++ (body ++ [c]) ++ post)
      with ((pre ++ body) ++ [c] ++ post) in Hr
      by (rewrite <- !app_assoc; reflexivity).
    rewrite lookup_app_l in Hr by (rewrite length_app; lia). exact Hr. }
  apply list_elem_of_lookup_2 in Hc. apply list_elem_of_In. exact Hc.
Qed.

Lemma extract_field_at (pre label post cell : pystr) :
  (forall a b, pre ++ (label ++ COLON) ++ post = a ++ (label ++ COLON) ++ b ->
               (length pre <= length a)%nat) ->
  (post = cell \/ exists rest, post = cell ++ PIPE ++ rest) ->
  ~ In 124%N cell ->
  extract_field (pre ++ (label ++ COLON) ++ post) label
  = Ok (let field := strip_by is_dot (str_strip cell) in
        if str_truthy field then Some field else None).
Proof.
  intros Hfirst Hpost Hpipe. unfold extract_field.
  assert (str_contains (label ++ COLON) (pre ++ (label ++ COLON) ++ post) = true)
    as -> by (apply str_contains_spec; exists pre, post; reflexivity).
  cbn [negb].
  assert (str_split1 (label ++ COLON) (pre ++ (label ++ COLON) ++ post)
          = Ok [pre; post]) as ->.
  { unfold str_split1. rewrite partition_first_at by exact Hfirst.
    destruct label; reflexivity. }
  cbn [res_bind list_index lookup list_lookup].
  assert (exists others, str_split1 PIPE post = Ok (cell :: others))
    as [others ->].
  { unfold str_split1. rewrite PIPE_eq.
    destruct Hpost as [-> | [rest ->]].
    - rewrite partition_first_absent by exact Hpipe. eauto.
    - rewrite PIPE_eq, partition_first_cell by exact Hpipe. eauto. }
  cbn [res_bind list_index lookup list_lookup].
  unfold str_strip_chars.
  rewrite (strip_by_ext (mem_char DOT) is_dot) by apply mem_char_dot.
  reflexivity.
Qed.

Lemma clean_strip (p : N -> bool) (s : pystr) :
  clean_ends p s = true -> strip_by p s = s.
Proof.
  intros H. symmetry. apply trimmed_unique. exists [], [].
  rewrite app_nil_r. auto.
Qed.

Lemma space_not_pipe (ws : pystr) :
  forallb is_space ws = true -> ~ In 124%N ws.
Proof.
  intros H Hin. rewrite forallb_forall in H. specialize (H _ Hin).
  vm_compute in H. discriminate.
Qed.

(** X2: a field written after its marker is read back as it was written:
    for a value without ["|"], without surrounding whitespace or periods,
    placed after ["<label>:"] with any whitespace around it and closed by
    ["|"] or by the end of the text, [extract_field] returns that value,
    provided no colon stands before the marker. *)
Theorem extract_field_round_trip (pre label ws1 d ws2 tail : pystr) :
  ~ In 58%N (pre ++ label) ->
  forallb is_space ws1 = true -> forallb is_space ws2 = true ->
  d <> [] -> ~ In 124%N d ->
  clean_ends is_space d = true -> clean_ends is_dot d = true ->
  (tail = [] \/ exists rest, tail = PIPE ++ rest) ->
  extract_field (pre ++ (label ++ COLON) ++ (ws1 ++ d ++ ws2) ++ tail) label
  = Ok (Some d).
Proof.
  intros Hcolon H1 H2 Hne Hpipe Hws Hdot Htail.
  rewrite (extract_field_at pre label _ (ws1 ++ d ++ ws2)).
  - assert (str_strip (ws1 ++ d ++ ws2) = d) as ->.
    { symmetry. apply trimmed_unique. exists ws1, ws2. auto. }
    cbv zeta. rewrite clean_strip by exact Hdot.
    destruct d; [contradiction | reflexivity].
  - rewrite COLON_eq. apply first_occurrence_by_last. exact Hcolon.
  - destruct Htail as [-> | [rest ->]].
    + left. rewrite app_nil_r. reflexivity.
    + right. exists rest. reflexivity.
  - rewrite !in_app_iff. intros [H | [H | H]].
    + exact (space_not_pipe _ H1 H).
    + exact (Hpipe H).
    + exact (space_not_pipe _ H2 H).
Qed.

(** The destination of the specification's scenario. *)
Lemma extract_field_round_trip_witness :
  extract_field
    (u8 "Quiero viajar a " ++ (u8 "Destino deseado" ++ COLON)
       ++ (u8 " " ++ u8 "Paris" ++ u8 " ")
       ++ u8 "| Fechas aproximadas: en junio")
    (u8 "Destino deseado")
  = Ok (Some (u8 "Paris")).
Proof.
  apply extract_field_round_trip.
  - vm_compute. intuition discriminate.
  - vm_compute. reflexivity.
  - vm_compute. reflexivity.
  - vm_compute. discriminate.
  - vm_compute. intuition discriminate.
  - vm_compute. reflexivity.
  - vm_compute. reflexivity.
  - right. exists (u8 " Fechas aproximadas: en junio"). vm_compute. reflexivity.
Defined.

(** * Further properties: line wrapping *)

Lemma join_words_nonempty (current : list pystr) :
  current <> [] -> forallb is_word current = true ->
  str_join [32%N] current <> [].
Proof.
  destruct current as [|a current]; [contradiction|]. intros _ H.
  simpl in H. apply andb_true_iff in H as [Ha _].
  apply is_word_inv in Ha as [Ha _].
  destruct a; [contradiction|]. destruct current; discriminate.
Qed.

Lemma join_length_snoc (current : list pystr) (w : pystr) :
  Z.of_nat (length (str_join [32%N] (current ++ [w])))
  = Z.of_nat (length (str_join [32%N] current)) + Z.of_nat (length w)
    + match current with [] => 0 | _ => 1 end.
Proof.
  destruct current as [|a current]; [simpl; lia|].
  rewrite str_join_snoc by discriminate. rewrite !length_app. simpl. lia.
Qed.

Lemma join_length_prefix (rest done : list pystr) :
  (length (str_join [32%N] done)
   <= length (str_join [32%N] (done ++ rest)))%nat.
Proof.
  revert done. induction rest as [|w rest IH]; intros done.
  - rewrite app_nil_r. lia.
  - replace (done ++ w :: rest) with ((done ++ [w]) ++ rest)
      by (rewrite <- app_assoc; reflexivity).
    specialize (IH (done ++ [w])).
    pose proof (join_length_snoc done w). destruct done; lia.
Qed.

(** While everything fits, the loop keeps adding to the one line. *)
Lemma wrap_fold_single (width : Z) (rest done : list pystr) :
  forallb is_word (done ++ rest) = true ->
  Z.of_nat (length (str_join [32%N] (done ++ rest))) <= width ->
  fold_left (wrap_step width) rest
    ([], done, Z.of_nat (length (str_join [32%N] done)))
  = ([], done ++ rest, Z.of_nat (length (str_join [32%N] (done ++ rest)))).
Proof.
  revert done. induction rest as [|w rest IH]; intros done Hw Hfit.
  - rewrite app_nil_r. reflexivity.
  - cbn [fold_left]. unfold wrap_step at 2.
    pose proof (join_length_snoc done w) as Hs.
    pose proof (join_length_prefix rest (done ++ [w])) as Hp.
    rewrite <- app_assoc in Hp. cbn [app] in Hp.
    destruct (Z.ltb_spec width
                (Z.of_nat (length (str_join [32%N] done))
                 + Z.of_nat (length w)
                 + match done with [] => 0 | _ => 1 end)) as [Hlt|_];
      [lia|].
    assert ((Z.of_nat (length (str_join [32%N] done))
             + (Z.of_nat (length w)
                + (if Z.of_nat (length (str_join [32%N] done)) =? 0
                   then 0 else 1)))
            = Z.of_nat (length (str_join [32%N] (done ++ [w])))) as ->.
    { rewrite Hs. destruct done as [|a done]; [reflexivity|].
      assert (str_join [32%N] (a :: done) <> []) as Hne.
      { apply join_words_nonempty; [discriminate|].
        rewrite forallb_app in Hw. apply andb_true_iff in Hw as [Hw _].
        exact Hw. }
      destruct (Z.eqb_spec (Z.of_nat (length (str_join [32%N] (a :: done)))) 0)
        as [E|_]; [|lia].
      destruct (str_join [32%N] (a :: done)); [contradiction | simpl in E; lia]. }
    rewrite IH.
    + rewrite <- app_assoc. reflexivity.
    + rewrite <- app_assoc. exact Hw.
    + rewrite <- app_assoc. exact Hfit.
Qed.

(** X3: a text whose words, joined by single spaces, fit the width is
    wrapped into exactly that one line: whitespace is normalised and nothing
    is broken. *)
Theorem wrap_text_single_line (text : pystr) (width : Z) :
  str_split_ws text <> [] ->
  Z.of_nat (length (str_join (u8 " ") (str_split_ws text))) <= width ->
  wrap_text text width = [str_join (u8 " ") (str_split_ws text)].
Proof.
  rewrite SPACE_eq. intros Hne Hfit. unfold wrap_text.
  pose proof (wrap_fold_single width (str_split_ws text) []
                (split_ws_words text) Hfit) as H.
  cbn [app str_join length] in H. change (Z.of_nat 0) with 0 in H.
  rewrite H. rewrite SPACE_eq.
  destruct (str_split_ws text); [contradiction | reflexivity].
Qed.

(** A short answer with irregular spacing. *)
Lemma wrap_text_single_line_witness :
  wrap_text (u8 "  Hola   viajero ") 90 = [u8 "Hola viajero"].
Proof.
  assert (str_split_ws (u8 "  Hola   viajero ") <> []) as Hne
    by (vm_compute; discriminate).
  assert (Z.of_nat (length (str_join (u8 " ")
                              (str_split_ws (u8 "  Hola   viajero ")))) <= 90)
    as Hfit by (vm_compute; discriminate).
  rewrite (wrap_text_single_line _ 90 Hne Hfit). vm_compute. reflexivity.
Defined.

(** Once a line is under construction, the loop only adds non-empty lines
    and keeps a line under construction. *)
Lemma wrap_fold_grow (width : Z) (words lines current : list pystr) (n : Z) :
  current <> [] -> forallb is_word current = true ->
  forallb is_word words = true ->
  exists more current' n',
    fold_left (wrap_step width) words (lines, current, n)
    = (lines ++ more, current', n') /\
    current' <> [] /\ forallb is_word current' = true /\
    Forall (fun l => l <> []) more.
Proof.
  revert lines current n.
  induction words as [|w words IH]; intros lines current n Hne Hcur Hw.
  - exists [], current, n. rewrite app_nil_r. auto.
  - simpl in Hw. apply andb_true_iff in Hw as [Hw1 Hw].
    cbn [fold_left]. unfold wrap_step at 2. rewrite SPACE_eq.
    destruct (width <? _).
    + destruct (IH (lines ++ [str_join [32%N] current]) [w] (Z.of_nat (length w)))
        as (more & c' & n' & E & Hc' & Hw' & Hall);
        [discriminate | simpl; rewrite Hw1; reflexivity | exact Hw |].
      exists (str_join [32%N] current :: more), c', n'.
      rewrite E, <- app_assoc. repeat split; auto.
      constructor; [apply join_words_nonempty; assumption | exact Hall].
    + destruct (IH lines (current ++ [w])
                  (n + (Z.of_nat (length w) + (if n =? 0 then 0 else 1))))
        as (more & c' & n' & E & Hc' & Hw' & Hall);
        [destruct current; discriminate
        | rewrite forallb_app, Hcur; simpl; rewrite Hw1; reflexivity
        | exact Hw |].
      exists more, c', n'. auto.
Qed.

Lemma wrap_text_unfold (text : pystr) (width : Z) :
  wrap_text text width
  = wrap_finish text
      (fold_left (wrap_step width) (str_split_ws text) ([], [], 0)).
Proof. reflexivity. Qed.

(** With a line under construction, the output is the finished lines, then
    non-empty lines. *)
Lemma wrap_run_nonempty (text : pystr) (width : Z)
    (words lines current : list pystr) (n : Z) :
  current <> [] -> forallb is_word current = true ->
  forallb is_word words = true ->
  exists more,
    wrap_finish text (fold_left (wrap_step width) words (lines, current, n))
    = lines ++ more /\
    more <> [] /\ Forall (fun l => l <> []) more.
Proof.
  intros Hne Hcur Hws.
  destruct (wrap_fold_grow width words lines current n Hne Hcur Hws)
    as (more & c' & n' & -> & Hc' & Hw' & Hall).
  exists (more ++ [str_join [32%N] c']).
  assert (str_join [32%N] c' <> []) as Hj
    by (apply join_words_nonempty; assumption).
  split; [|split].
  - unfold wrap_finish. rewrite SPACE_eq.
    destruct c' as [|x c']; [contradiction|].
    rewrite <- app_assoc.
    destruct (lines ++ more ++ [str_join [32%N] (x :: c')]) eqn:E;
      [|reflexivity].
    destruct lines; [destruct more|]; discriminate.
  - destruct more; discriminate.
  - apply Forall_app. split; [exact Hall|]. constructor; [exact Hj|constructor].
Qed.

Lemma no_empty_line (l : list pystr) :
  Forall (fun x => x <> []) l -> ~ In [] l.
Proof.
  intros Hl Hin. rewrite Forall_forall in Hl.
  apply (Hl [] (proj2 (list_elem_of_In _ _) Hin)). reflexivity.
Qed.

Lemma wrap_first_step (width : Z) (w0 : pystr) :
  wrap_step width ([], [], 0) w0
  = (if width <? Z.of_nat (length w0) then [[]] else [],
     [w0], Z.of_nat (length w0)).
Proof.
  unfold wrap_step.
  replace (0 + Z.of_nat (length w0) + 0) with (Z.of_nat (length w0)) by lia.
  destruct (width <? Z.of_nat (length w0)); [reflexivity|].
  f_equal. simpl. lia.
Qed.

(** The output for a text whose first word is [w0]. *)
Lemma wrap_run_first (text : pystr) (width : Z) (w0 : pystr)
    (ws : list pystr) :
  is_word w0 = true -> forallb is_word ws = true ->
  exists more,
    wrap_finish text
      (fold_left (wrap_step width) ws (wrap_step width ([], [], 0) w0))
    = (if width <? Z.of_nat (length w0) then [[]] else []) ++ more /\
    Forall (fun l => l <> []) more.
Proof.
  intros Hw0 Hws. rewrite wrap_first_step.
  assert (forallb is_word [w0] = true) as Hcur
    by (simpl; rewrite Hw0; reflexivity).
  destruct (width <? Z.of_nat (length w0)).
  - destruct (wrap_run_nonempty text width ws [[]] [w0] (Z.of_nat (length w0)))
      as (more & E & _ & Hall); [discriminate | exact Hcur | exact Hws |].
    exists more. split; [exact E | exact Hall].
  - destruct (wrap_run_nonempty text width ws [] [w0] (Z.of_nat (length w0)))
      as (more & E & _ & Hall); [discriminate | exact Hcur | exact Hws |].
    exists more. split; [exact E | exact Hall].
Qed.

(** X4: for a text with at least one word, [wrap_text] emits an empty line
    exactly when the first word is longer than the width, and then the empty
    line comes first; all other lines are never empty. *)
Theorem wrap_text_empty_line (text : pystr) (width : Z) (w0 : pystr)
    (ws : list pystr) :
  str_split_ws text = w0 :: ws ->
  (In [] (wrap_text text width) <-> width < Z.of_nat (length w0)) /\
  (width < Z.of_nat (length w0) ->
   exists rest, wrap_text text width = [] :: rest /\ ~ In [] rest).
Proof.
  intros Hsplit. pose proof (split_ws_words text) as Hwords.
  rewrite wrap_text_unfold. rewrite Hsplit in *. simpl in Hwords.
  apply andb_true_iff in Hwords as [Hw0 Hws].
  cbn [fold_left].
  destruct (wrap_run_first text width w0 ws Hw0 Hws) as (more & E & Hall).
  rewrite E.
  destruct (Z.ltb_spec width (Z.of_nat (length w0))) as [Hlt|Hge]; cbn [app].
  - split.
    + split; [intros _; exact Hlt | intros _; left; reflexivity].
    + intros _. exists more. split; [reflexivity|]. apply no_empty_line, Hall.
  - split; [|intros; lia].
    split; [|intros; lia].
    intros Hin. exfalso. exact (no_empty_line _ Hall Hin).
Qed.

(** A first word of twelve letters and a width of eight. *)
Lemma wrap_text_empty_line_witness :
  exists rest,
    wrap_text (u8 "abcdefghijkl xx") 8 = [] :: rest /\ ~ In [] rest.
Proof.
  assert (str_split_ws (u8 "abcdefghijkl xx") = [u8 "abcdefghijkl"; u8 "xx"])
    as Hsplit by (vm_compute; reflexivity).
  apply (proj2 (wrap_text_empty_line _ 8 _ _ Hsplit)).
  vm_compute. reflexivity.
Defined.

(** * Greedy filling *)

Lemma greedy_snoc (width : Z) (lines : list pystr) (line next word : pystr)
    (others : list pystr) :
  greedy width (lines ++ [line]) ->
  str_split_ws next = word :: others ->
  width < Z.of_nat (length line) + Z.of_nat (length word) + gap line ->
  greedy width (lines ++ [line; next]).
Proof.
  intros Hg Hs Hw. induction lines as [|l lines IH].
  - simpl. split; [exists word, others; auto | exact I].
  - destruct lines as [|l2 lines].
    + simpl in *. split; [exact (proj1 Hg)|].
      split; [exists word, others; auto | exact I].
    + change (greedy width (l :: (l2 :: lines) ++ [line; next])).
      change (greedy width (l :: (l2 :: lines) ++ [line])) in Hg.
      cbn [greedy app] in *. destruct Hg as [H1 H2].
      split; [exact H1 | exact (IH H2)].
Qed.

(** Only the first word of the last line matters. *)
Lemma greedy_last (width : Z) (lines : list pystr) (x y : pystr) :
  head (str_split_ws x) = head (str_split_ws y) ->
  greedy width (lines ++ [x]) -> greedy width (lines ++ [y]).
Proof.
  intros Hh. induction lines as [|l lines IH]; intros Hg; [exact I|].
  destruct lines as [|l2 lines].
  - simpl in *. destruct Hg as [(word & others & Hs & Hw) _].
    split; [|exact I]. rewrite Hs in Hh.
    destruct (str_split_ws y) as [|word' others']; [discriminate|].
    injection Hh as <-. exists word, others'. auto.
  - change (greedy width (l :: (l2 :: lines) ++ [y])).
    change (greedy width (l :: (l2 :: lines) ++ [x])) in Hg.
    cbn [greedy app] in *. destruct Hg as [H1 H2].
    split; [exact H1 | exact (IH H2)].
Qed.

(** The loop keeps the finished lines and the line under construction
    greedily filled. *)
Lemma wrap_fold_greedy (width : Z) (words lines current done : list pystr)
    (n : Z) :
  forallb is_word words = true ->
  current <> [] ->
  wrap_inv done (lines, current, n) ->
  greedy width (lines ++ [str_join [32%N] current]) ->
  exists lines' current' n',
    fold_left (wrap_step width) words (lines, current, n)
    = (lines', current', n') /\
    current' <> [] /\
    greedy width (lines' ++ [str_join [32%N] current']).
Proof.
  revert lines current done n.
  induction words as [|w words IH]; intros lines current done n Hws Hne Hinv Hg.
  - exists lines, current, n. auto.
  - simpl in Hws. apply andb_true_iff in Hws as [Hw Hws].
    pose proof (wrap_step_inv width done _ w Hw Hinv) as Hinv'.
    destruct Hinv as [_ Hcur Hlen]. cbn [fst snd] in Hcur, Hlen.
    cbn [fold_left]. revert Hinv'. unfold wrap_step at 1 3. rewrite SPACE_eq.
    assert (str_join [32%N] current <> []) as Hj
      by (apply join_words_nonempty; assumption).
    destruct (Z.ltb_spec width
                (n + Z.of_nat (length w)
                 + match current with [] => 0 | _ => 1 end)) as [Hlt|Hge];
      intros Hinv'.
    + apply (IH _ _ _ _ Hws) with (2 := Hinv'); [discriminate|].
      rewrite <- app_assoc. cbn [app str_join].
      apply (greedy_snoc width lines _ w w []); [exact Hg | |].
      * apply (split_ws_join [w]). simpl. rewrite Hw. reflexivity.
      * subst n. destruct current; [contradiction|].
        destruct (str_join [32%N] (p :: current)); [contradiction|].
        unfold gap. lia.
    + apply (IH _ _ _ _ Hws) with (2 := Hinv');
        [destruct current; discriminate|].
      apply (greedy_last width lines (str_join [32%N] current)); [|exact Hg].
      rewrite !split_ws_join.
      * destruct current; [contradiction | reflexivity].
      * rewrite forallb_app, Hcur. simpl. rewrite Hw. reflexivity.
      * exact Hcur.
Qed.

(** X5: the lines are filled greedily: the first word of every line but the
    first did not fit at the end of the line before it, so no break is taken
    earlier than the width requires. *)
Theorem wrap_text_greedy (text : pystr) (width : Z) :
  greedy width (wrap_text text width).
Proof.
  rewrite wrap_text_unfold. pose proof (split_ws_words text) as Hwords.
  destruct (str_split_ws text) as [|w0 ws] eqn:Hsplit; [exact I|].
  simpl in Hwords. apply andb_true_iff in Hwords as [Hw0 Hws].
  cbn [fold_left].
  assert (wrap_inv [w0] (wrap_step width ([], [], 0) w0)) as Hinv.
  { apply (wrap_step_inv width [] ([], [], 0) w0 Hw0).
    constructor; reflexivity. }
  revert Hinv. rewrite wrap_first_step. intros Hinv.
  destruct (wrap_fold_greedy width ws _ [w0] [w0] _ Hws
              ltac:(discriminate) Hinv)
    as (lines' & current' & n' & E & Hne & Hg).
  - destruct (Z.ltb_spec width (Z.of_nat (length w0))) as [Hlt|Hge];
      [|exact I].
    simpl. split; [|exact I]. exists w0, [].
    split; [|simpl; lia].
    apply (split_ws_join [w0]). simpl. rewrite Hw0. reflexivity.
  - match type of E with
    | ?run = _ => change (greedy width (wrap_finish text run))
    end.
    rewrite E. unfold wrap_finish. rewrite SPACE_eq.
    destruct current' as [|c current']; [contradiction|].
    destruct (lines' ++ [str_join [32%N] (c :: current')]) eqn:E';
      [destruct lines'; discriminate|].
    exact Hg.
Qed.

(** * Further properties: provider adapters and the weather panel *)

(** Opens a chain of [do?] steps that ended well. *)
Ltac open_res H :=
  repeat match type of H with
         | res_bind ?m _ = Ok _ =>
             let E := fresh "E" in
             destruct m eqn:E; cbn [res_bind] in H; [|discriminate H]
         end.

Lemma weather_of_json_city (w : World) (d : pystr) (data : pyval)
    (wd : WeatherData) :
  d <> [] -> weather_of_json w d data = Ok wd -> truthy (city wd) = true.
Proof.
  intros Hd H. unfold weather_of_json in H. open_res H.
  injection H as <-. cbn [city]. unfold py_or.
  destruct (truthy a12) eqn:T; [exact T|].
  destruct d; [contradiction | reflexivity].
Qed.

(** Only the place and the credential can make the query of the weather
    request unencodable. *)
Lemma weather_params_encodable (d k : pystr) :
  params_encodable (weather_params d k) = utf8_encodable d && utf8_encodable k.
Proof.
  unfold params_encodable, weather_params. cbn [forallb fst snd].
  replace (utf8_encodable (u8 "q")) with true by (vm_compute; reflexivity).
  replace (utf8_encodable (u8 "appid")) with true by (vm_compute; reflexivity).
  replace (utf8_encodable (u8 "units")) with true by (vm_compute; reflexivity).
  replace (utf8_encodable (u8 "metric")) with true by (vm_compute; reflexivity).
  replace (utf8_encodable (u8 "lang")) with true by (vm_compute; reflexivity).
  replace (utf8_encodable (u8 "es")) with true by (vm_compute; reflexivity).
  cbn [andb]. rewrite andb_true_r. reflexivity.
Qed.

(** X6: the weather adapter makes no call and returns nothing without its
    credential or without a place; otherwise it calls the provider exactly
    once for that place (metric units, Spanish).  A place or a credential
    with a lone surrogate cannot be encoded, and the call raises
    [UnicodeEncodeError].  Otherwise the adapter returns nothing exactly
    when the call fails with a request error, raises when the request
    cannot be encoded for another reason, and for a payload never returns
    nothing: it raises or returns data that names a city, the provider's
    name for it or else the place asked for. *)
Theorem get_weather_data_spec (w : World) (destino : option pystr) :
  let run := get_weather_data w destino in
  let key := env_key w (u8 "OPENWEATHER_API_KEY") in
  (key = None \/ destino = None \/ destino = Some [] -> run = ([], Ok None)) /\
  (forall k d,
      key = Some k -> destino = Some d -> d <> [] ->
      calls run = [HttpGet WEATHER_URL (weather_params d k) []] /\
      (utf8_encodable d && utf8_encodable k = false ->
       result run = Raise UnicodeEncodeError) /\
      (utf8_encodable d && utf8_encodable k = true ->
       match http w WEATHER_URL (weather_params d k) [] with
       | HttpError => result run = Ok None
       | HttpEncodeError => result run = Raise UnicodeEncodeError
       | HttpJson data =>
           result run <> Ok None /\
           forall wd, result run = Ok (Some wd) ->
             truthy (city wd) = true /\
             forall name,
               py_get data (u8 "name") PyNone = Ok name ->
               city wd = if truthy name then name else PyStr d
       end)).
Proof.
  cbv zeta. unfold get_weather_data. split.
  - intros [-> | [-> | ->]]; [reflexivity | |];
      destruct (env_key w _); reflexivity.
  - intros k d -> -> Hd. destruct d as [|c d]; [contradiction|].
    change (http_get w WEATHER_URL _ _)
      with (http_get w WEATHER_URL (weather_params (c :: d) k) []).
    unfold http_get, bind, calls, result, lift, ret, request_outcome.
    rewrite weather_params_encodable. cbn [fst snd].
    destruct (utf8_encodable (c :: d) && utf8_encodable k) eqn:Enc.
    + destruct (http w WEATHER_URL (weather_params (c :: d) k) [])
        as [|data|].
      * split; [reflexivity|]. split; [discriminate | reflexivity].
      * destruct (weather_of_json w (c :: d) data) as [wd|e] eqn:Hjson;
          cbn [fst snd app]; (split; [reflexivity|]);
          (split; [discriminate|]); intros _; (split; [discriminate|]).
        -- intros wd' [= <-].
           split; [exact (weather_of_json_city _ _ _ _ Hd Hjson)|].
           intros name Hname.
           unfold weather_of_json in Hjson. open_res Hjson.
           injection Hjson as <-. cbn [city].
           assert (a12 = name) as -> by congruence. reflexivity.
        -- intros wd [=].
      * split; [reflexivity|]. split; [discriminate | reflexivity].
    + split; [reflexivity|]. split; [reflexivity | discriminate].
Qed.

(** The provider names no city. *)
Lemma get_weather_data_spec_witness :
  let w :=
    world_with [(u8 "OPENWEATHER_API_KEY", u8 "key")]
      (provider_at WEATHER_URL (PyDict [])) (GenText None) in
  exists wd,
    result (get_weather_data w (Some (u8 "Paris"))) = Ok (Some wd) /\
    truthy (city wd) = true /\ city wd = PyStr (u8 "Paris").
Proof.
  intros w.
  destruct (result (get_weather_data w (Some (u8 "Paris")))) as [[wd|]|e] eqn:E;
    [|vm_compute in E; discriminate..].
  exists wd. split; [reflexivity|].
  assert (env_key w (u8 "OPENWEATHER_API_KEY") = Some (u8 "key")) as Hk
    by (vm_compute; reflexivity).
  assert (u8 "Paris" <> []) as Hd by (vm_compute; discriminate).
  destruct (proj2 (get_weather_data_spec w (Some (u8 "Paris")))
              (u8 "key") (u8 "Paris") Hk eq_refl Hd) as (_ & _ & H).
  assert (utf8_encodable (u8 "Paris") && utf8_encodable (u8 "key") = true)
    as Henc by (vm_compute; reflexivity).
  specialize (H Henc).
  assert (http w WEATHER_URL (weather_params (u8 "Paris") (u8 "key")) []
          = HttpJson (PyDict [])) as Hh by (vm_compute; reflexivity).
  rewrite Hh in H. destruct H as [_ H].
  destruct (H wd E) as [Ht Hc]. split; [exact Ht|].
  apply (Hc PyNone). vm_compute. reflexivity.
Defined.

(** X7: the currency adapter makes no call for an absent or empty country
    code; otherwise it sends one request for that country, returns nothing
    when the request fails, and a code it returns is the first key of the
    [currencies] object of the first element of the payload. *)
Theorem get_currency_code_spec (w : World) (country_code : pyval) :
  let run := get_currency_code w country_code in
  let url := COUNTRIES_URL ++ py_str w country_code in
  let params := [(u8 "fields", u8 "currencies")] in
  (truthy country_code = false -> run = ([], Ok None)) /\
  (truthy country_code = true ->
   calls run = [HttpGet url params []] /\
   (http w url params [] = HttpError -> result run = Ok None) /\
   (forall code, result run = Ok (Some code) ->
      exists data first v rest,
        http w url params [] = HttpJson data /\
        py_item0 data = Ok first /\
        py_get first (u8 "currencies") PyNone = Ok (PyDict ((code, v) :: rest)))).
Proof.
  cbv zeta. unfold get_currency_code. split.
  - intros ->. reflexivity.
  - intros ->. cbn [negb].
    unfold http_get, bind, calls, result, lift, ret, request_outcome.
    replace (params_encodable [(u8 "fields", u8 "currencies")]) with true
      by (vm_compute; reflexivity).
    destruct (http w _ _ _) as [|data|] eqn:Hhttp;
      [| |cbn [fst snd]; split; [reflexivity|]; split; [discriminate|];
          intros code [=]].
    + cbn [fst snd]. split; [reflexivity|]. split; [reflexivity|].
      intros code [=].
    + destruct (currency_of_json data) as [r|e] eqn:Hjson; cbn [fst snd app].
      * split; [reflexivity|]. split; [discriminate|].
        intros code [= ->]. unfold currency_of_json in Hjson.
        destruct (truthy data); [|discriminate]. cbn [negb] in Hjson.
        destruct (py_item0 data) as [first|] eqn:E1; [|discriminate].
        cbn [res_bind] in Hjson.
        destruct (py_get first (u8 "currencies") PyNone) as [cur|] eqn:E2;
          [|discriminate].
        cbn [res_bind] in Hjson.
        destruct (truthy cur); [|discriminate]. cbn [negb] in Hjson.
        destruct cur as [| | | | | |[|[k v] rest]]; try discriminate.
        injection Hjson as <-. exists data, first, v, rest. auto.
      * split; [reflexivity|]. split; [discriminate|]. intros code [=].
Qed.

(** [[{"currencies": {"EUR": {...}, "CHF": {...}}}]] for the country FR. *)
Lemma get_currency_code_spec_witness :
  let w :=
    world_with []
      (provider_at (COUNTRIES_URL ++ u8 "FR")
         (PyList [PyDict [(u8 "currencies",
                           PyDict [(u8 "EUR", PyDict []);
                                   (u8 "CHF", PyDict [])])]]))
      (GenText None) in
  get_currency_code w PyNone = ([], Ok None) /\
  calls (get_currency_code w (PyStr (u8 "FR")))
  = [HttpGet (COUNTRIES_URL ++ u8 "FR") [(u8 "fields", u8 "currencies")] []] /\
  result (get_currency_code w (PyStr (u8 "FR"))) = Ok (Some (u8 "EUR")).
Proof.
  intros w. split; [|split].
  - apply (proj1 (get_currency_code_spec w PyNone)). reflexivity.
  - apply (proj2 (get_currency_code_spec w (PyStr (u8 "FR")))).
    vm_compute. reflexivity.
  - vm_compute. reflexivity.
Defined.

Lemma format_float_whole (f : spec_float) :
  format_float_f false 0 f = whole_text f.
Proof.
  destruct f as [s|s| |s m e].
  - destruct s; vm_compute; reflexivity.
  - destruct s; vm_compute; reflexivity.
  - vm_compute. reflexivity.
  - unfold format_float_f, whole_text.
    change (10 ^ N.of_nat 0)%N with 1%N.
    rewrite N.div_1_r, app_nil_r. reflexivity.
Qed.

Lemma py_format_whole (v : pyval) :
  py_format_f false 0 v
  = match rate_value v with
    | Ok f => Ok (whole_text f)
    | Raise e => Raise e
    end.
Proof.
  destruct v as [|b|n|f|s|l|d]; cbn [py_format_f rate_value];
    try reflexivity.
  - destruct (int_to_float _); cbn [res_bind];
      [rewrite format_float_whole|]; reflexivity.
  - destruct (int_to_float _); cbn [res_bind];
      [rewrite format_float_whole|]; reflexivity.
  - rewrite format_float_whole. reflexivity.
Qed.

(** X8: for present weather data the weather section is never absent.  Its
    label is fixed.  Its value is the temperature, rounded to a whole number
    (ties to even) and followed by the unit; without a temperature it is the
    summary, and without a summary a placeholder; it is never empty.  Its
    description joins the summary, the felt temperature as a whole number
    and the humidity, each when there is one, and is absent exactly when
    there is none of them.  The section fails exactly when the temperature
    or the felt temperature is present and no number: a string, a list or an
    object, or an [int] beyond the float range. *)
Theorem format_weather_section_present (w : World) (wd : WeatherData) :
  match whole_reading (temperature wd), whole_reading (feels_like wd) with
  | Raise e, _ => format_weather_section w (Some wd) = Raise e
  | Ok _, Raise e => format_weather_section w (Some wd) = Raise e
  | Ok temp, Ok feels =>
      format_weather_section w (Some wd)
      = Ok (Some (weather_panel w wd temp feels))
  end /\
  (forall temp feels,
      PanelSection.value (weather_panel w wd temp feels) <> [] /\
      (PanelSection.description (weather_panel w wd temp feels) = None <->
       summary wd = [] /\ feels = None /\ is_none (humidity wd) = true)) /\
  (forall m e,
      nearest_scaled m e 0 (scaled_round m e 0) /\
      ties_even m e 0 (scaled_round m e 0)).
Proof.
  split; [|split].
  - cbn [format_weather_section]. unfold whole_reading.
    rewrite !py_format_whole.
    destruct (is_none (temperature wd)); cbn [negb];
      [|destruct (rate_value (temperature wd)) as [ft|et];
        cbn [res_bind]; [|reflexivity]];
      (destruct (is_none (feels_like wd)); cbn [negb];
       [|destruct (rate_value (feels_like wd)) as [ff|ef];
         cbn [res_bind]; [|reflexivity]]);
      unfold weather_panel, weather_parts;
      destruct (is_none (humidity wd)); cbn [negb];
      rewrite ?app_nil_r, <- ?app_assoc; reflexivity.
  - intros temp feels. unfold weather_panel, weather_parts.
    cbn [PanelSection.value PanelSection.description]. split.
    + destruct temp as [t|]; [destruct t; discriminate|].
      destruct (summary wd); [vm_compute|]; discriminate.
    + destruct (summary wd) as [|c s]; cbn [str_truthy app].
      * destruct feels as [t|]; cbn [app].
        -- split; [discriminate | intros (_ & ? & _); discriminate].
        -- destruct (is_none (humidity wd)).
           ++ split; auto.
           ++ split; [discriminate | intros (_ & _ & ?); discriminate].
      * split; [discriminate | intros (? & _); discriminate].
  - intros m e. split; [apply scaled_round_nearest|].
    apply scaled_round_ties_even.
Qed.

(** * Further properties: the chat endpoint *)

Lemma gets_app (a b : list Call) : gets (a ++ b) = gets a ++ gets b.
Proof. apply flat_map_app. Qed.

Lemma sublist_option (u : pystr) (l rest us : list pystr) :
  l = [] \/ l = [u] -> sublist rest us -> sublist (l ++ rest) (u :: us).
Proof.
  intros [-> | ->] H; [apply sublist_cons | apply sublist_skip]; exact H.
Qed.

(** X9: without a model credential the chat endpoint answers 500 before it
    contacts any provider, whatever the question and the stored history. *)
Theorem plan_trip_needs_credential (w : World) (st : Store)
    (payload : PlanRequest.t) :
  env_key w (u8 "GEMINI_API_KEY") = None ->
  env_key w (u8 "GOOGLE_API_KEY") = None ->
  plan_trip w st payload = ([], Raise (HTTPException 500)).
Proof.
  intros H1 H2. unfold plan_trip, _get_gemini_model. rewrite H1, H2.
  reflexivity.
Qed.

(** An empty environment. *)
Lemma plan_trip_needs_credential_witness :
  plan_trip (world_with [] (fun _ => HttpError) (GenText (Some (u8 "Hola"))))
    empty_store paris_request
  = ([], Raise (HTTPException 500)).
Proof.
  apply plan_trip_needs_credential; vm_compute; reflexivity.
Defined.

(** X10: when the language model fails the chat endpoint never answers with
    a plan.  With the providers unreachable it answers 502 after at most the
    weather and the photo request and one model call, unless the place or
    the credential of one of these requests cannot be encoded: then the
    encoding error of that request is raised and the model is not called.
    Without provider credentials it answers 502 after the model call alone. *)
Theorem plan_trip_model_failure (w : World) (st : Store)
    (payload : PlanRequest.t) :
  (forall m c, gemini w m c = GenError) ->
  (forall log r, plan_trip w st payload <> (log, Ok r)) /\
  (forall model,
      _get_gemini_model w = Ok model ->
      (forall u p h, http w u p h = HttpError) ->
      exists https,
        forallb is_get https = true /\ (length https <= 2)%nat /\
        ((exists contents,
             plan_trip w st payload
             = (https ++ [Generate model contents], Raise (HTTPException 502)))
         \/
         (plan_trip w st payload = (https, Raise UnicodeEncodeError) /\
          exists url params headers,
            last https = Some (HttpGet url params headers) /\
            params_encodable params = false))) /\
  (forall model,
      _get_gemini_model w = Ok model ->
      env_key w (u8 "OPENWEATHER_API_KEY") = None ->
      env_key w (u8 "UNSPLASH_ACCESS_KEY") = None ->
      exists contents,
        plan_trip w st payload
        = ([Generate model contents], Raise (HTTPException 502))).
Proof.
  intros Hgen. split; [|split].
  - intros log [resp st'] H. open_plan_trip H.
    destruct H as (_ & _ & _ & _ & _ & _ & _ & _ & _ & Hg & _).
    rewrite Hgen in Hg. discriminate.
  - intros model Hm Hdown.
    destruct (adapters_degrade_on_http_error w Hdown) as (Hw & Hp & _).
    destruct (extract_field_total (PlanRequest.pregunta payload)
                (u8 "Destino deseado")) as [extracted He].
    set (dest := chosen_destino extracted
                   (store_get (conversation_store st)
                      (session_key (PlanRequest.session_id payload)))).
    assert (forallb is_get (calls (get_weather_data w dest)) = true /\
            (length (calls (get_weather_data w dest)) <= 1)%nat) as [Gw Lw].
    { destruct (get_weather_data_calls w dest) as [-> | (k & d & _ & _ & ->)];
        split; simpl; solve [reflexivity | lia]. }
    assert (forallb is_get (calls (get_destination_photos w dest)) = true /\
            (length (calls (get_destination_photos w dest)) <= 1)%nat)
      as [Gp Lp].
    { destruct (get_destination_photos_calls w dest)
        as [-> | (k & d & _ & _ & ->)];
        split; simpl; solve [reflexivity | lia]. }
    destruct (Hw dest) as [Rw | (Rw & u & p & h & Cw & Ew)].
    + destruct (Hp dest) as [Rp | (Rp & u & p & h & Cp & Ep)].
      * eassert (plan_trip w st payload = (_, Raise (HTTPException 502))) as E.
        { unfold plan_trip.
          eapply bind_step; [unfold lift; rewrite Hm; reflexivity|]. cbv beta.
          eapply bind_step;
            [unfold lift, extract_destino; rewrite He; reflexivity|]. cbv beta.
          fold (chosen_destino extracted
                  (store_get (conversation_store st)
                     (session_key (PlanRequest.session_id payload)))).
          fold dest.
          eapply bind_step; [exact (run_of _ _ Rw)|]. cbv beta.
          eapply bind_step; [exact (run_of _ _ Rp)|]. cbv beta.
          eapply bind_step; [reflexivity|]. cbv beta.
          eapply bind_step; [reflexivity|]. cbv beta.
          eapply bind_step; [reflexivity|]. cbv beta.
          eapply bind_step; [reflexivity|]. cbv beta.
          eapply bind_step; [reflexivity|]. cbv beta.
          unfold bind. rewrite Hgen. reflexivity. }
        cbn [app] in E.
        exists (calls (get_weather_data w dest)
                ++ calls (get_destination_photos w dest)).
        rewrite forallb_app, Gw, Gp, length_app.
        split; [reflexivity|]. split; [lia|]. left. eexists.
        rewrite E, <- app_assoc. reflexivity.
      * eassert (plan_trip w st payload = (_, Raise UnicodeEncodeError)) as E.
        { unfold plan_trip.
          eapply bind_step; [unfold lift; rewrite Hm; reflexivity|]. cbv beta.
          eapply bind_step;
            [unfold lift, extract_destino; rewrite He; reflexivity|]. cbv beta.
          fold (chosen_destino extracted
                  (store_get (conversation_store st)
                     (session_key (PlanRequest.session_id payload)))).
          fold dest.
          eapply bind_step; [exact (run_of _ _ Rw)|]. cbv beta.
          apply bind_raise_eq. rewrite <- Rp. apply run_eta. }
        cbn [app] in E.
        exists (calls (get_weather_data w dest)
                ++ calls (get_destination_photos w dest)).
        rewrite forallb_app, Gw, Gp, length_app.
        split; [reflexivity|]. split; [lia|]. right.
        split; [exact E|]. exists u, p, h. rewrite Cp, last_snoc. auto.
    + eassert (plan_trip w st payload = (_, Raise UnicodeEncodeError)) as E.
      { unfold plan_trip.
        eapply bind_step; [unfold lift; rewrite Hm; reflexivity|]. cbv beta.
        eapply bind_step;
          [unfold lift, extract_destino; rewrite He; reflexivity|]. cbv beta.
        fold (chosen_destino extracted
                (store_get (conversation_store st)
                   (session_key (PlanRequest.session_id payload)))).
        fold dest.
        apply bind_raise_eq. rewrite <- Rw. apply run_eta. }
      cbn [app] in E.
      exists (calls (get_weather_data w dest)).
      split; [exact Gw|]. split; [lia|]. right.
      split; [exact E|]. exists u, p, h. rewrite Cw. auto.
  - intros model Hm Hkw Hkp.
    destruct (extract_field_total (PlanRequest.pregunta payload)
                (u8 "Destino deseado")) as [extracted He].
    eassert (plan_trip w st payload = (_, Raise (HTTPException 502))) as E.
    { unfold plan_trip.
      eapply bind_step; [unfold lift; rewrite Hm; reflexivity|]. cbv beta.
      eapply bind_step;
        [unfold lift, extract_destino; rewrite He; reflexivity|]. cbv beta.
      eapply bind_step;
        [unfold get_weather_data; rewrite Hkw; reflexivity|]. cbv beta.
      eapply bind_step;
        [unfold get_destination_photos; rewrite Hkp; reflexivity|]. cbv beta.
      eapply bind_step; [reflexivity|]. cbv beta.
      eapply bind_step; [reflexivity|]. cbv beta.
      eapply bind_step; [reflexivity|]. cbv beta.
      eapply bind_step; [reflexivity|]. cbv beta.
      eapply bind_step; [reflexivity|]. cbv beta.
      unfold bind. rewrite Hgen. reflexivity. }
    cbn [app] in E. eexists. exact E.
Qed.

(** The model is down and so are the providers. *)
Lemma plan_trip_model_failure_witness :
  exists contents,
    plan_trip (offline_world GenError) empty_store paris_request
    = ([Generate (u8 "gemini-1.5-flash") contents], Raise (HTTPException 502)).
Proof.
  apply (proj2 (proj2 (plan_trip_model_failure (offline_world GenError)
                         empty_store paris_request (fun _ _ => eq_refl)))).
  - vm_compute. reflexivity.
  - vm_compute. reflexivity.
  - vm_compute. reflexivity.
Defined.

(** X11: the outbound calls of a successful chat turn are at most one request
    to each of the weather, photo, country and rate providers, in that
    order, followed by exactly one call of the configured model; the prompt
    starts with the fixed instructions and the question. *)
Theorem plan_trip_calls (w : World) (st : Store) (payload : PlanRequest.t)
    (log : list Call) (resp : PlanResponse.t) (st' : Store) :
  plan_trip w st payload = (log, Ok (resp, st')) ->
  exists https model tail country base,
    log = https
          ++ [Generate model
                [INTRO; PROMPT_HEAD ++ PlanRequest.pregunta payload ++ tail]] /\
    _get_gemini_model w = Ok model /\
    forallb is_get https = true /\
    sublist (gets https)
      [WEATHER_URL; PHOTOS_URL; COUNTRIES_URL ++ country; RATES_URL ++ base].
Proof.
  intros H. open_plan_trip H.
  destruct H as (Hm & _ & Hw & Hp & Hc & Hx & _ & _ & _ & _ & -> & _ & _).
  apply (f_equal calls) in Hw, Hp, Hc, Hx. cbn [calls fst] in Hw, Hp, Hc, Hx.
  exists (lw ++ lp ++ lc ++ lx), model.
  exists (history_text
            (store_get (conversation_store st)
               (session_key (PlanRequest.session_id payload))) ++ wt).
  eexists. eexists.
  split; [unfold contents_of, INTRO; rewrite <- !app_assoc; reflexivity|].
  split; [exact Hm|].
  set (dest := chosen_destino extracted
                 (store_get (conversation_store st)
                    (session_key (PlanRequest.session_id payload)))) in *.
  assert (forallb is_get lw = true /\ (gets lw = [] \/ gets lw = [WEATHER_URL]))
    as [Gw Sw].
  { destruct (get_weather_data_calls w dest) as [E | (k & d & _ & _ & E)];
      rewrite Hw in E; rewrite E; (split; [reflexivity|]); [left|right]; reflexivity. }
  assert (forallb is_get lp = true /\ (gets lp = [] \/ gets lp = [PHOTOS_URL]))
    as [Gp Sp].
  { destruct (get_destination_photos_calls w dest)
      as [E | (k & d & _ & _ & E)];
      rewrite Hp in E; rewrite E; (split; [reflexivity|]); [left|right]; reflexivity. }
  set (code := match wd with Some wd0 => country wd0 | None => PyNone end) in *.
  assert (forallb is_get lc = true /\
          (gets lc = [] \/ gets lc = [COUNTRIES_URL ++ py_str w code]))
    as [Gc Sc].
  { destruct (get_currency_code_calls w code) as [E | E];
      rewrite Hc in E; rewrite E; (split; [reflexivity|]); [left|right]; reflexivity. }
  assert (forallb is_get lx = true /\
          (gets lx = [] \/
           gets lx = [RATES_URL
                      ++ py_upper w
                           (getenv_default w (u8 "HOME_CURRENCY") (u8 "USD"))]))
    as [Gx Sx].
  { destruct (get_exchange_rate_calls w cc) as [E | E];
      rewrite Hx in E; rewrite E; (split; [reflexivity|]); [left|right]; reflexivity. }
  split.
  - rewrite !forallb_app, Gw, Gp, Gc, Gx. reflexivity.
  - rewrite !gets_app.
    apply sublist_option; [exact Sw|].
    apply sublist_option; [exact Sp|].
    apply sublist_option; [exact Sc|].
    rewrite <- (app_nil_r (gets lx)).
    apply sublist_option; [exact Sx|]. constructor.
Qed.

(** A first question, with the providers down. *)
Lemma plan_trip_calls_witness :
  let w := offline_world (GenText (Some (u8 "Hola"))) in
  exists log resp st' https model tail,
    plan_trip w empty_store paris_request = (log, Ok (resp, st')) /\
    log = https
          ++ [Generate model
                [INTRO;
                 PROMPT_HEAD ++ PlanRequest.pregunta paris_request ++ tail]] /\
    forallb is_get https = true.
Proof.
  intros w.
  destruct (plan_trip w empty_store paris_request) as [log [[resp st']|e]] eqn:E;
    [|vm_compute in E; discriminate].
  destruct (plan_trip_calls w empty_store paris_request log resp st' E)
    as (https & model & tail & c & b & H1 & _ & H2 & _).
  exists log, resp, st', https, model, tail. auto.
Defined.

(** X12: a successful chat turn changes nothing but the history of its own
    session: the favorites and the histories of all other sessions stay as
    they were; the response reports the history that was stored and the
    favorites of the session as the favorites endpoint lists them. *)
Theorem plan_trip_frame (w : World) (st : Store) (payload : PlanRequest.t)
    (log : list Call) (resp : PlanResponse.t) (st' : Store) :
  plan_trip w st payload = (log, Ok (resp, st')) ->
  let sid := session_key (PlanRequest.session_id payload) in
  favorites_store st' = favorites_store st /\
  (forall other, other <> sid ->
     conversation_store st' !! other = conversation_store st !! other) /\
  conversation_store st' !! sid = Some (PlanResponse.history resp) /\
  PlanResponse.favorites resp
  = FavoritesResponse.favorites (list_favorites st' sid).
Proof.
  intros H sid. open_plan_trip H.
  destruct H as (_ & _ & _ & _ & _ & _ & _ & _ & _ & _ & _ & -> & ->).
  cbn [favorites_store conversation_store PlanResponse.history
       PlanResponse.favorites list_favorites FavoritesResponse.favorites].
  split; [reflexivity|]. split; [|split].
  - intros other Hne. apply lookup_insert_ne. exact (not_eq_sym Hne).
  - apply lookup_insert_eq.
  - reflexivity.
Qed.

(** A follow-up question leaves another session alone. *)
Lemma plan_trip_frame_witness :
  let w := offline_world (GenText (Some (u8 "Hola"))) in
  let st := plan_step empty_store (w, paris_request) in
  exists log resp st',
    plan_trip w st
      {| PlanRequest.pregunta := u8 "Hola"; PlanRequest.session_id := None |}
    = (log, Ok (resp, st')) /\
    conversation_store st' !! u8 "s1" = conversation_store st !! u8 "s1" /\
    conversation_store st' !! u8 "anon" = Some (PlanResponse.history resp).
Proof.
  intros w st.
  destruct (plan_trip w st
              {| PlanRequest.pregunta := u8 "Hola";
                 PlanRequest.session_id := None |})
    as [log [[resp st']|e]] eqn:E; [|vm_compute in E; discriminate].
  exists log, resp, st'. split; [reflexivity|].
  destruct (plan_trip_frame w st _ log resp st' E) as (_ & Hother & Hown & _).
  split; [|exact Hown].
  apply Hother. vm_compute. discriminate.
Defined.

Lemma last_n_nonempty {A} (n : nat) (l : list A) (x : A) :
  last_n (S n) (l ++ [x]) <> [].
Proof.
  intros E. pose proof (last_n_snoc_last n l x) as H. rewrite E in H.
  discriminate.
Qed.

(** A chat turn or a saved favorite keeps the stored histories well formed. *)
Lemma api_step_histories_ok (st : Store) (r : Request) :
  histories_ok st -> histories_ok (api_step st r).
Proof.
  intros Hst. destruct r as [w payload | payload]; cbn [api_step].
  - unfold plan_step. cbn [fst snd].
    destruct (plan_trip w st payload) as [log [[resp st']|e]] eqn:E;
      [|exact Hst].
    open_plan_trip E.
    destruct E as (_ & _ & _ & _ & _ & _ & _ & _ & _ & _ & _ & _ & ->).
    intros sid h. cbn [conversation_store].
    set (key := session_key (PlanRequest.session_id payload)).
    destruct (decide (sid = key)) as [->|Hne].
    + rewrite lookup_insert_eq. intros [= <-].
      split; [apply (last_n_nonempty 9)|].
      split; [apply last_n_length|].
      unfold last_n. apply Forall_drop. apply Forall_app. split.
      * unfold store_get.
        destruct (conversation_store st !! key) as [h0|] eqn:L;
          [|constructor].
        exact (proj2 (proj2 (Hst key h0 L))).
      * constructor; [|constructor].
        exists (answer_of completion). split; [reflexivity|].
        apply answer_of_words.
    + rewrite lookup_insert_ne by exact (not_eq_sym Hne). apply Hst.
  - unfold save_favorite.
    destruct (negb _ || negb _); [exact Hst|]. exact Hst.
Qed.

(** X13: in every state the two endpoints can reach from a fresh process,
    each stored conversation is non-empty and holds at most ten entries, and
    every entry carries an answer with at least one word. *)
Theorem histories_always_ok (rs : list Request) :
  histories_ok (run_requests rs).
Proof.
  unfold run_requests.
  assert (histories_ok empty_store) as H0.
  { intros sid h. cbn [empty_store conversation_store].
    rewrite lookup_empty. discriminate. }
  revert H0. generalize empty_store.
  induction rs as [|r rs IH]; intros st Hst; [exact Hst|].
  cbn [fold_left]. apply IH, api_step_histories_ok, Hst.
Qed.

(** X14: a question that names a destination overrides the stored one: the
    weather and the photos are looked up for the named destination,
    whatever the history of the session holds, and the new history entry
    records it. *)
Theorem plan_trip_explicit_destino (w : World) (st : Store)
    (payload : PlanRequest.t) (log : list Call) (resp : PlanResponse.t)
    (st' : Store) (d : pystr) :
  plan_trip w st payload = (log, Ok (resp, st')) ->
  extract_destino (PlanRequest.pregunta payload) = Ok (Some d) ->
  d <> [] /\
  (exists entry,
      last (PlanResponse.history resp) = Some entry /\
      HistoryEntry.destino entry = Some d) /\
  (exists lw lp weather_data rest,
      get_weather_data w (Some d) = (lw, Ok weather_data) /\
      get_destination_photos w (Some d) = (lp, Ok (PlanResponse.fotos resp)) /\
      log = lw ++ lp ++ rest).
Proof.
  intros H Hd.
  assert (d <> []) as Hne.
  { apply extract_field_found in Hd as (_ & _ & _ & _ & _ & _ & _ & H'). exact H'. }
  open_plan_trip H.
  destruct H as (_ & He & Hw & Hp & _ & _ & _ & _ & _ & _ & -> & -> & _).
  rewrite Hd in He. injection He as <-.
  assert (chosen_destino (Some d)
            (store_get (conversation_store st)
               (session_key (PlanRequest.session_id payload))) = Some d) as Hc.
  { unfold chosen_destino. destruct (last _); [|reflexivity].
    destruct d; [contradiction | reflexivity]. }
  rewrite Hc in *. split; [exact Hne|]. split.
  - eexists. cbn [PlanResponse.history]. split; [apply (last_n_snoc_last 9)|].
    reflexivity.
  - exists lw, lp, wd, (lc ++ lx ++ [Generate model
      (contents_of payload
         (store_get (conversation_store st)
            (session_key (PlanRequest.session_id payload))) wt)]).
    cbn [PlanResponse.fotos]. auto.
Qed.

(** A session about Paris asks about Rome. *)
Lemma plan_trip_explicit_destino_witness :
  let w := offline_world (GenText (Some (u8 "Hola"))) in
  let st := plan_step empty_store (w, paris_request) in
  let rome :=
    {| PlanRequest.pregunta := u8 "Destino deseado: Roma.";
       PlanRequest.session_id := Some (u8 "s1") |} in
  exists log resp st' entry,
    plan_trip w st rome = (log, Ok (resp, st')) /\
    last (PlanResponse.history resp) = Some entry /\
    HistoryEntry.destino entry = Some (u8 "Roma").
Proof.
  intros w st rome.
  destruct (plan_trip w st rome) as [log [[resp st']|e]] eqn:E;
    [|vm_compute in E; discriminate].
  assert (extract_destino (PlanRequest.pregunta rome) = Ok (Some (u8 "Roma")))
    as Hd by (vm_compute; reflexivity).
  destruct (plan_trip_explicit_destino w st rome log resp st' (u8 "Roma") E Hd)
    as (_ & (entry & Hl & He) & _).
  exists log, resp, st', entry. auto.
Defined.

(** * Further properties: favorites *)

Lemma str_in_spec (x : pystr) (l : list pystr) :
  str_in x l = true <-> In x l.
Proof.
  unfold str_in. rewrite existsb_exists. split.
  - intros (y & Hy & E). unfold pystr_eqb in E.
    apply bool_decide_eq_true in E. subst y. exact Hy.
  - intros H. exists x. split; [exact H|].
    unfold pystr_eqb. apply bool_decide_eq_true. reflexivity.
Qed.

Lemma str_strip_idem (s : pystr) : str_strip (str_strip s) = str_strip s.
Proof. apply clean_strip, strip_by_clean. Qed.

Lemma str_truthy_false (s : pystr) : str_truthy s = false <-> s = [].
Proof. destruct s; simpl; split; congruence. Qed.

Lemma store_get_insert {A} (m : gmap pystr (list A)) (k : pystr) (v : list A) :
  store_get (<[k := v]> m) k = v.
Proof. unfold store_get. rewrite lookup_insert_eq. reflexivity. Qed.

(** What [save_favorite] does when both fields are given. *)
Lemma save_favorite_ok (st : Store) (payload : FavoriteRequest.t) :
  let sid := str_strip (FavoriteRequest.session_id payload) in
  let d := str_strip (FavoriteRequest.destino payload) in
  let old := store_get (favorites_store st) sid in
  let new := if str_in d old then old else old ++ [d] in
  sid <> [] -> d <> [] ->
  save_favorite st payload
  = Ok ({| FavoritesResponse.favorites := new |},
        {| conversation_store := conversation_store st;
           favorites_store := <[sid := new]> (favorites_store st) |}).
Proof.
  intros sid d old new Hs Hd. unfold save_favorite.
  fold sid. fold d. fold old.
  destruct sid; [contradiction|]. destruct d; [contradiction|].
  cbn [str_truthy negb orb]. unfold new.
  destruct (str_in _ old); reflexivity.
Qed.

Lemma save_favorite_raise (st : Store) (payload : FavoriteRequest.t) :
  str_strip (FavoriteRequest.session_id payload) = [] \/
  str_strip (FavoriteRequest.destino payload) = [] ->
  save_favorite st payload = Raise (HTTPException 400).
Proof.
  intros H. unfold save_favorite.
  destruct H as [-> | ->]; [reflexivity|].
  destruct (str_strip (FavoriteRequest.session_id payload)); reflexivity.
Qed.

(** X15: saving a favorite fails with 400 exactly when the session id or the
    destination is blank; otherwise the trimmed destination is appended to
    the favorites of the trimmed session id unless it is already there, the
    earlier favorites keep their order, the response is what the listing
    endpoint then returns, and nothing else in the stores changes. *)
Theorem save_favorite_spec (st : Store) (payload : FavoriteRequest.t) :
  let sid := str_strip (FavoriteRequest.session_id payload) in
  let d := str_strip (FavoriteRequest.destino payload) in
  let old := FavoritesResponse.favorites (list_favorites st sid) in
  (sid = [] \/ d = [] <-> save_favorite st payload = Raise (HTTPException 400)) /\
  (sid <> [] -> d <> [] ->
   exists st',
     save_favorite st payload = Ok (list_favorites st' sid, st') /\
     (In d old -> FavoritesResponse.favorites (list_favorites st' sid) = old) /\
     (~ In d old ->
      FavoritesResponse.favorites (list_favorites st' sid) = old ++ [d]) /\
     conversation_store st' = conversation_store st /\
     forall other, other <> sid ->
       favorites_store st' !! other = favorites_store st !! other).
Proof.
  intros sid d old. split.
  - split; [apply save_favorite_raise|].
    intros H. destruct (decide (sid = [])) as [|Hs]; [left; assumption|].
    destruct (decide (d = [])) as [|Hd]; [right; assumption|].
    rewrite (save_favorite_ok st payload Hs Hd) in H. discriminate.
  - intros Hs Hd. rewrite (save_favorite_ok st payload Hs Hd).
    fold sid. fold d.
    change (store_get (favorites_store st) sid) with old.
    set (new := if str_in d old then old else old ++ [d]).
    exists {| conversation_store := conversation_store st;
              favorites_store := <[sid := new]> (favorites_store st) |}.
    assert (list_favorites
              {| conversation_store := conversation_store st;
                 favorites_store := <[sid := new]> (favorites_store st) |}
              sid
            = {| FavoritesResponse.favorites := new |}) as ->.
    { unfold list_favorites, store_get. cbn [favorites_store].
      rewrite lookup_insert_eq. reflexivity. }
    cbn [FavoritesResponse.favorites]. unfold new.
    split; [reflexivity|]. split; [|split; [|split]].
    + intros Hin. apply str_in_spec in Hin. rewrite Hin. reflexivity.
    + intros Hin. destruct (str_in d old) eqn:E; [|reflexivity].
      apply str_in_spec in E. contradiction.
    + reflexivity.
    + intros other Hne. cbn [favorites_store].
      apply lookup_insert_ne. exact (not_eq_sym Hne).
Qed.

(** A first favorite, sent with surrounding blanks. *)
Lemma save_favorite_spec_witness :
  let payload :=
    {| FavoriteRequest.session_id := u8 " s1 ";
       FavoriteRequest.destino := u8 "  Paris " |} in
  exists st',
    save_favorite empty_store payload = Ok (list_favorites st' (u8 "s1"), st') /\
    FavoritesResponse.favorites (list_favorites st' (u8 "s1")) = [u8 "Paris"].
Proof.
  intros payload.
  assert (str_strip (FavoriteRequest.session_id payload) <> []) as Hs
    by (vm_compute; discriminate).
  assert (str_strip (FavoriteRequest.destino payload) <> []) as Hd
    by (vm_compute; discriminate).
  destruct (proj2 (save_favorite_spec empty_store payload) Hs Hd)
    as (st' & H1 & _ & H2 & _).
  exists st'.
  change (str_strip (FavoriteRequest.session_id payload)) with (u8 "s1")
    in H1, H2.
  split; [exact H1|]. rewrite H2; [vm_compute; reflexivity|].
  vm_compute. intros [].
Defined.

(** X16: saving is idempotent: after a favorite was saved, saving the same
    destination for the same session again, with whatever surrounding
    whitespace, returns the same list and leaves the stores as they are. *)
Theorem save_favorite_idempotent (st st' : Store)
    (payload again : FavoriteRequest.t) (r : FavoritesResponse.t) :
  save_favorite st payload = Ok (r, st') ->
  str_strip (FavoriteRequest.session_id again)
  = str_strip (FavoriteRequest.session_id payload) ->
  str_strip (FavoriteRequest.destino again)
  = str_strip (FavoriteRequest.destino payload) ->
  save_favorite st' again = Ok (r, st').
Proof.
  intros H Hsid Hd.
  destruct (decide (str_strip (FavoriteRequest.session_id payload) = []))
    as [E|Hs]; [rewrite save_favorite_raise in H by auto; discriminate|].
  destruct (decide (str_strip (FavoriteRequest.destino payload) = []))
    as [E|Hd']; [rewrite save_favorite_raise in H by auto; discriminate|].
  rewrite (save_favorite_ok st payload Hs Hd') in H. injection H as <- <-.
  rewrite save_favorite_ok by congruence.
  rewrite Hsid, Hd. cbn [favorites_store conversation_store].
  rewrite !store_get_insert.
  set (sid := str_strip (FavoriteRequest.session_id payload)).
  set (d := str_strip (FavoriteRequest.destino payload)).
  set (old := store_get (favorites_store st) sid).
  assert (str_in d (if str_in d old then old else old ++ [d]) = true) as ->.
  { destruct (str_in d old) eqn:E; [exact E|].
    apply str_in_spec, in_or_app. right. left. reflexivity. }
  rewrite insert_insert_eq. reflexivity.
Qed.

(** The same favorite, sent twice. *)
Lemma save_favorite_idempotent_witness :
  let first :=
    {| FavoriteRequest.session_id := u8 "s1";
       FavoriteRequest.destino := u8 "Paris" |} in
  let again :=
    {| FavoriteRequest.session_id := u8 " s1";
       FavoriteRequest.destino := u8 "Paris  " |} in
  exists r st',
    save_favorite empty_store first = Ok (r, st') /\
    save_favorite st' again = Ok (r, st') /\
    FavoritesResponse.favorites r = [u8 "Paris"].
Proof.
  intros first again.
  destruct (save_favorite empty_store first) as [[r st']|e] eqn:E;
    [|vm_compute in E; discriminate].
  exists r, st'. split; [reflexivity|]. split.
  - apply (save_favorite_idempotent empty_store st' first again r E);
      vm_compute; reflexivity.
  - vm_compute in E. injection E as <- _. reflexivity.
Defined.

(** A request keeps the stored favorites well formed. *)
Lemma api_step_favorites_ok (st : Store) (r : Request) :
  favorites_ok st -> favorites_ok (api_step st r).
Proof.
  intros Hst. destruct r as [w payload | payload]; cbn [api_step].
  - unfold plan_step. cbn [fst snd].
    destruct (plan_trip w st payload) as [log [[resp st']|e]] eqn:E;
      [|exact Hst].
    open_plan_trip E.
    destruct E as (_ & _ & _ & _ & _ & _ & _ & _ & _ & _ & _ & _ & ->).
    exact Hst.
  - destruct (decide (str_strip (FavoriteRequest.session_id payload) = []))
      as [E|Hs]; [rewrite save_favorite_raise by auto; exact Hst|].
    destruct (decide (str_strip (FavoriteRequest.destino payload) = []))
      as [E|Hd]; [rewrite save_favorite_raise by auto; exact Hst|].
    rewrite (save_favorite_ok st payload Hs Hd).
    set (sid := str_strip (FavoriteRequest.session_id payload)) in *.
    set (d := str_strip (FavoriteRequest.destino payload)) in *.
    set (old := store_get (favorites_store st) sid).
    assert (NoDup old /\ Forall (fun d => d <> [] /\ str_strip d = d) old)
      as [Hnd Hall].
    { unfold old, store_get.
      destruct (favorites_store st !! sid) as [l|] eqn:L.
      - destruct (Hst sid l L) as (H1 & _ & _ & H2). auto.
      - split; constructor. }
    intros key l. cbn [favorites_store].
    destruct (decide (key = sid)) as [->|Hne].
    + rewrite lookup_insert_eq. intros [= <-].
      split; [|split; [apply str_strip_idem | split; [exact Hs|]]].
      * destruct (str_in d old) eqn:E; [exact Hnd|].
        apply NoDup_app. split; [exact Hnd|]. split; [|apply NoDup_singleton].
        intros x Hx Hx'. apply list_elem_of_singleton in Hx'. subst x.
        apply list_elem_of_In, str_in_spec in Hx. congruence.
      * destruct (str_in d old); [exact Hall|].
        apply Forall_app. split; [exact Hall|].
        constructor; [|constructor]. split; [exact Hd | apply str_strip_idem].
    + rewrite lookup_insert_ne by exact (not_eq_sym Hne). apply Hst.
Qed.

(** X17: in every state the two endpoints can reach from a fresh process,
    each stored list of favorites is free of duplicates and of blank or
    untrimmed names and is stored under a trimmed, non-empty session id; so
    listing the favorites of an empty session id, or of one with surrounding
    whitespace, gives nothing, whatever was saved. *)
Theorem favorites_always_ok (rs : list Request) :
  favorites_ok (run_requests rs) /\
  forall sid : pystr,
    sid = [] \/ str_strip sid <> sid ->
    FavoritesResponse.favorites (list_favorites (run_requests rs) sid) = [].
Proof.
  assert (favorites_ok (run_requests rs)) as Hok.
  { unfold run_requests.
    assert (favorites_ok empty_store) as H0.
    { intros sid h. cbn [empty_store favorites_store].
      rewrite lookup_empty. discriminate. }
    revert H0. generalize empty_store.
    induction rs as [|r rs IH]; intros st Hst; [exact Hst|].
    cbn [fold_left]. apply IH, api_step_favorites_ok, Hst. }
  split; [exact Hok|].
  intros sid Hsid. unfold list_favorites, store_get.
  cbn [FavoritesResponse.favorites].
  destruct (favorites_store (run_requests rs) !! sid) as [l|] eqn:L;
    [|reflexivity].
  destruct (Hok sid l L) as (_ & H1 & H2 & _).
  destruct Hsid; contradiction.
Qed.

(** X18: a favorite saved for a session shows up in the answer of the next
    chat turn of that session: the turn reports exactly the list the save
    returned, the saved destination included, and keeps it stored. *)
Theorem saved_favorite_in_plan (w : World) (st st1 st2 : Store)
    (fav : FavoriteRequest.t) (r : FavoritesResponse.t)
    (payload : PlanRequest.t) (log : list Call) (resp : PlanResponse.t) :
  save_favorite st fav = Ok (r, st1) ->
  PlanRequest.session_id payload
  = Some (str_strip (FavoriteRequest.session_id fav)) ->
  plan_trip w st1 payload = (log, Ok (resp, st2)) ->
  PlanResponse.favorites resp = FavoritesResponse.favorites r /\
  In (str_strip (FavoriteRequest.destino fav)) (PlanResponse.favorites resp) /\
  list_favorites st2 (str_strip (FavoriteRequest.session_id fav)) = r.
Proof.
  intros Hsave Hsid Hplan.
  destruct (decide (str_strip (FavoriteRequest.session_id fav) = []))
    as [E|Hs]; [rewrite save_favorite_raise in Hsave by auto; discriminate|].
  destruct (decide (str_strip (FavoriteRequest.destino fav) = []))
    as [E|Hd]; [rewrite save_favorite_raise in Hsave by auto; discriminate|].
  rewrite (save_favorite_ok st fav Hs Hd) in Hsave.
  injection Hsave as <- <-.
  open_plan_trip Hplan.
  destruct Hplan as (_ & _ & _ & _ & _ & _ & _ & _ & _ & _ & _ & -> & ->).
  rewrite Hsid.
  set (sid := str_strip (FavoriteRequest.session_id fav)) in *.
  set (d := str_strip (FavoriteRequest.destino fav)) in *.
  assert (session_key (Some sid) = sid) as ->
    by (destruct sid; [contradiction | reflexivity]).
  cbn [PlanResponse.favorites FavoritesResponse.favorites favorites_store
       list_favorites].
  unfold list_favorites. cbn [favorites_store]. rewrite !store_get_insert.
  split; [reflexivity|]. split; [|reflexivity].
  destruct (str_in d _) eqn:E; [apply str_in_spec; exact E|].
  apply in_or_app. right. left. reflexivity.
Qed.

(** Paris is saved, then a question is asked. *)
Lemma saved_favorite_in_plan_witness :
  let fav :=
    {| FavoriteRequest.session_id := u8 "s1";
       FavoriteRequest.destino := u8 "Paris" |} in
  let w := offline_world (GenText (Some (u8 "Hola"))) in
  exists r st1 log resp st2,
    save_favorite empty_store fav = Ok (r, st1) /\
    plan_trip w st1 paris_request = (log, Ok (resp, st2)) /\
    PlanResponse.favorites resp = FavoritesResponse.favorites r /\
    In (u8 "Paris") (PlanResponse.favorites resp).
Proof.
  intros fav w.
  destruct (save_favorite empty_store fav) as [[r st1]|e] eqn:E1;
    [|vm_compute in E1; discriminate].
  destruct (plan_trip w st1 paris_request) as [log [[resp st2]|e]] eqn:E2;
    [|vm_compute in E1; injection E1 as <- <-; vm_compute in E2;
      discriminate].
  exists r, st1, log, resp, st2. split; [reflexivity|]. split; [exact E2|].
  assert (PlanRequest.session_id paris_request
          = Some (str_strip (FavoriteRequest.session_id fav))) as Hsid
    by (vm_compute; reflexivity).
  destruct (saved_favorite_in_plan w empty_store st1 st2 fav r paris_request
              log resp E1 Hsid E2) as (H1 & H2 & _).
  split; [exact H1|].
  change (str_strip (FavoriteRequest.destino fav)) with (u8 "Paris") in H2.
  exact H2.
Defined.

(** * Further properties: the itinerary document *)

Lemma draw_header_eq (pdf : Canvas) :
  draw_header pdf = {| pages := pages pdf; page := page pdf ++ header_ops |}.
Proof.
  unfold draw_header, header_ops. cbn [fold_left]. unfold draw.
  cbn [pages page]. rewrite <- !app_assoc. reflexivity.
Qed.

(** The gallery loop fetches each URL it has a position for, once, and draws
    the ones that succeed. *)
Lemma draw_photos_run (w : World) (urls : list pyval) (xs : list Q) (y : Q)
    (pdf : Canvas) :
  draw_photos w urls xs y pdf
  = (map FetchImage (take (length xs) urls),
     Ok {| pages := pages pdf; page := page pdf ++ photo_ops w urls xs y |}).
Proof.
  revert xs pdf. induction urls as [|url urls IH]; intros xs pdf.
  - destruct pdf, xs; cbn; unfold ret; rewrite app_nil_r; reflexivity.
  - destruct xs as [|x xs].
    + destruct pdf; cbn; unfold ret; rewrite app_nil_r; reflexivity.
    + cbn [draw_photos photo_ops length take map]. unfold bind.
      rewrite IH. destruct (image_ok w url); cbn [draw pages page app].
      * rewrite <- app_assoc. reflexivity.
      * reflexivity.
Qed.

Lemma flow_start_eq (dest fechas : pystr) :
  (draw
     (DrawString 40%Q (page_height - 120 - 20 - 30)%Q
        (u8 "Resumen de la conversación"))
     (draw (SetFont (u8 "Helvetica-Bold") 13%Q)
        (draw
           (DrawString 40%Q (page_height - 120 - 20)%Q (u8 "Fechas: " ++ fechas))
           (draw
              (DrawString 40%Q (page_height - 120)%Q (u8 "Destino: " ++ dest))
              (draw (SetFont (u8 "Helvetica-Bold") 14%Q)
                 (draw_header new_canvas))))),
   beginText 40%Q (page_height - 120 - 20 - 30 - 16)%Q 11%Q)
  = flow_start dest fechas.
Proof.
  rewrite draw_header_eq. unfold draw, flow_start, title_ops.
  cbn [pages page new_canvas fst app]. rewrite <- !app_assoc.
  reflexivity.
Qed.

Lemma itinerary_destino_run (latest : HistoryEntry.t) :
  (if opt_truthy (HistoryEntry.destino latest)
   then ret (opt_str (HistoryEntry.destino latest))
   else
     do! d <- lift (extract_destino (HistoryEntry.pregunta latest));
     ret (or_default d (u8 "Destino no especificado")))
  = ([], Ok (itinerary_destino latest)).
Proof.
  unfold itinerary_destino.
  destruct (opt_truthy (HistoryEntry.destino latest)); [reflexivity|].
  destruct (extract_field_total (HistoryEntry.pregunta latest)
              (u8 "Destino deseado")) as [d Hd].
  unfold extract_destino. rewrite Hd. reflexivity.
Qed.

Lemma latin1_encodable_app (a b : pystr) :
  latin1_encodable (a ++ b) = latin1_encodable a && latin1_encodable b.
Proof. apply forallb_app. Qed.

(** The response can be built exactly when the first eight characters of the
    session id are Latin-1. *)
Lemma attachment_headers (session_id : pystr) :
  init_headers
    [(u8 "Content-Disposition",
      u8 "attachment; filename=" ++ [34%N]
      ++ (u8 "viajeia-itinerario-" ++ take 8 session_id ++ u8 ".pdf")
      ++ [34%N])]
  = if latin1_encodable (take 8 session_id) then Ok tt
    else Raise UnicodeEncodeError.
Proof.
  unfold init_headers. cbn [forallb fst snd].
  rewrite !latin1_encodable_app.
  assert (latin1_encodable (u8 "Content-Disposition") = true) as ->
    by (vm_compute; reflexivity).
  assert (latin1_encodable (u8 "attachment; filename=") = true) as ->
    by (vm_compute; reflexivity).
  assert (latin1_encodable (u8 "viajeia-itinerario-") = true) as ->
    by (vm_compute; reflexivity).
  assert (latin1_encodable (u8 ".pdf") = true) as ->
    by (vm_compute; reflexivity).
  assert (latin1_encodable [34%N] = true) as -> by reflexivity.
  cbn [andb]. rewrite !andb_true_r. reflexivity.
Qed.

(** The endpoint for a session with a history, in one equation: the photo
    search, then the pages of the conversation, then the gallery, then the
    response with its header. *)
Lemma download_itinerary_run (w : World) (st : Store) (session_id : pystr)
    (e : HistoryEntry.t) (es : list HistoryEntry.t) :
  conversation_store st !! session_id = Some (e :: es) ->
  let latest := List.last es e in
  let search := get_destination_photos w (Some (itinerary_destino latest)) in
  let flow :=
    fold_left flow_entry (e :: es)
      (flow_start (itinerary_destino latest) (itinerary_fechas latest)) in
  download_itinerary w st session_id
  = match result search with
    | Raise err => (calls search, Raise err)
    | Ok photos =>
        (calls search ++ gallery_calls photos,
         if latin1_encodable (take 8 session_id)
         then
           Ok {| doc_pages :=
                   all_pages (drawText (snd flow) (fst flow))
                   ++ gallery w photos;
                 filename := u8 "viajeia-itinerario-" ++ take 8 session_id
                               ++ u8 ".pdf" |}
         else Raise UnicodeEncodeError)
    end.
Proof.
  intros Hhist latest search flow. unfold download_itinerary. rewrite Hhist.
  pose proof (attachment_headers session_id) as Hh. cbn [app] in Hh.
  fold latest. rewrite itinerary_destino_run.
  eapply eq_trans; [apply bind_lift_ok|]. cbv beta.
  assert (extract_field (HistoryEntry.pregunta latest)
            (u8 "Fechas aproximadas")
          = Ok (match extract_field (HistoryEntry.pregunta latest)
                        (u8 "Fechas aproximadas") with
                | Ok f => f
                | Raise _ => None
                end)) as Hf.
  { destruct (extract_field_total (HistoryEntry.pregunta latest)
                (u8 "Fechas aproximadas")) as [f ->]. reflexivity. }
  rewrite Hf at 1. eapply eq_trans; [apply bind_lift_ok|]. cbv beta.
  assert (or_default
            match extract_field (HistoryEntry.pregunta latest)
                    (u8 "Fechas aproximadas") with
            | Ok f => f
            | Raise _ => None
            end (u8 "Fechas no definidas")
          = itinerary_fechas latest) as ->.
  { unfold itinerary_fechas.
    destruct (extract_field_total (HistoryEntry.pregunta latest)
                (u8 "Fechas aproximadas")) as [f ->]. reflexivity. }
  fold search. rewrite (run_eta search) at 1.
  destruct (result search) as [photos|err]; [|reflexivity].
  unfold bind at 1.
  rewrite (flow_start_eq (itinerary_destino latest) (itinerary_fechas latest)).
  fold flow.
  destruct flow as [pdf t]. cbn [fst snd].
  destruct photos as [|u photos].
  - unfold ret, bind, lift. cbn [gallery gallery_calls take map app].
    rewrite Hh.
    destruct (latin1_encodable _); rewrite !app_nil_r; reflexivity.
  - rewrite draw_header_eq. unfold bind, ret, lift.
    rewrite draw_photos_run. cbn [app]. rewrite Hh.
    cbn [pages page draw showPage length]. unfold gallery, gallery_calls.
    unfold all_pages.
    rewrite take_take. cbn [Nat.min]. unfold gallery_ops, x_positions.
    destruct (latin1_encodable _); rewrite !app_nil_r; [|reflexivity].
    cbn [app]. rewrite <- !app_assoc. reflexivity.
Qed.

(** ** Failures *)

Lemma py_get_raise (v : pyval) (k : pystr) (d : pyval) (e : exn) :
  py_get v k d = Raise e -> e = AttributeError.
Proof. destruct v; simpl; congruence. Qed.

Lemma collect_urls_raise (items : list pyval) (e : exn) :
  collect_urls items = Raise e -> e = AttributeError.
Proof.
  induction items as [|item items IH]; [discriminate|].
  cbn [collect_urls].
  destruct (py_get item (u8 "urls") (PyDict [])) as [us|e1] eqn:E1;
    cbn [res_bind]; [|intros [= <-]; exact (py_get_raise _ _ _ _ E1)].
  destruct (py_get us (u8 "regular") PyNone) as [url|e2] eqn:E2;
    cbn [res_bind]; [|intros [= <-]; exact (py_get_raise _ _ _ _ E2)].
  destruct (collect_urls items) as [urls|e3]; cbn [res_bind];
    [discriminate|]. intros [= <-]. apply IH. reflexivity.
Qed.

(** The photo adapter fails only on a request that cannot be encoded or on
    a payload of an unexpected shape. *)
Lemma get_destination_photos_raise (w : World) (destino : option pystr)
    (e : exn) :
  result (get_destination_photos w destino) = Raise e ->
  e = AttributeError \/ e = TypeError \/ e = UnicodeEncodeError.
Proof.
  unfold get_destination_photos.
  destruct (env_key w _); [|discriminate].
  destruct destino as [[|c d]|]; try discriminate.
  unfold http_get, bind, result, lift, ret, raise.
  destruct (request_outcome w _ _ _) as [|data|];
    [discriminate| |intros [= <-]; auto].
  unfold photos_of_json.
  destruct (py_get data (u8 "results") (PyList [])) as [results|e1] eqn:E1;
    cbn [res_bind snd];
    [|intros [= <-]; left; exact (py_get_raise _ _ _ _ E1)].
  destruct (py_iter results) as [items|e2] eqn:E2; cbn [res_bind].
  - intros H. left. apply (collect_urls_raise items). exact H.
  - intros [= <-]. right. left. destruct results; simpl in E2; congruence.
Qed.

Lemma itinerary_destino_nonempty (latest : HistoryEntry.t) :
  itinerary_destino latest <> [].
Proof.
  assert (forall o : option pystr, opt_truthy o = true -> opt_str o <> [])
    as Hopt by (intros [[|c s]|]; simpl; congruence).
  unfold itinerary_destino.
  destruct (opt_truthy (HistoryEntry.destino latest)) eqn:T; [auto|].
  destruct (extract_destino (HistoryEntry.pregunta latest)) as [d|];
    [|vm_compute; discriminate].
  unfold or_default. destruct (opt_truthy d) eqn:T'; [auto|].
  vm_compute. discriminate.
Qed.

Lemma last_default {A} (e : A) (es : list A) :
  last (e :: es) = Some (List.last es e).
Proof.
  destruct (exists_last (l := e :: es)) as (front & a & E); [discriminate|].
  rewrite E, last_snoc. destruct front as [|x front].
  - injection E as -> ->. reflexivity.
  - injection E as -> ->. rewrite List.last_last. reflexivity.
Qed.


(** ** The text of the pages *)

Lemma text_of_doc_app (a b : list (list DrawOp)) :
  text_of_doc (a ++ b) = text_of_doc a ++ text_of_doc b.
Proof. unfold text_of_doc. rewrite flat_map_app, map_app. reflexivity. Qed.

Lemma text_of_page_app (p q : list DrawOp) :
  text_of_page (p ++ q) = text_of_page p ++ text_of_page q.
Proof. apply flat_map_app. Qed.

Lemma text_of_doc_snoc (ps : list (list DrawOp)) (p : list DrawOp)
    (ls : list (Q * Q * pystr)) :
  text_of_doc (ps ++ [p ++ [DrawText ls]])
  = text_of_doc (ps ++ [p]) ++ map snd ls.
Proof.
  rewrite !text_of_doc_app. unfold text_of_doc. cbn [flat_map].
  rewrite !app_nil_r, text_of_page_app, map_app. cbn [text_of_page flat_map].
  rewrite app_nil_r, app_assoc. reflexivity.
Qed.

Lemma text_of_doc_one (p : list DrawOp) (ls : list (Q * Q * pystr)) :
  text_of_doc [p ++ [DrawText ls]] = text_of_doc [p] ++ map snd ls.
Proof. exact (text_of_doc_snoc [] p ls). Qed.

Lemma photo_ops_text (w : World) (urls : list pyval) (xs : list Q) (y : Q) :
  text_of_page (photo_ops w urls xs y) = [].
Proof.
  revert xs. induction urls as [|u urls IH]; intros [|x xs]; try reflexivity.
  cbn [photo_ops]. rewrite text_of_page_app, IH.
  destruct (image_ok w u); reflexivity.
Qed.

Lemma gallery_text (w : World) (photos : list pyval) :
  text_of_doc (gallery w photos) = [].
Proof.
  destruct photos as [|u photos]; [reflexivity|].
  unfold gallery, text_of_doc. cbn [flat_map].
  rewrite app_nil_r, !text_of_page_app, photo_ops_text. reflexivity.
Qed.

Lemma textLine_lines (s : pystr) (t : TextObject) :
  map snd (text_lines (textLine s t)) = map snd (text_lines t) ++ [s].
Proof. unfold textLine. cbn [text_lines]. rewrite map_app. reflexivity. Qed.

Lemma textLine_fold (f : pystr -> pystr) (ls : list pystr) (t : TextObject) :
  map snd (text_lines (fold_left (fun t line => textLine (f line) t) ls t))
  = map snd (text_lines t) ++ map f ls.
Proof.
  revert t. induction ls as [|l ls IH]; intros t; cbn [fold_left map].
  - rewrite app_nil_r. reflexivity.
  - rewrite IH, textLine_lines, <- app_assoc. reflexivity.
Qed.

Lemma continue_page_eq (pdf : Canvas) (t : TextObject) :
  continue_page pdf t
  = ({| pages := pages pdf ++ [page pdf ++ [DrawText (text_lines t)]];
        page := header_ops ++ continued_ops |},
     beginText 40%Q (page_height - 120 - 16)%Q 11%Q).
Proof.
  unfold continue_page. rewrite draw_header_eq.
  unfold draw, drawText, draw, showPage, continued_ops.
  cbn [pages page app]. rewrite <- !app_assoc. reflexivity.
Qed.

(** The text object right before the margin test of one pass. *)
Lemma flow_entry_text (st : Canvas * TextObject) (entry : HistoryEntry.t) :
  flow_text (flow_entry st entry) = flow_text st ++ entry_lines entry.
Proof.
  destruct st as [pdf t]. unfold flow_entry.
  set (t3 := textLine [] _).
  assert (map snd (text_lines t3)
          = map snd (text_lines t) ++ entry_lines entry) as Ht3.
  { unfold t3, entry_lines. rewrite textLine_lines.
    destruct (opt_truthy (HistoryEntry.respuesta entry)).
    - rewrite textLine_fold, textLine_lines, <- !app_assoc. reflexivity.
    - rewrite textLine_lines, <- !app_assoc. reflexivity. }
  destruct (Qltb (getY t3) 80).
  - rewrite continue_page_eq. unfold flow_text, all_pages.
    cbn [fst snd pages page beginText text_lines map].
    rewrite app_nil_r, <- app_assoc, text_of_doc_app.
    replace (text_of_doc
               ([page pdf ++ [DrawText (text_lines t3)]]
                ++ [header_ops ++ continued_ops]))
      with (text_of_doc [page pdf] ++ map snd (text_lines t3)).
    + rewrite Ht3, text_of_doc_app, <- !app_assoc. reflexivity.
    + rewrite (text_of_doc_app [_] [_]).
      rewrite text_of_doc_one.
      replace (text_of_doc [header_ops ++ continued_ops]) with (@nil pystr)
        by reflexivity.
      rewrite app_nil_r. reflexivity.
  - unfold flow_text. cbn [fst snd]. rewrite Ht3, app_assoc. reflexivity.
Qed.

Lemma flow_text_fold (history : list HistoryEntry.t)
    (st : Canvas * TextObject) :
  flow_text (fold_left flow_entry history st)
  = flow_text st ++ flat_map entry_lines history.
Proof.
  revert st. induction history as [|e history IH]; intros st.
  - cbn. rewrite app_nil_r. reflexivity.
  - cbn [fold_left flat_map]. rewrite IH, flow_entry_text, <- app_assoc.
    reflexivity.
Qed.

(** The text of a finished document. *)
Lemma run_text (w : World) (dest fechas : pystr)
    (history : list HistoryEntry.t) (photos : list pyval) :
  let flow := fold_left flow_entry history (flow_start dest fechas) in
  text_of_doc (all_pages (drawText (snd flow) (fst flow)) ++ gallery w photos)
  = flat_map entry_lines history.
Proof.
  intros flow. rewrite text_of_doc_app, gallery_text, app_nil_r.
  pose proof (flow_text_fold history (flow_start dest fechas)) as H.
  fold flow in H. unfold flow_text in H. destruct flow as [pdf t].
  cbn [fst snd] in *. unfold all_pages, drawText, draw. cbn [pages page].
  unfold all_pages in H. rewrite text_of_doc_snoc, H. reflexivity.
Qed.

(** The text of the document of a session with a history. *)
Lemma download_text (w : World) (st : Store) (session_id : pystr)
    (history : list HistoryEntry.t) (log : list Call) (doc : Document) :
  conversation_store st !! session_id = Some history ->
  download_itinerary w st session_id = (log, Ok doc) ->
  text_of_doc (doc_pages doc) = flat_map entry_lines history.
Proof.
  intros Hhist. destruct history as [|e es];
    [unfold download_itinerary; rewrite Hhist; discriminate|].
  rewrite (download_itinerary_run w st session_id e es Hhist). cbv zeta.
  destruct (result (get_destination_photos w _)) as [photos|err];
    [|discriminate].
  destruct (latin1_encodable _); [|discriminate].
  intros H. apply (f_equal (fun m => pages_of (snd m))) in H.
  cbn [snd pages_of doc_pages] in H. rewrite <- H. apply run_text.
Qed.

(** X20: the pages of an itinerary hold, in order and each exactly once, the
    question of every history entry and the lines its answer wraps into,
    with an empty line after each entry; page breaks and the gallery add or
    drop no text. *)
Theorem itinerary_text (w : World) (st : Store) (session_id : pystr)
    (log : list Call) (doc : Document) :
  download_itinerary w st session_id = (log, Ok doc) ->
  text_of_doc (doc_pages doc)
  = flat_map entry_lines (store_get (conversation_store st) session_id).
Proof.
  intros H. unfold store_get.
  destruct (conversation_store st !! session_id) as [history|] eqn:Hhist.
  - exact (download_text w st session_id history log doc Hhist H).
  - unfold download_itinerary in H. rewrite Hhist in H. discriminate.
Qed.

(** The itinerary of a session with one short answer. *)
Lemma itinerary_text_witness :
  let w := offline_world (GenText (Some (u8 "Hola viajero"))) in
  let st := plan_step empty_store (w, followup_request) in
  exists log doc,
    download_itinerary w st (u8 "s1") = (log, Ok doc) /\
    text_of_doc (doc_pages doc)
    = [u8 "• Pregunta: Y que puedo comer alli?"; u8 "  Hola viajero"; []].
Proof.
  intros w st.
  destruct (download_itinerary w st (u8 "s1")) as [log [doc|e]] eqn:E;
    [|vm_compute in E; discriminate].
  exists log, doc. split; [reflexivity|].
  rewrite (itinerary_text w st (u8 "s1") log doc E).
  vm_compute. reflexivity.
Defined.

(** ** The pages *)

(** More drawing on the page in progress, and more pages after it, keep the
    first page's opening. *)
Lemma first_page_kept (P : list DrawOp) (pdf : Canvas) (ops : list DrawOp)
    (tail : list (list DrawOp)) :
  (exists rest more, all_pages pdf = (P ++ rest) :: more) ->
  exists rest more,
    pages pdf ++ [page pdf ++ ops] ++ tail = (P ++ rest) :: more.
Proof.
  unfold all_pages. intros (rest & more & H).
  destruct (pages pdf) as [|p0 ps].
  - cbn [app] in *. injection H as H _. rewrite H.
    exists (rest ++ ops), tail. rewrite <- app_assoc. reflexivity.
  - cbn [app] in *. injection H as -> _. eauto.
Qed.

Lemma flow_entry_first (P : list DrawOp) (st : Canvas * TextObject)
    (entry : HistoryEntry.t) :
  (exists rest more, all_pages (fst st) = (P ++ rest) :: more) ->
  exists rest more, all_pages (fst (flow_entry st entry)) = (P ++ rest) :: more.
Proof.
  destruct st as [pdf t]. cbn [fst]. intros H. unfold flow_entry.
  destruct (Qltb _ 80); [|exact H].
  rewrite continue_page_eq. unfold all_pages. cbn [fst pages page].
  rewrite <- app_assoc. apply first_page_kept. exact H.
Qed.

Lemma flow_first (P : list DrawOp) (history : list HistoryEntry.t)
    (st : Canvas * TextObject) :
  (exists rest more, all_pages (fst st) = (P ++ rest) :: more) ->
  exists rest more,
    all_pages (fst (fold_left flow_entry history st)) = (P ++ rest) :: more.
Proof.
  revert st. induction history as [|e history IH]; intros st H; [exact H|].
  cbn [fold_left]. apply IH, flow_entry_first, H.
Qed.

(** One pass of the loop finishes at most one page. *)
Lemma flow_entry_pages (st : Canvas * TextObject) (entry : HistoryEntry.t) :
  (length (pages (fst (flow_entry st entry)))
   <= S (length (pages (fst st))))%nat.
Proof.
  destruct st as [pdf t]. unfold flow_entry.
  destruct (Qltb _ 80); [|cbn [fst]; lia].
  rewrite continue_page_eq. cbn [fst pages]. rewrite length_app. simpl. lia.
Qed.

Lemma flow_pages (history : list HistoryEntry.t) (st : Canvas * TextObject) :
  (length (pages (fst (fold_left flow_entry history st)))
   <= length (pages (fst st)) + length history)%nat.
Proof.
  revert st. induction history as [|e history IH]; intros st.
  - cbn. lia.
  - cbn [fold_left length]. specialize (IH (flow_entry st e)).
    pose proof (flow_entry_pages st e). lia.
Qed.

Lemma itinerary_fechas_nonempty (latest : HistoryEntry.t) :
  itinerary_fechas latest <> [].
Proof.
  unfold itinerary_fechas.
  destruct (extract_field _ _) as [f|]; [|vm_compute; discriminate].
  unfold or_default. destruct f as [[|c f]|]; cbn [opt_truthy str_truthy];
    [vm_compute | cbn [opt_str] | vm_compute]; discriminate.
Qed.

(** The first page and the number of pages of a document. *)
Lemma download_pages (w : World) (st : Store) (session_id : pystr)
    (log : list Call) (doc : Document) (e : HistoryEntry.t)
    (es : list HistoryEntry.t) :
  conversation_store st !! session_id = Some (e :: es) ->
  download_itinerary w st session_id = (log, Ok doc) ->
  let latest := List.last es e in
  exists rest more,
    doc_pages doc
    = (header_ops
       ++ title_ops (itinerary_destino latest) (itinerary_fechas latest)
       ++ rest) :: more /\
    (length more <= length (e :: es) + 1)%nat.
Proof.
  intros Hhist H latest.
  rewrite (download_itinerary_run w st session_id e es Hhist) in H.
  cbv zeta in H.
  destruct (result (get_destination_photos w _)) as [photos|err];
    [|discriminate].
  destruct (latin1_encodable _); [|discriminate].
  apply (f_equal (fun m => pages_of (snd m))) in H.
  cbn [snd pages_of doc_pages] in H.
  fold latest in H.
  set (flow := fold_left flow_entry (e :: es) _) in H.
  destruct (flow_first
              (header_ops
               ++ title_ops (itinerary_destino latest) (itinerary_fechas latest))
              (e :: es)
              (flow_start (itinerary_destino latest) (itinerary_fechas latest)))
    as (rest & more & Hfirst).
  { exists [], []. unfold flow_start, all_pages. cbn [fst pages page app].
    rewrite app_nil_r. reflexivity. }
  fold flow in Hfirst.
  pose proof (flow_pages (e :: es)
                (flow_start (itinerary_destino latest) (itinerary_fechas latest)))
    as Hcount.
  fold flow in Hcount. cbn [flow_start fst pages] in Hcount.
  destruct flow as [pdf t]. cbn [fst snd] in *.
  destruct (first_page_kept _ pdf [DrawText (text_lines t)] (gallery w photos)
              (ex_intro _ rest (ex_intro _ more Hfirst)))
    as (rest' & more' & E).
  exists rest', more'. split.
  - rewrite <- H. unfold all_pages, drawText, draw. cbn [pages page].
    rewrite <- app_assoc, E, <- app_assoc. reflexivity.
  - apply (f_equal (@length _)) in E. rewrite !length_app in E.
    assert (length (gallery w photos) <= 1)%nat
      by (destruct photos; simpl; lia).
    cbn [length] in *. lia.
Qed.

(** X21: an itinerary opens with the header, the destination and the dates
    of the latest history entry, neither of them ever empty, and the title
    of the conversation; every further page starts with the header, and
    there is at most one further page for each history entry and one for
    the gallery. *)
Theorem itinerary_pages (w : World) (st : Store) (session_id : pystr)
    (log : list Call) (doc : Document) (history : list HistoryEntry.t)
    (latest : HistoryEntry.t) :
  download_itinerary w st session_id = (log, Ok doc) ->
  conversation_store st !! session_id = Some history ->
  last history = Some latest ->
  itinerary_destino latest <> [] /\ itinerary_fechas latest <> [] /\
  exists rest more,
    doc_pages doc
    = (header_ops
       ++ title_ops (itinerary_destino latest) (itinerary_fechas latest)
       ++ rest) :: more /\
    Forall headed more /\
    (length more <= length history + 1)%nat.
Proof.
  intros H Hhist Hlast.
  pose proof (header_on_every_page w st session_id log doc H) as [_ Hheaded].
  destruct history as [|e es]; [discriminate|].
  rewrite last_default in Hlast. injection Hlast as <-.
  split; [apply itinerary_destino_nonempty|].
  split; [apply itinerary_fechas_nonempty|].
  destruct (download_pages w st session_id log doc e es Hhist H)
    as (rest & more & Hdoc & Hlen).
  exists rest, more. split; [exact Hdoc|]. split; [|exact Hlen].
  rewrite Hdoc in Hheaded. exact (Forall_inv_tail Hheaded).
Qed.

(** The itinerary after a first question about Paris in June. *)
Lemma itinerary_pages_witness :
  let w := offline_world (GenText (Some (u8 "Hola viajero"))) in
  let st := plan_step empty_store (w, paris_request) in
  exists log doc rest,
    download_itinerary w st (u8 "s1") = (log, Ok doc) /\
    doc_pages doc
    = [header_ops ++ title_ops (u8 "Paris") (u8 "en junio") ++ rest].
Proof.
  intros w st.
  destruct (download_itinerary w st (u8 "s1")) as [log [doc|e]] eqn:E;
    [|vm_compute in E; discriminate].
  assert (exists history latest,
             conversation_store st !! u8 "s1" = Some history /\
             last history = Some latest /\
             itinerary_destino latest = u8 "Paris" /\
             itinerary_fechas latest = u8 "en junio" /\
             length history = 1%nat)
    as (history & latest & Hh & Hl & Hd & Hf & Hn).
  { eexists. eexists. split; [vm_compute; reflexivity|].
    split; [reflexivity|]. split; [vm_compute; reflexivity|].
    split; vm_compute; reflexivity. }
  destruct (itinerary_pages w st (u8 "s1") log doc history latest E Hh Hl)
    as (_ & _ & rest & more & Hdoc & _ & Hlen).
  exists log, doc, rest. split; [reflexivity|].
  rewrite Hdoc, Hd, Hf. f_equal.
  assert (length (doc_pages doc) = 1%nat) as H1.
  { apply (f_equal (fun m => length (pages_of (snd m)))) in E.
    cbn [snd pages_of] in E. rewrite <- E. vm_compute. reflexivity. }
  rewrite Hdoc in H1. destruct more; [reflexivity | discriminate].
Defined.

(** ** The gallery *)

Lemma images_of_page_app (p q : list DrawOp) :
  images_of_page (p ++ q) = images_of_page p ++ images_of_page q.
Proof. apply flat_map_app. Qed.

Lemma photo_ops_images (w : World) (urls : list pyval) (xs : list Q) (y : Q) :
  images_of_page (photo_ops w urls xs y)
  = List.filter (image_ok w) (take (length xs) urls).
Proof.
  revert xs. induction urls as [|u urls IH]; intros [|x xs]; try reflexivity.
  cbn [photo_ops length take List.filter].
  rewrite images_of_page_app, IH. destruct (image_ok w u); reflexivity.
Qed.

Lemma flow_entry_no_images (st : Canvas * TextObject) (entry : HistoryEntry.t) :
  Forall (fun p => images_of_page p = []) (all_pages (fst st)) ->
  Forall (fun p => images_of_page p = []) (all_pages (fst (flow_entry st entry))).
Proof.
  destruct st as [pdf t]. cbn [fst]. intros H. unfold flow_entry.
  destruct (Qltb _ 80); [|exact H].
  rewrite continue_page_eq. unfold all_pages in *. cbn [fst pages page].
  apply Forall_app in H as [Hps Hp].
  apply Forall_inv in Hp.
  repeat (apply Forall_app; split); [exact Hps | |].
  - constructor; [|constructor]. rewrite images_of_page_app, Hp. reflexivity.
  - constructor; [|constructor]. reflexivity.
Qed.

Lemma flow_no_images (history : list HistoryEntry.t)
    (st : Canvas * TextObject) :
  Forall (fun p => images_of_page p = []) (all_pages (fst st)) ->
  Forall (fun p => images_of_page p = [])
    (all_pages (fst (fold_left flow_entry history st))).
Proof.
  revert st. induction history as [|e history IH]; intros st H; [exact H|].
  cbn [fold_left]. apply IH, flow_entry_no_images, H.
Qed.

Lemma flat_map_all_nil {A B} (f : A -> list B) (l : list A) :
  Forall (fun x => f x = []) l -> flat_map f l = [].
Proof.
  induction 1 as [|x l Hx _ IH]; [reflexivity|].
  cbn [flat_map]. rewrite Hx, IH. reflexivity.
Qed.

Lemma gallery_images (w : World) (photos : list pyval) :
  flat_map images_of_page (gallery w photos)
  = List.filter (image_ok w) (take 3 photos).
Proof.
  destruct photos as [|u photos]; [reflexivity|].
  unfold gallery. cbn [flat_map]. rewrite app_nil_r.
  rewrite !images_of_page_app, photo_ops_images.
  change (length x_positions) with 3%nat. rewrite take_take.
  reflexivity.
Qed.

(** X22: an itinerary downloads at most three images: after the photo
    search, the first three URLs it returned are fetched once each, in
    order, and the ones that load are drawn on the gallery page, which comes
    last; no other page holds an image, and without photos there is no
    gallery page. *)
Theorem itinerary_images (w : World) (st : Store) (session_id : pystr)
    (log : list Call) (doc : Document) :
  download_itinerary w st session_id = (log, Ok doc) ->
  exists d search photos text_pages,
    get_destination_photos w (Some d) = (search, Ok photos) /\
    log = search ++ map FetchImage (take 3 photos) /\
    doc_pages doc = text_pages ++ gallery w photos /\
    text_pages <> [] /\
    Forall (fun p => images_of_page p = []) text_pages /\
    flat_map images_of_page (doc_pages doc)
    = List.filter (image_ok w) (take 3 photos).
Proof.
  destruct (conversation_store st !! session_id) as [[|e es]|] eqn:Hhist;
    try (unfold download_itinerary; rewrite Hhist; discriminate).
  rewrite (download_itinerary_run w st session_id e es Hhist). cbv zeta.
  set (dest := itinerary_destino (List.last es e)).
  set (search := get_destination_photos w (Some dest)).
  destruct (result search) as [photos|err] eqn:R; [|discriminate].
  destruct (latin1_encodable _); [|discriminate].
  set (flow := fold_left flow_entry (e :: es) _).
  intros H.
  assert (log = calls search ++ gallery_calls photos) as Hlog.
  { apply (f_equal fst) in H. symmetry. exact H. }
  apply (f_equal (fun m => pages_of (snd m))) in H.
  cbn [snd pages_of doc_pages] in H.
  assert (Forall (fun p => images_of_page p = [])
            (all_pages (drawText (snd flow) (fst flow)))) as Hno.
  { pose proof (flow_no_images (e :: es)
                  (flow_start dest (itinerary_fechas (List.last es e)))) as F.
    fold flow in F. destruct flow as [pdf t]. cbn [fst snd] in *.
    unfold all_pages, drawText, draw in *. cbn [pages page] in *.
    assert (Forall (fun p => images_of_page p = []) (pages pdf ++ [page pdf]))
      as F' by (apply F; repeat constructor).
    apply Forall_app in F' as [Hps Hp]. apply Forall_inv in Hp.
    apply Forall_app. split; [exact Hps|].
    constructor; [|constructor]. rewrite images_of_page_app, Hp. reflexivity. }
  exists dest, (calls search), photos,
    (all_pages (drawText (snd flow) (fst flow))).
  split; [fold search; rewrite <- R; apply run_eta|].
  split; [exact Hlog|]. split; [symmetry; exact H|].
  split; [unfold all_pages; destruct (pages _); discriminate|].
  split; [exact Hno|].
  rewrite <- H, flat_map_app, (flat_map_all_nil _ _ Hno), gallery_images.
  reflexivity.
Qed.

(** Four photos are found; three are fetched and drawn. *)
Lemma itinerary_images_witness :
  let st := plan_step empty_store
              (offline_world (GenText (Some (u8 "Hola"))), paris_request) in
  exists log doc search photos text_pages,
    download_itinerary four_photos_world st (u8 "s1") = (log, Ok doc) /\
    log = search ++ map FetchImage (take 3 photos) /\
    doc_pages doc = text_pages ++ gallery four_photos_world photos /\
    fetches log
    = [PyStr (u8 "https://img/1"); PyStr (u8 "https://img/2");
       PyStr (u8 "https://img/3")].
Proof.
  intros st.
  destruct (download_itinerary four_photos_world st (u8 "s1"))
    as [log [doc|e]] eqn:E; [|vm_compute in E; discriminate].
  destruct (itinerary_images four_photos_world st (u8 "s1") log doc E)
    as (d & search & photos & text_pages & _ & Hlog & Hdoc & _).
  exists log, doc, search, photos, text_pages.
  split; [reflexivity|]. split; [exact Hlog|]. split; [exact Hdoc|].
  apply (f_equal (fun m => fetches (fst m))) in E. cbn [fst] in E.
  rewrite <- E. vm_compute. reflexivity.
Defined.

(** The request of the photo search for a place. *)
Lemma get_destination_photos_search (w : World) (k d : pystr) :
  env_key w (u8 "UNSPLASH_ACCESS_KEY") = Some k -> d <> [] ->
  calls (get_destination_photos w (Some d))
  = [HttpGet PHOTOS_URL (photo_params d) (photo_headers k)].
Proof.
  intros Hk Hd. unfold get_destination_photos. rewrite Hk.
  destruct d as [|c d]; [contradiction|].
  unfold http_get, bind, calls, lift, ret.
  destruct (request_outcome w _ _ _) as [|data|];
    [reflexivity| |reflexivity].
  destruct (photos_of_json data); reflexivity.
Qed.

(** X23: with the photo credential configured, an itinerary always starts
    with one photo search, for the destination of the latest history entry,
    else the one written in its question; when neither is known the search
    is made for the placeholder text that the title shows. *)
Theorem itinerary_photo_search (w : World) (st : Store) (session_id : pystr)
    (history : list HistoryEntry.t) (latest : HistoryEntry.t) (k : pystr) :
  conversation_store st !! session_id = Some history ->
  last history = Some latest ->
  env_key w (u8 "UNSPLASH_ACCESS_KEY") = Some k ->
  (exists rest,
      calls (download_itinerary w st session_id)
      = HttpGet PHOTOS_URL (photo_params (itinerary_destino latest))
          (photo_headers k) :: rest) /\
  (forall d, HistoryEntry.destino latest = Some d -> d <> [] ->
             itinerary_destino latest = d) /\
  (opt_truthy (HistoryEntry.destino latest) = false ->
   ~ occurs (u8 "Destino deseado" ++ COLON) (HistoryEntry.pregunta latest) ->
   itinerary_destino latest = u8 "Destino no especificado").
Proof.
  intros Hhist Hlast Hk. destruct history as [|e es]; [discriminate|].
  rewrite last_default in Hlast. injection Hlast as <-.
  split; [|split].
  - rewrite (download_itinerary_run w st session_id e es Hhist). cbv zeta.
    pose proof (get_destination_photos_search w k
                  (itinerary_destino (List.last es e)) Hk
                  (itinerary_destino_nonempty _)) as Hc.
    destruct (result (get_destination_photos w _)); cbn [calls fst];
      change (fst (get_destination_photos w
                     (Some (itinerary_destino (List.last es e)))))
        with (calls (get_destination_photos w
                       (Some (itinerary_destino (List.last es e)))));
      rewrite Hc; eexists; reflexivity.
  - intros d Hd Hne. unfold itinerary_destino. rewrite Hd.
    destruct d; [contradiction | reflexivity].
  - intros Hd Hno. unfold itinerary_destino, extract_destino.
    rewrite Hd, (extract_field_no_marker _ _ Hno). reflexivity.
Qed.

(** A session whose only question names no destination. *)
Lemma itinerary_photo_search_witness :
  let st := plan_step empty_store
              (offline_world (GenText (Some (u8 "Hola"))), followup_request) in
  exists rest,
    calls (download_itinerary four_photos_world st (u8 "s1"))
    = HttpGet PHOTOS_URL (photo_params (u8 "Destino no especificado"))
        (photo_headers (u8 "key")) :: rest.
Proof.
  intros st.
  assert (exists history latest,
             conversation_store st !! u8 "s1" = Some history /\
             last history = Some latest /\
             opt_truthy (HistoryEntry.destino latest) = false /\
             HistoryEntry.pregunta latest = PlanRequest.pregunta followup_request)
    as (history & latest & Hh & Hl & Hd & Hq).
  { eexists. eexists. split; [vm_compute; reflexivity|].
    split; [reflexivity|]. split; vm_compute; reflexivity. }
  assert (env_key four_photos_world (u8 "UNSPLASH_ACCESS_KEY")
          = Some (u8 "key")) as Hk by (vm_compute; reflexivity).
  destruct (itinerary_photo_search four_photos_world st (u8 "s1") history
              latest (u8 "key") Hh Hl Hk) as ((rest & Hc) & _ & Hp).
  exists rest. rewrite Hc, Hp; [reflexivity | exact Hd |].
  rewrite Hq. intros Hocc. apply str_contains_spec in Hocc.
  vm_compute in Hocc. discriminate.
Defined.

Lemma last_n_snoc {A} (n : nat) (l : list A) (x : A) :
  last_n (S n) (l ++ [x]) = last_n n l ++ [x].
Proof.
  unfold last_n. rewrite length_app. cbn [length].
  replace (length l + 1 - S n)%nat with (length l - n)%nat by lia.
  apply drop_app_le. lia.
Qed.

(** X24: after a successful chat turn the itinerary of its session is never
    missing, and a document made for it ends with the question just asked
    and the lines of the answer just given. *)
Theorem itinerary_after_plan (w : World) (st : Store) (payload : PlanRequest.t)
    (log : list Call) (resp : PlanResponse.t) (st' : Store) :
  plan_trip w st payload = (log, Ok (resp, st')) ->
  let sid := session_key (PlanRequest.session_id payload) in
  (forall w' log', download_itinerary w' st' sid
                   <> (log', Raise (HTTPException 404))) /\
  (forall w' log' doc,
      download_itinerary w' st' sid = (log', Ok doc) ->
      exists before,
        text_of_doc (doc_pages doc)
        = before
          ++ (u8 "• Pregunta: " ++ PlanRequest.pregunta payload)
             :: map (fun line => u8 "  " ++ line)
                  (wrap_text (PlanResponse.respuesta resp) 90)
          ++ [[]]).
Proof.
  intros H sid. open_plan_trip H.
  destruct H as (_ & _ & _ & _ & _ & _ & _ & _ & _ & _ & _ & -> & ->).
  fold sid. cbn [PlanResponse.respuesta].
  set (entry := new_entry w payload _ completion).
  rewrite (last_n_snoc 9).
  set (front := last_n 9 (store_get (conversation_store st) sid)).
  assert (conversation_store
            {| conversation_store :=
                 <[sid := front ++ [entry]]> (conversation_store st);
               favorites_store := favorites_store st |} !! sid
          = Some (front ++ [entry])) as Hhist
    by (cbn [conversation_store]; apply lookup_insert_eq).
  split.
  - intros w' log' E.
    destruct (front ++ [entry]) as [|e0 es] eqn:F;
      [destruct front; discriminate|].
    rewrite (download_itinerary_run w' _ sid e0 es Hhist) in E.
    cbv zeta in E.
    destruct (result (get_destination_photos w' _)) as [photos|err] eqn:R;
      [destruct (latin1_encodable _); discriminate|].
    injection E as _ ->.
    destruct (get_destination_photos_raise w' _ _ R) as [|[|]]; discriminate.
  - intros w' log' doc E.
    rewrite (download_text w' _ sid _ log' doc Hhist E).
    exists (flat_map entry_lines front). rewrite flat_map_app.
    f_equal. cbn [flat_map]. rewrite app_nil_r. unfold entry_lines, entry.
    cbn [new_entry HistoryEntry.pregunta HistoryEntry.respuesta opt_truthy
         opt_str].
    destruct (answer_of_words completion) as [Hne _].
    destruct (answer_of completion); [contradiction | reflexivity].
Qed.

(** A first question, then the itinerary. *)
Lemma itinerary_after_plan_witness :
  let w := offline_world (GenText (Some (u8 "Hola viajero"))) in
  exists log resp st' log' doc before,
    plan_trip w empty_store followup_request = (log, Ok (resp, st')) /\
    download_itinerary w st' (u8 "s1") = (log', Ok doc) /\
    text_of_doc (doc_pages doc)
    = before
      ++ (u8 "• Pregunta: " ++ PlanRequest.pregunta followup_request)
         :: map (fun line => u8 "  " ++ line)
              (wrap_text (PlanResponse.respuesta resp) 90)
      ++ [[]].
Proof.
  intros w.
  destruct (plan_trip w empty_store followup_request)
    as [log [[resp st']|e]] eqn:E; [|vm_compute in E; discriminate].
  destruct (download_itinerary w st' (u8 "s1")) as [log' [doc|e]] eqn:E2;
    [|vm_compute in E; injection E as _ _ <-; vm_compute in E2;
      discriminate].
  assert (session_key (PlanRequest.session_id followup_request) = u8 "s1")
    as Hsid by (vm_compute; reflexivity).
  pose proof (proj2 (itinerary_after_plan w empty_store followup_request
                       log resp st' E) w log' doc) as H.
  rewrite Hsid in H. destruct (H E2) as [before Hb].
  exists log, resp, st', log', doc, before.
  split; [reflexivity|]. split; [exact E2 | exact Hb].
Defined.

(** X25: from the question to the document: after a successful chat turn
    whose question names a destination, the itinerary of the session is
    titled with that destination and with the dates read from the same
    question. *)
Theorem itinerary_shows_destino (w w' : World) (st st' : Store)
    (payload : PlanRequest.t) (log log' : list Call) (resp : PlanResponse.t)
    (d : pystr) (doc : Document) :
  plan_trip w st payload = (log, Ok (resp, st')) ->
  extract_destino (PlanRequest.pregunta payload) = Ok (Some d) ->
  download_itinerary w' st' (session_key (PlanRequest.session_id payload))
  = (log', Ok doc) ->
  exists latest rest more,
    HistoryEntry.pregunta latest = PlanRequest.pregunta payload /\
    doc_pages doc
    = (header_ops ++ title_ops d (itinerary_fechas latest) ++ rest) :: more.
Proof.
  intros H Hd Hdoc.
  assert (d <> []) as Hne.
  { apply extract_field_found in Hd as (_ & _ & _ & _ & _ & _ & _ & H'). exact H'. }
  open_plan_trip H.
  destruct H as (_ & He & _ & _ & _ & _ & _ & _ & _ & _ & _ & _ & ->).
  rewrite Hd in He. injection He as <-.
  set (sid := session_key (PlanRequest.session_id payload)) in *.
  assert (chosen_destino (Some d) (store_get (conversation_store st) sid)
          = Some d) as Hc.
  { unfold chosen_destino. destruct (last _); [|reflexivity].
    destruct d; [contradiction | reflexivity]. }
  rewrite Hc in Hdoc. rewrite (last_n_snoc 9) in Hdoc.
  set (entry := new_entry w payload (Some d) completion) in *.
  set (front := last_n 9 (store_get (conversation_store st) sid)) in *.
  destruct (front ++ [entry]) as [|e0 es] eqn:F;
    [destruct front; discriminate|].
  assert (List.last es e0 = entry) as Hlast.
  { assert (last (e0 :: es) = Some entry) as Hl
      by (rewrite <- F; apply last_snoc).
    rewrite last_default in Hl. congruence. }
  match type of Hdoc with
  | download_itinerary _ ?s _ = _ =>
      assert (conversation_store s !! sid = Some (e0 :: es)) as Hh
        by (cbn [conversation_store]; apply lookup_insert_eq)
  end.
  destruct (download_pages w' _ sid log' doc e0 es Hh Hdoc)
    as (rest & more & Hpages & _).
  rewrite Hlast in Hpages.
  exists entry, rest, more. split; [reflexivity|].
  rewrite Hpages. do 3 f_equal.
  unfold itinerary_destino, entry. cbn [new_entry HistoryEntry.destino].
  destruct d; [contradiction | reflexivity].
Qed.

(** Paris in June, from the question to the title. *)
Lemma itinerary_shows_destino_witness :
  let w := offline_world (GenText (Some (u8 "Hola viajero"))) in
  exists log resp st' log' doc rest more,
    plan_trip w empty_store paris_request = (log, Ok (resp, st')) /\
    download_itinerary w st' (u8 "s1") = (log', Ok doc) /\
    doc_pages doc
    = (header_ops ++ title_ops (u8 "Paris") (u8 "en junio") ++ rest) :: more.
Proof.
  intros w.
  destruct (plan_trip w empty_store paris_request)
    as [log [[resp st']|e]] eqn:E; [|vm_compute in E; discriminate].
  destruct (download_itinerary w st' (u8 "s1")) as [log' [doc|e]] eqn:E2;
    [|vm_compute in E; injection E as _ _ <-; vm_compute in E2;
      discriminate].
  assert (session_key (PlanRequest.session_id paris_request) = u8 "s1")
    as Hsid by (vm_compute; reflexivity).
  assert (extract_destino (PlanRequest.pregunta paris_request)
          = Ok (Some (u8 "Paris"))) as Hd by (vm_compute; reflexivity).
  pose proof (itinerary_shows_destino w w empty_store st' paris_request
                log log' resp (u8 "Paris") doc E Hd) as H.
  rewrite Hsid in H. destruct (H E2) as (latest & rest & more & Hq & Hp).
  exists log, resp, st', log', doc, rest, more.
  split; [reflexivity|]. split; [exact E2|].
  rewrite Hp. do 3 f_equal. unfold itinerary_fechas. rewrite Hq.
  vm_compute. reflexivity.
Defined.
